(** * Case presence indicator: the presence reconciliation logic

    The repository holds four revisions of the Lightning web component
    [CasePresenceIndicator].  Each revision is embedded in a module of its own:

    - [Settings] : the settings-driven revision (unnamed/part_000, first
      component: one record per user, toasts gated on the local focus
      state, de-duplicated publishing);
    - [SessionMap] : the session-map revision (unnamed/part_000, second
      component: [presenceMap] keyed by user and session, merged per user
      by [updateVisibleUsers]);
    - [Mobile] : the form-factor aware revision (unnamed/part_001: grace
      period for mobile users);
    - [SessionEcho] : the revision that echoes the local session into the
      visible list (unnamed/part_002: [updateOwnPresence]).

    Conventions of the embedding.  A JavaScript [Date] is the number of
    milliseconds it holds, an integer of [Z]; timestamps are assumed to be
    valid dates.  Values only tested for truthiness ([HasDraft__c],
    [IsMobile__c], the toast toggles of the settings) are booleans.  A field
    that may be unset ([recordId], [currentState]) is an [option].  Component
    methods are functions from the component state, the host signals they
    read ([Date.now()], [document.visibilityState]) and their arguments to
    the new component state and the effects they issue (toasts, calls of
    [publishPresence]). *)

From Stdlib Require Import ZArith List String Ascii Bool Lia Permutation.
From Stdlib Require Import DecimalString Sorted.
Import ListNotations.
Open Scope string_scope.
Open Scope Z_scope.

(** ** The platform event and the effects *)

(** The payload of a [Case_Presence__e] platform event. *)
Record Payload := mkPayload {
  CaseId__c : string;
  UserId__c : string;
  SessionId__c : string;
  UserName__c : string;
  UserPhotoUrl__c : string;
  State__c : string;
  Timestamp__c : Z;
  HasDraft__c : bool;
  IsMobile__c : bool;
  IsActive__c : bool
}.

(** The four toasts a component dispatches, with the user name shown. *)
Inductive Toast :=
| JoinToast (userName : string)
| LeaveToast (userName : string)
| EditingToast (userName : string)
| StoppedEditingToast (userName : string).

(** The toast toggles of the settings record, [false] when unset. *)
Record ToastSettings := mkToastSettings {
  showJoinToasts : bool;
  showLeaveToasts : bool;
  showEditStartToasts : bool;
  showEditStopToasts : bool
}.

(** ** Array operations of the handlers *)

Section Arrays.
Context {A : Type}.

(** [Array.prototype.findIndex]; [None] stands for [-1]. *)
Fixpoint findIndex (p : A -> bool) (l : list A) : option nat :=
  match l with
  | [] => None
  | x :: r => if p x then Some O else option_map S (findIndex p r)
  end.

(** [[...l.slice(0, i), x, ...l.slice(i + 1)]] *)
Definition replaceAt (i : nat) (x : A) (l : list A) : list A :=
  firstn i l ++ x :: skipn (S i) l.

(** [l.filter((_, j) => j !== i)] *)
Fixpoint removeAt (i : nat) (l : list A) : list A :=
  match l, i with
  | [], _ => []
  | _ :: r, O => r
  | x :: r, S j => x :: removeAt j r
  end.

(** [Array.prototype.sort] with a comparator [cmp] ([cmp a b < 0] puts
    [a] first).  The sort of the language is stable, and for a
    consistent comparator a stable sort has one possible result; it is
    computed here by insertion, each element entering behind the elements
    it does not precede. *)
Fixpoint insertBy (cmp : A -> A -> Z) (x : A) (l : list A) : list A :=
  match l with
  | [] => [x]
  | y :: r => if 0 <? cmp x y then y :: insertBy cmp x r else x :: l
  end.

Definition sortBy (cmp : A -> A -> Z) (l : list A) : list A :=
  fold_right (insertBy cmp) [] l.
End Arrays.

(** [s1 === s2] on strings. *)
Definition strictEq (s1 s2 : string) : bool := String.eqb s1 s2.

(** [caseId !== this.recordId], where [recordId] may be unset. *)
Definition sameRecord (caseId : string) (recordId : option string) : bool :=
  match recordId with
  | Some r => strictEq caseId r
  | None => false
  end.

(** * The form-factor aware revision *)

Module Mobile.

Record User := mkUser {
  userId : string;
  userName : string;
  userPhotoUrl : string;
  state : string;
  lastSeen : Z;
  hasDraft : bool;
  isMobile : bool
}.

Record Component := mkComponent {
  recordId : option string;
  visibleUsers : list User;
  currentUserId : string;
  currentState : option string;
  lastPublishedDraftStatus : bool;
  hasDrafts : bool;
  isActive : bool;
  isMobileDevice : bool;
  settings : ToastSettings;
  isComponentActive : bool;
  presenceExpirationMs : Z
}.

Definition MOBILE_GRACE_PERIOD_MS : Z := 60000.

Definition setVisibleUsers (c : Component) (us : list User) : Component :=
  {| recordId := recordId c;
     visibleUsers := us;
     currentUserId := currentUserId c;
     currentState := currentState c;
     lastPublishedDraftStatus := lastPublishedDraftStatus c;
     hasDrafts := hasDrafts c;
     isActive := isActive c;
     isMobileDevice := isMobileDevice c;
     settings := settings c;
     isComponentActive := isComponentActive c;
     presenceExpirationMs := presenceExpirationMs c |}.

(** The focus handlers assign [this.isActive]. *)
Definition setIsActive (c : Component) (b : bool) : Component :=
  {| recordId := recordId c;
     visibleUsers := visibleUsers c;
     currentUserId := currentUserId c;
     currentState := currentState c;
     lastPublishedDraftStatus := lastPublishedDraftStatus c;
     hasDrafts := hasDrafts c;
     isActive := b;
     isMobileDevice := isMobileDevice c;
     settings := settings c;
     isComponentActive := isComponentActive c;
     presenceExpirationMs := presenceExpirationMs c |}.

(** The record built from a 'gone' event of a mobile user. *)
Definition goneUser (payload : Payload) : User :=
  {| userId := UserId__c payload;
     userName := UserName__c payload;
     userPhotoUrl := UserPhotoUrl__c payload;
     state := "gone";
     lastSeen := Timestamp__c payload;
     hasDraft := HasDraft__c payload;
     isMobile := true |}.

(** The record built from any other event. *)
Definition eventUser (payload : Payload) : User :=
  {| userId := UserId__c payload;
     userName := UserName__c payload;
     userPhotoUrl := UserPhotoUrl__c payload;
     state := State__c payload;
     lastSeen := Timestamp__c payload;
     hasDraft := HasDraft__c payload;
     isMobile := IsMobile__c payload |}.

(** [handlePresenceEvent(payload)]; [visible] is
    [document.visibilityState === 'visible'].  The result is the new
    component and the toasts dispatched. *)
Definition handlePresenceEvent (c : Component) (visible : bool)
    (payload : Payload) : Component * list Toast :=
  if strictEq (UserId__c payload) (currentUserId c) then (c, [])
  else if negb (sameRecord (CaseId__c payload) (recordId c)) then (c, [])
  else
    let existingUserIndex :=
      findIndex (fun u => strictEq (userId u) (UserId__c payload))
                (visibleUsers c) in
    if strictEq (State__c payload) "gone" then
      if IsMobile__c payload then
        let user := goneUser payload in
        match existingUserIndex with
        | Some i => (setVisibleUsers c (replaceAt i user (visibleUsers c)), [])
        | None => (setVisibleUsers c (visibleUsers c ++ [user]), [])
        end
      else
        match existingUserIndex with
        | Some i =>
            let toasts :=
              match nth_error (visibleUsers c) i with
              | Some user =>
                  if visible && showLeaveToasts (settings c)
                  then [LeaveToast (userName user)] else []
              | None => []
              end in
            (setVisibleUsers c (removeAt i (visibleUsers c)), toasts)
        | None => (c, [])
        end
    else
      let user := eventUser payload in
      match existingUserIndex with
      | Some i =>
          let hadDraft :=
            match nth_error (visibleUsers c) i with
            | Some existingUser => hasDraft existingUser
            | None => false
            end in
          let nowHasDraft := HasDraft__c payload in
          let toasts :=
            if visible then
              if negb hadDraft && nowHasDraft
                 && showEditStartToasts (settings c)
              then [EditingToast (userName user)]
              else if hadDraft && negb nowHasDraft
                      && showEditStopToasts (settings c)
              then [StoppedEditingToast (userName user)]
              else []
            else [] in
          (setVisibleUsers c (replaceAt i user (visibleUsers c)), toasts)
      | None =>
          (setVisibleUsers c (visibleUsers c ++ [user]),
           if visible && showJoinToasts (settings c)
           then [JoinToast (userName user)] else [])
      end.

(** The window [filterExpiredUsers] applies to a record. *)
Definition expirationWindow (c : Component) (user : User) : Z :=
  if isMobile user then MOBILE_GRACE_PERIOD_MS else presenceExpirationMs c.

(** [filterExpiredUsers()]; [now] is [Date.now()]. *)
Definition filterExpiredUsers (now : Z) (c : Component) : Component :=
  setVisibleUsers c
    (filter (fun user =>
               let age := now - lastSeen user in
               if isMobile user then age <? MOBILE_GRACE_PERIOD_MS
               else age <? presenceExpirationMs c)
            (visibleUsers c)).

(** The argument of a [publishPresence] call. *)
Record Published := mkPublished {
  pubCaseId : string;
  pubState : string;
  pubHasDraft : bool;
  pubIsMobile : bool
}.

(** [publishStateChange(newState)].  The transport's outcome has no effect
    on the component (a failure is only logged). *)
Definition publishStateChange (c : Component) (newState : string)
    : Component * option Published :=
  match recordId c with
  | None => (c, None)
  | Some caseId =>
      if negb (isComponentActive c) then (c, None)
      else
        ({| recordId := recordId c;
            visibleUsers := visibleUsers c;
            currentUserId := currentUserId c;
            currentState := Some newState;
            lastPublishedDraftStatus := hasDrafts c;
            hasDrafts := hasDrafts c;
            isActive := isActive c;
            isMobileDevice := isMobileDevice c;
            settings := settings c;
            isComponentActive := isComponentActive c;
            presenceExpirationMs := presenceExpirationMs c |},
         Some {| pubCaseId := caseId;
                 pubState := newState;
                 pubHasDraft := hasDrafts c;
                 pubIsMobile := isMobileDevice c |})
  end.

(** The badge lists and badges parsed from the settings. *)
Record Badges := mkBadges {
  parsedVipUsers : list string;
  parsedKeyUsers : list string;
  parsedNormalUsers : list string;
  vipBadge : string;
  keyBadge : string;
  normalBadge : string
}.

(** An element of the getter [displayedUsers]: the record of the user
    ([...user]) and the properties computed for the template. *)
Record DisplayedUser := mkDisplayedUser {
  user : User;
  firstName : string;
  stateLabel : string;
  isEditing : bool;
  containerStyle : string;
  photoClass : string;
  badge : option string;
  showMobileIcon : bool
}.

(** [fullName.split(' ')[0]] *)
Fixpoint firstWord (s : string) : string :=
  match s with
  | EmptyString => EmptyString
  | String c r => if Ascii.eqb c " "%char then EmptyString
                  else String c (firstWord r)
  end.

Section Display.
(** Host functions: [String.prototype.toLowerCase] and the formatting
    of a date in local time by [formatIdleTime]. *)
Variable toLowerCase : string -> string.
Variable formatIdleTime : Z -> string.

(** [getStateLabel(user)] *)
Definition getStateLabel (u : User) : string :=
  if isMobile u then (if hasDraft u then "Editing" else "Active")
  else if strictEq (state u) "active"
  then (if hasDraft u then "Editing" else "Active")
  else "Idle since " ++ formatIdleTime (lastSeen u).

Definition includesName (names : list string) (n : string) : bool :=
  existsb (fun m => strictEq m n) names.

(** The function mapped over [visibleUsers] by [displayedUsers]. *)
Definition displayUser (b : Badges) (u : User) : DisplayedUser :=
  let opacity :=
    if strictEq (state u) "active" || isMobile u then "1" else "0.5" in
  let first := firstWord (userName u) in
  let userNameLower := toLowerCase first in
  {| user := u;
     firstName := first;
     stateLabel := getStateLabel u;
     isEditing := hasDraft u;
     containerStyle := "opacity: " ++ opacity ++ ";";
     photoClass := "avatar-photo " ++ (if hasDraft u then "editing" else "");
     badge := if includesName (parsedVipUsers b) userNameLower
              then Some (vipBadge b)
              else if includesName (parsedKeyUsers b) userNameLower
              then Some (keyBadge b)
              else if includesName (parsedNormalUsers b) userNameLower
              then Some (normalBadge b)
              else None;
     showMobileIcon := isMobile u |}.

(** The getter [displayedUsers]; [narrow] is the media query of the
    getter [isMobile]. *)
Definition displayedUsers (b : Badges) (narrow : bool) (c : Component)
    : list DisplayedUser :=
  let mappedUsers := map (displayUser b) (visibleUsers c) in
  if narrow then mappedUsers else firstn 5 mappedUsers.
End Display.

End Mobile.

(** * The settings-driven revision *)

Module Settings.

Record User := mkUser {
  userId : string;
  userName : string;
  userPhotoUrl : string;
  state : string;
  lastSeen : Z;
  hasDraft : bool
}.

Record Component := mkComponent {
  recordId : option string;
  visibleUsers : list User;
  currentUserId : string;
  currentState : option string;
  lastPublishedDraftStatus : bool;
  hasDrafts : bool;
  isActive : bool;
  settings : ToastSettings;
  isComponentActive : bool;
  presenceExpirationMs : Z
}.

Definition setVisibleUsers (c : Component) (us : list User) : Component :=
  {| recordId := recordId c;
     visibleUsers := us;
     currentUserId := currentUserId c;
     currentState := currentState c;
     lastPublishedDraftStatus := lastPublishedDraftStatus c;
     hasDrafts := hasDrafts c;
     isActive := isActive c;
     settings := settings c;
     isComponentActive := isComponentActive c;
     presenceExpirationMs := presenceExpirationMs c |}.

(** The focus handlers assign [this.isActive]. *)
Definition setIsActive (c : Component) (b : bool) : Component :=
  {| recordId := recordId c;
     visibleUsers := visibleUsers c;
     currentUserId := currentUserId c;
     currentState := currentState c;
     lastPublishedDraftStatus := lastPublishedDraftStatus c;
     hasDrafts := hasDrafts c;
     isActive := b;
     settings := settings c;
     isComponentActive := isComponentActive c;
     presenceExpirationMs := presenceExpirationMs c |}.

Definition eventUser (payload : Payload) : User :=
  {| userId := UserId__c payload;
     userName := UserName__c payload;
     userPhotoUrl := UserPhotoUrl__c payload;
     state := State__c payload;
     lastSeen := Timestamp__c payload;
     hasDraft := HasDraft__c payload |}.

(** [handlePresenceEvent(payload)]; [visible] is
    [document.visibilityState === 'visible']. *)
Definition handlePresenceEvent (c : Component) (visible : bool)
    (payload : Payload) : Component * list Toast :=
  if strictEq (UserId__c payload) (currentUserId c) then (c, [])
  else if negb (sameRecord (CaseId__c payload) (recordId c)) then (c, [])
  else
    let existingUserIndex :=
      findIndex (fun u => strictEq (userId u) (UserId__c payload))
                (visibleUsers c) in
    if strictEq (State__c payload) "gone" then
      match existingUserIndex with
      | Some i =>
          let toasts :=
            match nth_error (visibleUsers c) i with
            | Some user =>
                if isActive c && visible && showLeaveToasts (settings c)
                then [LeaveToast (userName user)] else []
            | None => []
            end in
          (setVisibleUsers c (removeAt i (visibleUsers c)), toasts)
      | None => (c, [])
      end
    else
      let user := eventUser payload in
      match existingUserIndex with
      | Some i =>
          let hadDraft :=
            match nth_error (visibleUsers c) i with
            | Some existingUser => hasDraft existingUser
            | None => false
            end in
          let nowHasDraft := HasDraft__c payload in
          let toasts :=
            if isActive c && visible then
              if negb hadDraft && nowHasDraft
                 && showEditStartToasts (settings c)
              then [EditingToast (userName user)]
              else if hadDraft && negb nowHasDraft
                      && showEditStopToasts (settings c)
              then [StoppedEditingToast (userName user)]
              else []
            else [] in
          (setVisibleUsers c (replaceAt i user (visibleUsers c)), toasts)
      | None =>
          (setVisibleUsers c (visibleUsers c ++ [user]),
           if isActive c && visible && showJoinToasts (settings c)
           then [JoinToast (userName user)] else [])
      end.

(** [filterExpiredUsers()]; [now] is [Date.now()]. *)
Definition filterExpiredUsers (now : Z) (c : Component) : Component :=
  setVisibleUsers c
    (filter (fun user =>
               let age := now - lastSeen user in
               age <? presenceExpirationMs c)
            (visibleUsers c)).

(** The argument of a [publishPresence] call; [callType] is always
    'heartbeat' here. *)
Record Published := mkPublished {
  pubCaseId : string;
  pubState : string;
  pubHasDraft : bool
}.

(** [publishStateChange(newState)].  The state and draft status are
    recorded before the transport is called, and a failure of the
    transport is only logged. *)
Definition publishStateChange (c : Component) (newState : string)
    : Component * option Published :=
  match recordId c with
  | None => (c, None)
  | Some caseId =>
      if negb (isComponentActive c) then (c, None)
      else if match currentState c with
              | Some s => strictEq newState s
              | None => false
              end
              && Bool.eqb (lastPublishedDraftStatus c) (hasDrafts c)
      then (c, None)
      else
        ({| recordId := recordId c;
            visibleUsers := visibleUsers c;
            currentUserId := currentUserId c;
            currentState := Some newState;
            lastPublishedDraftStatus := hasDrafts c;
            hasDrafts := hasDrafts c;
            isActive := isActive c;
            settings := settings c;
            isComponentActive := isComponentActive c;
            presenceExpirationMs := presenceExpirationMs c |},
         Some {| pubCaseId := caseId;
                 pubState := newState;
                 pubHasDraft := hasDrafts c |})
  end.

End Settings.

(** * The revision that echoes the local session *)

Module SessionEcho.

Definition PRESENCE_EXPIRATION_MS : Z := 600000.

Record User := mkUser {
  userId : string;
  userName : string;
  userPhotoUrl : option string;
  state : string;
  sessionId : string;
  lastSeen : Z;
  isActive : bool;
  hasDraft : bool;
  draftAge : option Z
}.

Record Component := mkComponent {
  recordId : option string;
  visibleUsers : list User;
  compSessionId : string;
  currentUserId : string;
  currentUserName : string;
  currentState : option string;
  hasDrafts : bool;
  compIsActive : bool;
  isComponentActive : bool
}.

Definition setVisibleUsers (c : Component) (us : list User) : Component :=
  {| recordId := recordId c;
     visibleUsers := us;
     compSessionId := compSessionId c;
     currentUserId := currentUserId c;
     currentUserName := currentUserName c;
     currentState := currentState c;
     hasDrafts := hasDrafts c;
     compIsActive := compIsActive c;
     isComponentActive := isComponentActive c |}.

Definition setCurrentState (c : Component) (s : string) : Component :=
  {| recordId := recordId c;
     visibleUsers := visibleUsers c;
     compSessionId := compSessionId c;
     currentUserId := currentUserId c;
     currentUserName := currentUserName c;
     currentState := Some s;
     hasDrafts := hasDrafts c;
     compIsActive := compIsActive c;
     isComponentActive := isComponentActive c |}.

Definition eventUser (payload : Payload) : User :=
  {| userId := UserId__c payload;
     userName := UserName__c payload;
     userPhotoUrl := Some (UserPhotoUrl__c payload);
     state := State__c payload;
     sessionId := SessionId__c payload;
     lastSeen := Timestamp__c payload;
     isActive := IsActive__c payload;
     hasDraft := false;
     draftAge := None |}.

(** [handlePresenceEvent(payload)]: records are keyed by user and
    session, and only the local session's own events are ignored. *)
Definition handlePresenceEvent (c : Component) (visible : bool)
    (payload : Payload) : Component * list Toast :=
  if strictEq (UserId__c payload) (currentUserId c)
     && strictEq (SessionId__c payload) (compSessionId c) then (c, [])
  else if negb (sameRecord (CaseId__c payload) (recordId c)) then (c, [])
  else
    let existingUserIndex :=
      findIndex (fun u => strictEq (userId u) (UserId__c payload)
                          && strictEq (sessionId u) (SessionId__c payload))
                (visibleUsers c) in
    if strictEq (State__c payload) "gone" then
      match existingUserIndex with
      | Some i =>
          let toasts :=
            match nth_error (visibleUsers c) i with
            | Some user =>
                if compIsActive c && visible
                then [LeaveToast (userName user)] else []
            | None => []
            end in
          (setVisibleUsers c (removeAt i (visibleUsers c)), toasts)
      | None => (c, [])
      end
    else
      let user := eventUser payload in
      match existingUserIndex with
      | Some i =>
          (setVisibleUsers c (replaceAt i user (visibleUsers c)), [])
      | None =>
          (setVisibleUsers c (visibleUsers c ++ [user]),
           if compIsActive c && visible
           then [JoinToast (userName user)] else [])
      end.

(** [updateOwnPresence(state)]; [now] is [new Date()]. *)
Definition updateOwnPresence (now : Z) (c : Component) (st : string)
    : Component :=
  let existingIndex :=
    findIndex (fun u => strictEq (userId u) (currentUserId c)
                        && strictEq (sessionId u) (compSessionId c))
              (visibleUsers c) in
  let ownUser :=
    {| userId := currentUserId c;
       userName := currentUserName c ++ " (you)";
       userPhotoUrl := None;
       state := st;
       sessionId := compSessionId c;
       lastSeen := now;
       isActive := compIsActive c;
       hasDraft := hasDrafts c;
       draftAge := None |} in
  match existingIndex with
  | Some i => setVisibleUsers c (replaceAt i ownUser (visibleUsers c))
  | None => setVisibleUsers c (visibleUsers c ++ [ownUser])
  end.

(** [filterExpiredUsers()]; [now] is [Date.now()]. *)
Definition filterExpiredUsers (now : Z) (c : Component) : Component :=
  setVisibleUsers c
    (filter (fun user =>
               let age := now - lastSeen user in
               age <? PRESENCE_EXPIRATION_MS)
            (visibleUsers c)).

(** [s.includes(sub)] *)
Fixpoint includes (sub s : string) : bool :=
  if String.prefix sub s then true
  else match s with
       | EmptyString => false
       | String _ r => includes sub r
       end.

Record Published := mkPublished {
  pubCaseId : string;
  pubSessionId : string;
  pubState : string;
  pubIsActive : bool;
  pubCallType : string
}.

(** [publishStateChange(newState)]; [resolved] tells whether the awaited
    [publishPresence] call resolved (the component is taken not to be
    torn down while it is awaited), [now] is the time of the echo. *)
Definition publishStateChange (now : Z) (resolved : bool) (c : Component)
    (newState : string) : Component * option Published :=
  match recordId c with
  | None => (c, None)
  | Some caseId =>
      if negb (isComponentActive c) then (c, None)
      else if match currentState c with
              | Some s => strictEq newState s
              | None => false
              end
      then (c, None)
      else
        let c1 := setCurrentState c newState in
        let msg :=
          {| pubCaseId := caseId;
             pubSessionId := compSessionId c;
             pubState := newState;
             pubIsActive := compIsActive c;
             pubCallType := if includes "draft" newState
                            then "draftCheck" else "heartbeat" |} in
        (if resolved then updateOwnPresence now c1 newState else c1,
         Some msg)
  end.

End SessionEcho.

(** * The session-map revision *)

Module SessionMap.

(** A value of [presenceMap]: one session of one user. *)
Record Presence := mkPresence {
  userId : string;
  sessionId : string;
  userName : string;
  userPhotoUrl : option string;
  state : string;
  isActive : bool;
  timestamp : Z;
  isEditing : bool;
  isDrafting : bool
}.

(** [presenceMap]: a [Map] from the key of a session to its record, in
    insertion order. *)
Definition PresenceMap := list (string * Presence).

(** An element of [visibleUsers]: the merged view of one user. *)
Record VisibleUser := mkVisibleUser {
  vUserId : string;
  vUserName : string;
  vUserPhotoUrl : option string;
  vIsActive : bool;
  vIsEditing : bool;
  vTimestamp : Z;
  style : string;
  timeAgo : string
}.

(** An element of the result of [getRecentDrafts]. *)
Record Draft := mkDraft {
  draftUserId : string;
  draftUserName : string;
  draftUserPhotoUrl : string
}.

(** [getUserStyle(user)] *)
Definition getUserStyle (active editing : bool) : string :=
  let opacity := if active then "1" else "0.5" in
  let border := if editing then "2px solid #0176d3" else "none" in
  "opacity: " ++ opacity ++ "; border: " ++ border ++ "; border-radius: 50%;".

(** [getTimeAgo(user)]; [now] is [new Date()]. *)
Definition getTimeAgo (now ts : Z) : string :=
  let diff := now - ts in
  let minutes := diff / 60000 in
  if minutes <? 1 then "Active now"
  else if minutes <? 60
  then NilZero.string_of_int (Z.to_int minutes) ++ "m ago"
  else NilZero.string_of_int (Z.to_int (minutes / 60)) ++ "h ago".

(** The record added for the first session met of a user. *)
Definition newUser (now : Z) (presence : Presence) : VisibleUser :=
  {| vUserId := userId presence;
     vUserName := userName presence;
     vUserPhotoUrl := userPhotoUrl presence;
     vIsActive := isActive presence;
     vIsEditing := isEditing presence;
     vTimestamp := timestamp presence;
     style := getUserStyle (isActive presence) (isEditing presence);
     timeAgo := getTimeAgo now (timestamp presence) |}.

(** The record after a further session of the same user is merged in. *)
Definition mergeUser (now : Z) (existingUser : VisibleUser)
    (presence : Presence) : VisibleUser :=
  let active := vIsActive existingUser || isActive presence in
  let editing := vIsEditing existingUser || isEditing presence in
  let ts := Z.max (vTimestamp existingUser) (timestamp presence) in
  {| vUserId := vUserId existingUser;
     vUserName := vUserName existingUser;
     vUserPhotoUrl := vUserPhotoUrl existingUser;
     vIsActive := active;
     vIsEditing := editing;
     vTimestamp := ts;
     style := getUserStyle active editing;
     timeAgo := getTimeAgo now ts |}.

(** One turn of the loop over [presenceMap]: [userMap.get] and
    [userMap.set] on the map from user ids to merged records, kept in
    insertion order. *)
Fixpoint mergeInto (now : Z) (presence : Presence)
    (userMap : list VisibleUser) : list VisibleUser :=
  match userMap with
  | [] => [newUser now presence]
  | u :: r =>
      if strictEq (vUserId u) (userId presence)
      then mergeUser now u presence :: r
      else u :: mergeInto now presence r
  end.

(** The comparator of the sort: editing first, then by timestamp. *)
Definition compareUsers (a b : VisibleUser) : Z :=
  if vIsEditing a && negb (vIsEditing b) then -1
  else if negb (vIsEditing a) && vIsEditing b then 1
  else vTimestamp b - vTimestamp a.

(** The loop of [updateVisibleUsers()] over [presenceMap]: the values of
    [userMap], in insertion order.  The clock is read once for the
    call. *)
Definition mergeSessions (now : Z) (currentUserId : string)
    (presenceMap : PresenceMap) : list VisibleUser :=
  fold_left (fun userMap entry =>
               let presence := snd entry in
               if strictEq (userId presence) currentUserId then userMap
               else mergeInto now presence userMap)
            presenceMap [].

(** [updateVisibleUsers()]: the new value of [visibleUsers]. *)
Definition updateVisibleUsers (now : Z) (currentUserId : string)
    (presenceMap : PresenceMap) : list VisibleUser :=
  let users := mergeSessions now currentUserId presenceMap in
  sortBy compareUsers users.

(** The body of the inner loop of [checkForDrafts] for one session. *)
Definition markDraft (draft : Draft) (presence : Presence) : Presence :=
  if strictEq (userId presence) (draftUserId draft) then
    let unnamed := strictEq (userName presence) "" in
    {| userId := userId presence;
       sessionId := sessionId presence;
       userName := if unnamed then draftUserName draft
                   else userName presence;
       userPhotoUrl := if unnamed then Some (draftUserPhotoUrl draft)
                       else userPhotoUrl presence;
       state := state presence;
       isActive := isActive presence;
       timestamp := timestamp presence;
       isEditing := true;
       isDrafting := true |}
  else presence.

(** [checkForDrafts()], given the drafts the query returned: the new
    [presenceMap] and the new [visibleUsers]. *)
Definition checkForDrafts (now : Z) (currentUserId : string)
    (drafts : list Draft) (presenceMap : PresenceMap)
    : PresenceMap * list VisibleUser :=
  let presenceMap' :=
    fold_left (fun pm draft =>
                 map (fun entry => (fst entry, markDraft draft (snd entry)))
                     pm)
              drafts presenceMap in
  (presenceMap', updateVisibleUsers now currentUserId presenceMap').

(** The getter [displayedUsers]. *)
Definition displayedUsers (isMobile : bool) (visibleUsers : list VisibleUser)
    : list VisibleUser :=
  if isMobile then visibleUsers else firstn 5 visibleUsers.

(** The getter [additionalCount]. *)
Definition additionalCount (visibleUsers : list VisibleUser) : nat :=
  if (5 <? List.length visibleUsers)%nat
  then (List.length visibleUsers - 5)%nat else O.

End SessionMap.

(** * Vocabulary of the statements, sample components and events *)

(** An event the handlers do not ignore: sent by another user, for the
    record shown. *)
Definition accepted (currentUserId : string) (recordId : option string)
    (payload : Payload) : Prop :=
  UserId__c payload <> currentUserId /\ recordId = Some (CaseId__c payload).

(** The delivery of an event to a component: the event, with the focus
    state of the local session ([this.isActive], as the focus handlers last
    set it) and the visibility of the host document at that moment. *)
Record Delivery := mkDelivery {
  focus : bool;
  hostVisible : bool;
  event : Payload
}.

(** A component fed a sequence of deliveries: the final component and the
    toasts dispatched, in order. *)
Fixpoint runWith {C : Type} (step : C -> Delivery -> C * list Toast)
    (c : C) (ds : list Delivery) : C * list Toast :=
  match ds with
  | [] => (c, [])
  | d :: r =>
      let (c1, t1) := step c d in
      let (c2, t2) := runWith step c1 r in
      (c2, (t1 ++ t2)%list)
  end.

Definition settingsStep (c : Settings.Component) (d : Delivery)
    : Settings.Component * list Toast :=
  Settings.handlePresenceEvent (Settings.setIsActive c (focus d))
    (hostVisible d) (event d).

Definition mobileStep (c : Mobile.Component) (d : Delivery)
    : Mobile.Component * list Toast :=
  Mobile.handlePresenceEvent (Mobile.setIsActive c (focus d))
    (hostVisible d) (event d).


(** Components that agree on all but [isActive]. *)
Definition settingsSim (c c' : Settings.Component) : Prop :=
  Settings.setIsActive c true = Settings.setIsActive c' true.

Definition mobileSim (c c' : Mobile.Component) : Prop :=
  Mobile.setIsActive c true = Mobile.setIsActive c' true.

(** The gate of the toasts in the settings-driven revision. *)
Definition settingsGate (d : Delivery) : bool := focus d && hostVisible d.

(** Deliveries that bring no event of [user] for the record shown: every
    event of [user] among them is for another record, and is ignored. *)
Definition silentAbout (user : string) (recordId : option string)
    (ds : list Delivery) : Prop :=
  Forall (fun d => UserId__c (event d) = user ->
                   recordId <> Some (CaseId__c (event d))) ds.

(** The order the comparator of [updateVisibleUsers] asks for: an editing
    user before one who is not, and among users alike in that the more
    recent timestamp first. *)
Definition displayOrder (a b : SessionMap.VisibleUser) : Prop :=
  (SessionMap.vIsEditing a = true /\ SessionMap.vIsEditing b = false) \/
  (SessionMap.vIsEditing a = SessionMap.vIsEditing b /\
   SessionMap.vTimestamp b <= SessionMap.vTimestamp a).

(** The users that tie under the comparator: same editing flag, same
    timestamp. *)
Definition tiesWith (editing : bool) (ts : Z) (u : SessionMap.VisibleUser)
    : bool :=
  Bool.eqb (SessionMap.vIsEditing u) editing && (SessionMap.vTimestamp u =? ts).

(** The sessions of a user in [presenceMap]. *)
Definition sessionsOf (user : string) (presenceMap : SessionMap.PresenceMap)
    : list SessionMap.Presence :=
  filter (fun p => strictEq (SessionMap.userId p) user) (map snd presenceMap).

Definition session (user sess : string) (active editing : bool) (ts : Z)
    : string * SessionMap.Presence :=
  (user ++ "-" ++ sess,
   {| SessionMap.userId := user; SessionMap.sessionId := sess;
      SessionMap.userName := user; SessionMap.userPhotoUrl := None;
      SessionMap.state := if editing then "editing" else "viewing";
      SessionMap.isActive := active; SessionMap.timestamp := ts;
      SessionMap.isEditing := editing; SessionMap.isDrafting := false |}).

(** The merged record of a user after further sessions are merged in. *)
Definition mergeAll (now : Z) (e : SessionMap.VisibleUser)
    (ss : list SessionMap.Presence) : SessionMap.VisibleUser :=
  fold_left (SessionMap.mergeUser now) ss e.

(** A session after the loop of [checkForDrafts] over all drafts. *)
Definition markAll (drafts : list SessionMap.Draft) (p : SessionMap.Presence)
    : SessionMap.Presence :=
  fold_left (fun q d => SessionMap.markDraft d q) drafts p.

(** The operations that change the visible list once the component runs:
    the delivery of an event and the periodic sweep. *)
Inductive Op :=
| Ingest (d : Delivery)
| Sweep (now : Z).

Definition settingsApply (c : Settings.Component) (op : Op)
    : Settings.Component :=
  match op with
  | Ingest d => fst (settingsStep c d)
  | Sweep now => Settings.filterExpiredUsers now c
  end.

Definition mobileApply (c : Mobile.Component) (op : Op) : Mobile.Component :=
  match op with
  | Ingest d => fst (mobileStep c d)
  | Sweep now => Mobile.filterExpiredUsers now c
  end.

(** The visible list holds no record of the local user. *)
Definition settingsSelfFree (c : Settings.Component) : Prop :=
  forall u, In u (Settings.visibleUsers c) ->
            Settings.userId u <> Settings.currentUserId c.

Definition mobileSelfFree (c : Mobile.Component) : Prop :=
  forall u, In u (Mobile.visibleUsers c) ->
            Mobile.userId u <> Mobile.currentUserId c.

Definition allToasts : ToastSettings :=
  {| showJoinToasts := true; showLeaveToasts := true;
     showEditStartToasts := true; showEditStopToasts := true |}.

(** An event for the case "500A". *)
Definition eventOf (user st : string) (ts : Z) (draft mobile : bool)
    : Payload :=
  {| CaseId__c := "500A"; UserId__c := user; SessionId__c := "s-" ++ user;
     UserName__c := user; UserPhotoUrl__c := ""; State__c := st;
     Timestamp__c := ts; HasDraft__c := draft; IsMobile__c := mobile;
     IsActive__c := strictEq st "active" |}.

Definition mobileUser (user st : string) (ts : Z) (draft mobile : bool)
    : Mobile.User :=
  {| Mobile.userId := user; Mobile.userName := user;
     Mobile.userPhotoUrl := ""; Mobile.state := st; Mobile.lastSeen := ts;
     Mobile.hasDraft := draft; Mobile.isMobile := mobile |}.

(** A component of the form-factor aware revision on the case "500A",
    run by the user "me", with a ten minute expiration window. *)
Definition mobileComponent (active : bool) (users : list Mobile.User)
    : Mobile.Component :=
  {| Mobile.recordId := Some "500A";
     Mobile.visibleUsers := users;
     Mobile.currentUserId := "me";
     Mobile.currentState := None;
     Mobile.lastPublishedDraftStatus := false;
     Mobile.hasDrafts := false;
     Mobile.isActive := active;
     Mobile.isMobileDevice := false;
     Mobile.settings := allToasts;
     Mobile.isComponentActive := true;
     Mobile.presenceExpirationMs := 600000 |}.

Definition settingsUser (user st : string) (ts : Z) (draft : bool)
    : Settings.User :=
  {| Settings.userId := user; Settings.userName := user;
     Settings.userPhotoUrl := ""; Settings.state := st;
     Settings.lastSeen := ts; Settings.hasDraft := draft |}.

(** The same for the settings-driven revision. *)
Definition settingsComponent (active : bool) (users : list Settings.User)
    : Settings.Component :=
  {| Settings.recordId := Some "500A";
     Settings.visibleUsers := users;
     Settings.currentUserId := "me";
     Settings.currentState := None;
     Settings.lastPublishedDraftStatus := false;
     Settings.hasDrafts := false;
     Settings.isActive := active;
     Settings.settings := allToasts;
     Settings.isComponentActive := true;
     Settings.presenceExpirationMs := 600000 |}.


Definition echoUser (user session st : string) (ts : Z) (active : bool)
    : SessionEcho.User :=
  {| SessionEcho.userId := user; SessionEcho.userName := user;
     SessionEcho.userPhotoUrl := Some ""; SessionEcho.state := st;
     SessionEcho.sessionId := session; SessionEcho.lastSeen := ts;
     SessionEcho.isActive := active; SessionEcho.hasDraft := false;
     SessionEcho.draftAge := None |}.

(** A component of the revision that echoes the local session, run by the
    user "me" in the session "s-me". *)
Definition echoComponent (st : option string) (users : list SessionEcho.User)
    : SessionEcho.Component :=
  {| SessionEcho.recordId := Some "500A";
     SessionEcho.visibleUsers := users;
     SessionEcho.compSessionId := "s-me";
     SessionEcho.currentUserId := "me";
     SessionEcho.currentUserName := "Me";
     SessionEcho.currentState := st;
     SessionEcho.hasDrafts := false;
     SessionEcho.compIsActive := true;
     SessionEcho.isComponentActive := true |}.

Definition noBadges : Mobile.Badges :=
  {| Mobile.parsedVipUsers := []; Mobile.parsedKeyUsers := [];
     Mobile.parsedNormalUsers := []; Mobile.vipBadge := "";
     Mobile.keyBadge := ""; Mobile.normalBadge := "" |}.

(** * Further operations of the revisions *)

(** ** [Map] operations on a map kept in insertion order *)

Section InsertionOrderedMap.
Context {V : Type}.

(** [Map.prototype.get]; [None] stands for [undefined]. *)
Fixpoint mapGet (k : string) (m : list (string * V)) : option V :=
  match m with
  | [] => None
  | (k', v) :: r => if strictEq k' k then Some v else mapGet k r
  end.

(** [Map.prototype.set]: the value of a present key is replaced where it
    stands, a new key enters at the end. *)
Fixpoint mapSet (k : string) (v : V) (m : list (string * V))
    : list (string * V) :=
  match m with
  | [] => [(k, v)]
  | (k', v') :: r =>
      if strictEq k' k then (k', v) :: r else (k', v') :: mapSet k v r
  end.

(** [Map.prototype.delete] *)
Fixpoint mapDelete (k : string) (m : list (string * V)) : list (string * V) :=
  match m with
  | [] => []
  | (k', v') :: r =>
      if strictEq k' k then r else (k', v') :: mapDelete k r
  end.
End InsertionOrderedMap.

(** ** The ledger of the session-map revision *)

Module Ledger.

Record Component := mkComponent {
  recordId : option string;
  presenceMap : SessionMap.PresenceMap;
  visibleUsers : list SessionMap.VisibleUser;
  ownSessionId : string;
  currentUserId : string;
  settings : ToastSettings;
  presenceExpirationMinutes : Z
}.

Definition setPresence (c : Component) (pm : SessionMap.PresenceMap)
    (vs : list SessionMap.VisibleUser) : Component :=
  {| recordId := recordId c;
     presenceMap := pm;
     visibleUsers := vs;
     ownSessionId := ownSessionId c;
     currentUserId := currentUserId c;
     settings := settings c;
     presenceExpirationMinutes := presenceExpirationMinutes c |}.

(** The key of a session in [presenceMap]. *)
Definition sessionKey (userId sessionId : string) : string :=
  userId ++ "-" ++ sessionId.

(** [showGoneToast(userId, userName)]: the messages shown. *)
Definition showGoneToast (c : Component) (userId userName : string)
    : list string :=
  if strictEq userId (currentUserId c) then []
  else if negb (showLeaveToasts (settings c)) then []
  else [(if strictEq userName "" then "Someone" else userName)
        ++ " is no longer viewing this case"].

(** [showPresenceToast(userId, state, isNewUser, wasEditing, userName)] *)
Definition showPresenceToast (c : Component) (userId st : string)
    (isNewUser wasEditing : bool) (userName : string) : list string :=
  if strictEq userId (currentUserId c) then []
  else if isNewUser && showJoinToasts (settings c)
  then [userName ++ " is now viewing this case"]
  else if strictEq st "editing" && negb wasEditing
          && showEditStartToasts (settings c)
  then [userName ++ " started editing"]
  else if strictEq st "viewing" && wasEditing
          && showEditStopToasts (settings c)
  then [userName ++ " stopped editing"]
  else [].

(** [handlePresenceEvent(payload)] for a payload that is present; [now] is
    the clock read by [updateVisibleUsers].  The result is the new component
    and the messages of the toasts shown. *)
Definition handlePresenceEvent (now : Z) (c : Component) (payload : Payload)
    : Component * list string :=
  if negb (sameRecord (CaseId__c payload) (recordId c)) then (c, [])
  else
    let userId := UserId__c payload in
    let sessionId := SessionId__c payload in
    let key := sessionKey userId sessionId in
    if strictEq sessionId (ownSessionId c) then (c, [])
    else if strictEq (State__c payload) "gone" then
      match mapGet key (presenceMap c) with
      | Some existingPresence =>
          let toasts :=
            showGoneToast c userId (SessionMap.userName existingPresence) in
          let pm := mapDelete key (presenceMap c) in
          (setPresence c pm
             (SessionMap.updateVisibleUsers now (currentUserId c) pm),
           toasts)
      | None => (c, [])
      end
    else
      let existingPresence := mapGet key (presenceMap c) in
      let isNewUser :=
        match existingPresence with Some _ => false | None => true end in
      let wasEditing :=
        match existingPresence with
        | Some e => SessionMap.isEditing e
        | None => false
        end in
      let knownName :=
        match existingPresence with
        | Some e => SessionMap.userName e
        | None => ""
        end in
      let userName :=
        if strictEq knownName "" then "User " ++ substring 0 8 userId
        else knownName in
      let userPhotoUrl :=
        match existingPresence with
        | Some e => SessionMap.userPhotoUrl e
        | None => None
        end in
      let pm :=
        mapSet key
          {| SessionMap.userId := userId;
             SessionMap.sessionId := sessionId;
             SessionMap.userName := userName;
             SessionMap.userPhotoUrl := userPhotoUrl;
             SessionMap.state := State__c payload;
             SessionMap.isActive := IsActive__c payload;
             SessionMap.timestamp := Timestamp__c payload;
             SessionMap.isEditing :=
               strictEq (State__c payload) "editing"
               || strictEq (State__c payload) "drafting";
             SessionMap.isDrafting := false |}
          (presenceMap c) in
      let toasts :=
        showPresenceToast c userId (State__c payload) isNewUser wasEditing
          userName in
      (setPresence c pm
         (SessionMap.updateVisibleUsers now (currentUserId c) pm),
       toasts).

(** The loop of [cleanupStalePresence] that fills [removedUsers]: the
    users of the stale sessions, each once, with the name of the first
    stale session met. *)
Fixpoint removedUsers (cutoffTime : Z) (pm : SessionMap.PresenceMap)
    (seen : list (string * string)) : list (string * string) :=
  match pm with
  | [] => seen
  | (_, presence) :: r =>
      if SessionMap.timestamp presence <? cutoffTime then
        removedUsers cutoffTime r
          (match mapGet (SessionMap.userId presence) seen with
           | Some _ => seen
           | None => seen ++ [(SessionMap.userId presence,
                               SessionMap.userName presence)]
           end)
      else removedUsers cutoffTime r seen
  end.

(** [cleanupStalePresence()]; [now] is [Date.now()]. *)
Definition cleanupStalePresence (now : Z) (c : Component)
    : Component * list string :=
  let expirationMs := presenceExpirationMinutes c * 60 * 1000 in
  let cutoffTime := now - expirationMs in
  let pm :=
    filter (fun entry => negb (SessionMap.timestamp (snd entry) <? cutoffTime))
           (presenceMap c) in
  let hasChanges :=
    existsb (fun entry => SessionMap.timestamp (snd entry) <? cutoffTime)
            (presenceMap c) in
  let toasts :=
    flat_map (fun ru => showGoneToast c (fst ru) (snd ru))
             (removedUsers cutoffTime (presenceMap c) []) in
  (if hasChanges
   then setPresence c pm
          (SessionMap.updateVisibleUsers now (currentUserId c) pm)
   else c,
   toasts).

(** [checkForDrafts()] on the component, given the drafts returned. *)
Definition checkForDrafts (now : Z) (c : Component)
    (drafts : list SessionMap.Draft) : Component :=
  let r := SessionMap.checkForDrafts now (currentUserId c) drafts
             (presenceMap c) in
  setPresence c (fst r) (snd r).

End Ledger.

(** The operations on the ledger once the component runs, each with the
    clock it reads: the delivery of an event, the periodic clean-up, and a
    draft check with the drafts returned. *)
Inductive LedgerOp :=
| LEvent (now : Z) (payload : Payload)
| LCleanup (now : Z)
| LDrafts (now : Z) (drafts : list SessionMap.Draft).

Definition ledgerApply (c : Ledger.Component) (op : LedgerOp)
    : Ledger.Component :=
  match op with
  | LEvent now payload => fst (Ledger.handlePresenceEvent now c payload)
  | LCleanup now => fst (Ledger.cleanupStalePresence now c)
  | LDrafts now drafts => Ledger.checkForDrafts now c drafts
  end.

(** Well-formed ledgers: distinct keys, each the key of its session; no
    session of the component's own; no empty user name. *)
Definition ledgerWf (c : Ledger.Component) : Prop :=
  NoDup (map fst (Ledger.presenceMap c)) /\
  forall k p, In (k, p) (Ledger.presenceMap c) ->
    k = Ledger.sessionKey (SessionMap.userId p) (SessionMap.sessionId p) /\
    SessionMap.sessionId p <> Ledger.ownSessionId c /\
    SessionMap.userName p <> "".

(** The visible list is the merge of the presence map, at some reading of
    the clock. *)
Definition ledgerSynced (c : Ledger.Component) : Prop :=
  exists now,
    Ledger.visibleUsers c =
    SessionMap.updateVisibleUsers now (Ledger.currentUserId c)
      (Ledger.presenceMap c).

(** A component of the session-map revision for the case "500A", run by
    the user "me" in the session "s-me", with a ten minute expiration. *)
Definition ledgerComponent (pm : SessionMap.PresenceMap) : Ledger.Component :=
  {| Ledger.recordId := Some "500A";
     Ledger.presenceMap := pm;
     Ledger.visibleUsers := SessionMap.updateVisibleUsers 0 "me" pm;
     Ledger.ownSessionId := "s-me";
     Ledger.currentUserId := "me";
     Ledger.settings := allToasts;
     Ledger.presenceExpirationMinutes := 10 |}.

(** An event of the session [sess] of [user] for the case "500A". *)
Definition sessionEvent (user sess st : string) (active : bool) (ts : Z)
    : Payload :=
  {| CaseId__c := "500A"; UserId__c := user; SessionId__c := sess;
     UserName__c := "Name of " ++ user; UserPhotoUrl__c := "";
     State__c := st; Timestamp__c := ts; HasDraft__c := false;
     IsMobile__c := false; IsActive__c := active |}.

(** A session marked by a draft check: only the two draft flags change. *)
Definition flagEditing (b : bool) (p : SessionMap.Presence)
    : SessionMap.Presence :=
  if b then
    {| SessionMap.userId := SessionMap.userId p;
       SessionMap.sessionId := SessionMap.sessionId p;
       SessionMap.userName := SessionMap.userName p;
       SessionMap.userPhotoUrl := SessionMap.userPhotoUrl p;
       SessionMap.state := SessionMap.state p;
       SessionMap.isActive := SessionMap.isActive p;
       SessionMap.timestamp := SessionMap.timestamp p;
       SessionMap.isEditing := true;
       SessionMap.isDrafting := true |}
  else p.

(** The name given to a session whose name is not known. *)
Definition fallbackName (userId : string) : string :=
  "User " ++ substring 0 8 userId.

(** ** The local session of the settings-driven revision *)

(** The key under which the ledger stores the session of an event. *)
Definition eventKey (payload : Payload) : string :=
  Ledger.sessionKey (UserId__c payload) (SessionId__c payload).

(** The operation delivers an event for the record shown whose session has
    the key [key]. *)
Definition eventFor (recordId : option string) (key : string) (op : LedgerOp)
    : bool :=
  match op with
  | LEvent _ payload =>
      sameRecord (CaseId__c payload) recordId
      && strictEq (eventKey payload) key
  | _ => false
  end.

(** The operation is a draft check that returned a draft of [user]. *)
Definition draftFound (user : string) (op : LedgerOp) : bool :=
  match op with
  | LDrafts _ drafts =>
      existsb (fun d => strictEq user (SessionMap.draftUserId d)) drafts
  | _ => false
  end.

(** What the ledger holds under [key], if anything: a session of [user]
    with the given activity flag, timestamp and editing flag. *)
Definition storedAs (c : Ledger.Component) (key user : string)
    (active : bool) (ts : Z) (editing : bool) : Prop :=
  forall p, In (key, p) (Ledger.presenceMap c) ->
    SessionMap.userId p = user /\
    SessionMap.isActive p = active /\
    SessionMap.timestamp p = ts /\
    SessionMap.isEditing p = editing.

(** The publications of a step: none or one. *)
Definition published {A : Type} (o : option A) : list A :=
  match o with
  | Some x => [x]
  | None => []
  end.

Module SettingsLocal.

Definition setHasDrafts (c : Settings.Component) (b : bool)
    : Settings.Component :=
  {| Settings.recordId := Settings.recordId c;
     Settings.visibleUsers := Settings.visibleUsers c;
     Settings.currentUserId := Settings.currentUserId c;
     Settings.currentState := Settings.currentState c;
     Settings.lastPublishedDraftStatus := Settings.lastPublishedDraftStatus c;
     Settings.hasDrafts := b;
     Settings.isActive := Settings.isActive c;
     Settings.settings := Settings.settings c;
     Settings.isComponentActive := Settings.isComponentActive c;
     Settings.presenceExpirationMs := Settings.presenceExpirationMs c |}.

(** [checkDrafts()]; [drafts] is the outcome of the query [getAllDrafts]:
    the users of the drafts returned, or [None] when the query failed.  The
    component is taken not to be torn down while the query is awaited. *)
Definition checkDrafts (c : Settings.Component)
    (drafts : option (list string))
    : Settings.Component * list Settings.Published :=
  match Settings.recordId c with
  | None => (c, [])
  | Some _ =>
      if negb (Settings.isComponentActive c) then (c, [])
      else
        match drafts with
        | None => (c, [])
        | Some ds =>
            let oldHasDrafts := Settings.hasDrafts c in
            let c1 :=
              setHasDrafts c
                (existsb (fun d => strictEq d (Settings.currentUserId c)) ds) in
            if Bool.eqb oldHasDrafts (Settings.hasDrafts c1) then (c1, [])
            else
              let r := Settings.publishStateChange c1
                         (if Settings.isActive c1 then "active" else "idle") in
              (fst r, published (snd r))
        end
  end.

(** The callback of the heartbeat timer. *)
Definition heartbeatTick (c : Settings.Component)
    : Settings.Component * list Settings.Published :=
  let currentState := if Settings.isActive c then "active" else "idle" in
  if Settings.isActive c
     && match Settings.recordId c with Some _ => true | None => false end
  then let r := Settings.publishStateChange c currentState in
       (fst r, published (snd r))
  else (c, []).

(** The callback of the draft timer. *)
Definition draftTick (c : Settings.Component) (drafts : option (list string))
    : Settings.Component * list Settings.Published :=
  if negb (Settings.isActive c)
     || match Settings.recordId c with Some _ => false | None => true end
  then (c, [])
  else checkDrafts c drafts.

(** [handleTabFocus()], with the outcome of the draft check it starts. *)
Definition handleTabFocus (c : Settings.Component)
    (drafts : option (list string))
    : Settings.Component * list Settings.Published :=
  let c1 := Settings.setIsActive c true in
  let r1 := Settings.publishStateChange c1 "active" in
  let r2 := checkDrafts (fst r1) drafts in
  (fst r2, (published (snd r1) ++ snd r2)%list).

(** [handleTabBlur()] and [handleWorkspaceTabSwitch()], with the outcome
    of the final draft check. *)
Definition handleTabBlur (c : Settings.Component)
    (drafts : option (list string))
    : Settings.Component * list Settings.Published :=
  let r1 := checkDrafts c drafts in
  let c2 := Settings.setIsActive (fst r1) false in
  let r2 := Settings.publishStateChange c2 "idle" in
  (fst r2, (snd r1 ++ published (snd r2))%list).

End SettingsLocal.

(** The steps of the local session. *)
Inductive LocalOp :=
| Heartbeat
| DraftTimer (drafts : option (list string))
| TabFocus (drafts : option (list string))
| TabBlur (drafts : option (list string)).

Definition settingsLocal (c : Settings.Component) (op : LocalOp)
    : Settings.Component * list Settings.Published :=
  match op with
  | Heartbeat => SettingsLocal.heartbeatTick c
  | DraftTimer drafts => SettingsLocal.draftTick c drafts
  | TabFocus drafts => SettingsLocal.handleTabFocus c drafts
  | TabBlur drafts => SettingsLocal.handleTabBlur c drafts
  end.

(** A component taken through a sequence of steps: the final component
    and the publications, in order. *)
Fixpoint localRun {C P Op : Type} (step : C -> Op -> C * list P) (c : C)
    (ops : list Op) : C * list P :=
  match ops with
  | [] => (c, [])
  | op :: r =>
      let (c1, p1) := step c op in
      let (c2, p2) := localRun step c1 r in
      (c2, (p1 ++ p2)%list)
  end.

(** No two neighbours of a list are equal. *)
Fixpoint neighboursDiffer {A : Type} (l : list A) : Prop :=
  match l with
  | x :: ((y :: _) as r) => x <> y /\ neighboursDiffer r
  | _ => True
  end.

(** The last publication attempted says what the component is now. *)
Definition settingsUpToDate (c : Settings.Component) : Prop :=
  Settings.currentState c
    = Some (if Settings.isActive c then "active" else "idle") /\
  Settings.lastPublishedDraftStatus c = Settings.hasDrafts c.

(** What a component records of its last publication, and the same
    read off a publication. *)
Definition settingsRecorded (c : Settings.Component)
    : option string * option string * bool :=
  (Settings.recordId c, Settings.currentState c,
   Settings.lastPublishedDraftStatus c).

Definition publishedKey (m : Settings.Published)
    : option string * option string * bool :=
  (Some (Settings.pubCaseId m), Some (Settings.pubState m),
   Settings.pubHasDraft m).

(** A component that shows a record and is not torn down. *)
Definition settingsReady (c : Settings.Component) : Prop :=
  (exists caseId, Settings.recordId c = Some caseId) /\
  Settings.isComponentActive c = true.

(** A step that took the component from [c] to [c'] with the publications
    [ms]: the chain of what was recorded before and what was published has
    no equal neighbours, and [c'] records the last of it. *)
Definition settingsChain (c : Settings.Component)
    (ms : list Settings.Published) (c' : Settings.Component) : Prop :=
  neighboursDiffer (settingsRecorded c :: map publishedKey ms) /\
  settingsRecorded c' = last (map publishedKey ms) (settingsRecorded c).

(** ** The local session of the form-factor aware revision *)

Module MobileLocal.

Definition setHasDrafts (c : Mobile.Component) (b : bool) : Mobile.Component :=
  {| Mobile.recordId := Mobile.recordId c;
     Mobile.visibleUsers := Mobile.visibleUsers c;
     Mobile.currentUserId := Mobile.currentUserId c;
     Mobile.currentState := Mobile.currentState c;
     Mobile.lastPublishedDraftStatus := Mobile.lastPublishedDraftStatus c;
     Mobile.hasDrafts := b;
     Mobile.isActive := Mobile.isActive c;
     Mobile.isMobileDevice := Mobile.isMobileDevice c;
     Mobile.settings := Mobile.settings c;
     Mobile.isComponentActive := Mobile.isComponentActive c;
     Mobile.presenceExpirationMs := Mobile.presenceExpirationMs c |}.

(** [checkDrafts()]; [drafts] is the outcome of the query, as in the
    settings-driven revision. *)
Definition checkDrafts (c : Mobile.Component) (drafts : option (list string))
    : Mobile.Component * list Mobile.Published :=
  match Mobile.recordId c with
  | None => (c, [])
  | Some _ =>
      if negb (Mobile.isComponentActive c) then (c, [])
      else
        match drafts with
        | None => (c, [])
        | Some ds =>
            let hasMyDrafts :=
              existsb (fun d => strictEq d (Mobile.currentUserId c)) ds in
            let oldHasDrafts := Mobile.hasDrafts c in
            let c1 := setHasDrafts c hasMyDrafts in
            if Bool.eqb oldHasDrafts (Mobile.hasDrafts c1) then (c1, [])
            else
              let r := Mobile.publishStateChange c1
                         (if Mobile.isActive c1 then "active" else "idle") in
              (fst r, published (snd r))
        end
  end.

(** What [checkVisibility] reads of the host and of the component:
    [document.visibilityState === 'visible'], [document.hasFocus()],
    [this.isIntersecting], [this.ignoreVisibility], and whether the host
    element has a width or a height. *)
Record Signals := mkSignals {
  isTabVisible : bool;
  isWindowFocused : bool;
  isIntersecting : bool;
  ignoreVisibility : bool;
  isOnActiveTab : bool
}.

Definition shouldBeActive (s : Signals) : bool :=
  let isComponentVisible :=
    isIntersecting s || (ignoreVisibility s && isOnActiveTab s) in
  isTabVisible s && isWindowFocused s && isComponentVisible.

(** [handleBecomeActive()], with the outcome of the draft check that
    [startDraftChecking] starts. *)
Definition handleBecomeActive (c : Mobile.Component)
    (drafts : option (list string))
    : Mobile.Component * list Mobile.Published :=
  if Mobile.isActive c then (c, [])
  else
    let c1 := Mobile.setIsActive c true in
    let r1 := Mobile.publishStateChange c1 "active" in
    let r2 := checkDrafts (fst r1) drafts in
    (fst r2, (published (snd r1) ++ snd r2)%list).

(** [handleBecomeIdle()], with the outcome of its final draft check. *)
Definition handleBecomeIdle (c : Mobile.Component)
    (drafts : option (list string))
    : Mobile.Component * list Mobile.Published :=
  if negb (Mobile.isActive c) then (c, [])
  else
    let c1 := Mobile.setIsActive c false in
    let r1 := Mobile.publishStateChange c1 "idle" in
    let r2 := checkDrafts (fst r1) drafts in
    (fst r2, (published (snd r1) ++ snd r2)%list).

(** [checkVisibility()] *)
Definition checkVisibility (c : Mobile.Component) (s : Signals)
    (drafts : option (list string))
    : Mobile.Component * list Mobile.Published :=
  if Bool.eqb (Mobile.isActive c) (shouldBeActive s) then (c, [])
  else if shouldBeActive s then handleBecomeActive c drafts
  else handleBecomeIdle c drafts.

(** The callback of the heartbeat timer. *)
Definition heartbeatTick (c : Mobile.Component)
    : Mobile.Component * list Mobile.Published :=
  if Mobile.isActive c
     && match Mobile.recordId c with Some _ => true | None => false end
  then let r := Mobile.publishStateChange c "active" in
       (fst r, published (snd r))
  else (c, []).

End MobileLocal.

(** The publication of a state and a draft status by a component of the
    form-factor aware revision. *)
Definition mobileMessage (c : Mobile.Component) (caseId st : string)
    (draft : bool) : Mobile.Published :=
  {| Mobile.pubCaseId := caseId; Mobile.pubState := st;
     Mobile.pubHasDraft := draft;
     Mobile.pubIsMobile := Mobile.isMobileDevice c |}.

(** ** Further getters of the form-factor aware revision *)

Module MobileDisplay.

(** The getter [additionalCount]. *)
Definition additionalCount (c : Mobile.Component) : nat :=
  if (5 <? List.length (Mobile.visibleUsers c))%nat
  then (List.length (Mobile.visibleUsers c) - 5)%nat else O.

(** The getter [showAdditionalCount]; [narrow] is the media query of the
    getter [isMobile]. *)
Definition showAdditionalCount (narrow : bool) (c : Mobile.Component) : bool :=
  negb narrow && (5 <? List.length (Mobile.visibleUsers c))%nat.

End MobileDisplay.

(** ** Draft data in the revision that echoes the local session *)

Module EchoDrafts.

(** An element of the result of [getAllDrafts]. *)
Record Draft := mkDraft {
  draftUserId : string;
  createdDate : Z
}.

Definition FIVE_MINUTES : Z := 5 * 60 * 1000.

(** An element of the result of [mergeDraftData]: the record of the user
    with its draft fields set, and the property [draftAgeMinutes]. *)
Record Merged := mkMerged {
  user : SessionEcho.User;
  draftAgeMinutes : option Z
}.

(** [mergeDraftData(presenceUsers, drafts)]; [now] is [Date.now()]. *)
Definition mergeDraftData (now : Z) (presenceUsers : list SessionEcho.User)
    (drafts : list Draft) : list Merged :=
  map (fun u =>
         let userDrafts :=
           filter (fun d => strictEq (draftUserId d) (SessionEcho.userId u))
                  drafts in
         let age :=
           match userDrafts with
           | d :: _ => Some (now - createdDate d)
           | [] => None
           end in
         let fresh :=
           match age with
           | Some a => a <? FIVE_MINUTES
           | None => false
           end in
         {| user :=
              {| SessionEcho.userId := SessionEcho.userId u;
                 SessionEcho.userName := SessionEcho.userName u;
                 SessionEcho.userPhotoUrl := SessionEcho.userPhotoUrl u;
                 SessionEcho.state := SessionEcho.state u;
                 SessionEcho.sessionId := SessionEcho.sessionId u;
                 SessionEcho.lastSeen := SessionEcho.lastSeen u;
                 SessionEcho.isActive := SessionEcho.isActive u;
                 SessionEcho.hasDraft := fresh;
                 SessionEcho.draftAge := age |};
            draftAgeMinutes :=
              match age with
              | Some a => if a =? 0 then None else Some (a / 60000)
              | None => None
              end |})
      presenceUsers.

End EchoDrafts.

(** ** The trigger on the platform event *)

Module CounterTrigger.

(** A [Case_Presence__e] event as the trigger reads it; [Timestamp__c] may
    be null. *)
Record Event := mkEvent {
  evCaseId : string;
  evUserId : string;
  evState : string;
  evHasDraft : bool;
  evTimestamp : option Z;
  evUserName : string;
  evCaseNumber : string;
  evCallType : string
}.

Record Log := mkLog {
  Case_Id__c : string;
  User_Id__c : string;
  Log_State__c : string;
  Has_Draft__c : bool;
  Last_Updated__c : Z;
  User_Name__c : string;
  Case_Number__c : string
}.

Definition logKey (e : Event) : string := evCaseId e ++ "_" ++ evUserId e.

(** The log built for an event; [sysNow] is [System.now()]. *)
Definition logOf (sysNow : Z) (e : Event) : Log :=
  {| Case_Id__c := evCaseId e;
     User_Id__c := evUserId e;
     Log_State__c := evState e;
     Has_Draft__c := evHasDraft e;
     Last_Updated__c := match evTimestamp e with
                        | Some t => t
                        | None => sysNow
                        end;
     User_Name__c := evUserName e;
     Case_Number__c := evCaseNumber e |}.

Section Trigger.
(** The comparison [==] of the language of the trigger on strings. *)
Variable apexEq : string -> string -> bool.

(** The counters after the loop over [Trigger.new]. *)
Fixpoint countCalls (events : list Event) (heartbeatCount draftCheckCount : nat)
    : nat * nat :=
  match events with
  | [] => (heartbeatCount, draftCheckCount)
  | e :: r =>
      if apexEq (evCallType e) "heartbeat"
      then countCalls r (S heartbeatCount) draftCheckCount
      else if apexEq (evCallType e) "draftCheck"
      then countCalls r heartbeatCount (S draftCheckCount)
      else countCalls r heartbeatCount draftCheckCount
  end.

(** [logsToUpsert] after the loop. *)
Definition logsToUpsert (sysNow : Z) (events : list Event)
    : list (string * Log) :=
  fold_left (fun logs e => mapSet (logKey e) (logOf sysNow e) logs) events [].

(** The trigger: the logs passed to [upsertPresenceLogs] (none when the
    call is skipped) and the counts passed to [incrementCountersAsync]
    ([None] when the call is skipped). *)
Definition run (sysNow : Z) (events : list Event)
    : list Log * option (nat * nat) :=
  let counts := countCalls events O O in
  (map snd (logsToUpsert sysNow events),
   if ((0 <? fst counts) || (0 <? snd counts))%nat then Some counts else None).
End Trigger.

End CounterTrigger.

(** The identity of a record of the revision that echoes the local
    session, and what an event delivers for it. *)
Definition echoIdentity (u : SessionEcho.User)
    : string * string * string * option string * string * Z * bool :=
  (SessionEcho.userId u, SessionEcho.sessionId u, SessionEcho.userName u,
   SessionEcho.userPhotoUrl u, SessionEcho.state u, SessionEcho.lastSeen u,
   SessionEcho.isActive u).

(** The first draft of a user in the result of the query. *)
Definition firstDraftOf (userId : string) (drafts : list EchoDrafts.Draft)
    : option EchoDrafts.Draft :=
  find (fun d => strictEq (EchoDrafts.draftUserId d) userId) drafts.

(** ** The local session of the revision that echoes it *)

Module EchoLocal.

Definition setCompIsActive (c : SessionEcho.Component) (b : bool)
    : SessionEcho.Component :=
  {| SessionEcho.recordId := SessionEcho.recordId c;
     SessionEcho.visibleUsers := SessionEcho.visibleUsers c;
     SessionEcho.compSessionId := SessionEcho.compSessionId c;
     SessionEcho.currentUserId := SessionEcho.currentUserId c;
     SessionEcho.currentUserName := SessionEcho.currentUserName c;
     SessionEcho.currentState := SessionEcho.currentState c;
     SessionEcho.hasDrafts := SessionEcho.hasDrafts c;
     SessionEcho.compIsActive := b;
     SessionEcho.isComponentActive := SessionEcho.isComponentActive c |}.

(** [handleTabBlur()]; [now] and [resolved] as for
    [publishStateChange]. *)
Definition handleTabBlur (now : Z) (resolved : bool)
    (c : SessionEcho.Component)
    : SessionEcho.Component * option SessionEcho.Published :=
  let c1 := setCompIsActive c false in
  let newState := if SessionEcho.hasDrafts c1 then "drafting" else "idle" in
  SessionEcho.publishStateChange now resolved c1 newState.

End EchoLocal.

(** * Properties *)

Open Scope list_scope.

(** ** The array operations *)

Section ArrayFacts.
Context {A : Type}.
Variable p : A -> bool.

Lemma findIndex_None (l : list A) :
  findIndex p l = None <-> (forall x, In x l -> p x = false).
Proof.
  induction l as [|a l IH]; simpl.
  - split; [intros _ x []|reflexivity].
  - destruct (p a) eqn:Ea.
    + split; [discriminate|].
      intros H. rewrite (H a (or_introl eq_refl)) in Ea. discriminate.
    + destruct (findIndex p l) as [j|]; simpl.
      * split; [discriminate|].
        intros H. exfalso.
        assert (Hn : Some j = None); [|discriminate].
        apply (proj2 IH). intros x Hx. apply H. now right.
      * split; [|reflexivity].
        intros _ x [<-|Hx]; [assumption|]. now apply (proj1 IH).
Qed.

(** Where [findIndex] answers [i], the array splits around its first
    element that satisfies [p]. *)
Lemma findIndex_Some (l : list A) (i : nat) :
  findIndex p l = Some i ->
  exists l1 x0 l2,
    l = l1 ++ x0 :: l2 /\ List.length l1 = i /\ p x0 = true /\
    (forall y, In y l1 -> p y = false).
Proof.
  revert i. induction l as [|a l IH]; simpl; intros i H; [discriminate|].
  destruct (p a) eqn:Ea.
  - injection H as <-. exists [], a, l. repeat split; auto. intros y [].
  - destruct (findIndex p l) as [j|]; simpl in H; [|discriminate].
    injection H as <-.
    destruct (IH j eq_refl) as (l1 & x0 & l2 & -> & Hlen & Hp & Hall).
    exists (a :: l1), x0, l2. simpl. repeat split; auto.
    intros y [<-|Hy]; auto.
Qed.

Lemma replaceAt_split (l1 l2 : list A) (x0 x : A) :
  replaceAt (List.length l1) x (l1 ++ x0 :: l2) = l1 ++ x :: l2.
Proof.
  unfold replaceAt. induction l1 as [|a l1 IH]; simpl; [reflexivity|].
  simpl in IH. now rewrite IH.
Qed.

Lemma removeAt_split (l1 l2 : list A) (x0 : A) :
  removeAt (List.length l1) (l1 ++ x0 :: l2) = l1 ++ l2.
Proof. induction l1 as [|a l1 IH]; simpl; [reflexivity|now rewrite IH]. Qed.

Lemma nth_error_split (l1 l2 : list A) (x0 : A) :
  nth_error (l1 ++ x0 :: l2) (List.length l1) = Some x0.
Proof. induction l1 as [|a l1 IH]; simpl; auto. Qed.

(** [Array.prototype.find] meets the replaced element first. *)
Lemma find_split (l1 l2 : list A) (x : A) :
  (forall y, In y l1 -> p y = false) -> p x = true ->
  find p (l1 ++ x :: l2) = Some x.
Proof.
  intros Hall Hx. induction l1 as [|a l1 IH]; simpl.
  - now rewrite Hx.
  - rewrite (Hall a (or_introl eq_refl)). apply IH.
    intros y Hy. apply Hall. now right.
Qed.

Lemma find_app_none (l : list A) (x : A) :
  (forall y, In y l -> p y = false) -> p x = true ->
  find p (l ++ [x]) = Some x.
Proof. intros. now apply find_split. Qed.
End ArrayFacts.

(** Records with pairwise distinct keys: past the first record with a
    given key there is no other. *)
Lemma NoDup_key_split {A : Type} (key : A -> string) (l1 l2 : list A)
    (x0 : A) :
  NoDup (map key (l1 ++ x0 :: l2)) ->
  forall y, In y (l1 ++ l2) -> key y <> key x0.
Proof.
  rewrite map_app. simpl. intros Hnd y Hy Heq.
  apply NoDup_remove_2 in Hnd. apply Hnd.
  rewrite <- map_app, <- Heq. now apply in_map.
Qed.

Lemma strictEq_true (s1 s2 : string) : strictEq s1 s2 = true <-> s1 = s2.
Proof. apply String.eqb_eq. Qed.

Lemma strictEq_false (s1 s2 : string) : strictEq s1 s2 = false <-> s1 <> s2.
Proof. apply String.eqb_neq. Qed.

Lemma sameRecord_true (caseId : string) (r : option string) :
  sameRecord caseId r = true <-> r = Some caseId.
Proof.
  destruct r as [r|]; simpl.
  - rewrite strictEq_true. split; [now intros ->|now intros [= ->]].
  - split; discriminate.
Qed.

(** ** Departures and the expiration sweep of the form-factor aware revision *)

Ltac accept_event H :=
  let Hself := fresh "Hself" in
  let Hcase := fresh "Hcase" in
  destruct H as [Hself Hcase];
  rewrite (proj2 (strictEq_false _ _) Hself);
  rewrite (proj2 (sameRecord_true _ _) Hcase);
  cbn [negb].

(** The handler and the sweep keep the users of the list distinct. *)
Lemma NoDup_map_filter {A : Type} (key : A -> string) (f : A -> bool)
    (l : list A) :
  NoDup (map key l) -> NoDup (map key (filter f l)).
Proof.
  induction l as [|a l IH]; simpl; intros Hnd; [constructor|].
  inversion Hnd as [|? ? Ha Hl]; subst.
  destruct (f a); simpl; [|auto]. constructor; [|auto].
  intros Hin. apply Ha. apply in_map_iff in Hin.
  destruct Hin as (y & Hy & Hin). apply filter_In in Hin.
  rewrite <- Hy. apply in_map. tauto.
Qed.

Lemma NoDup_map_replace {A : Type} (key : A -> string) (l1 l2 : list A)
    (x0 x : A) :
  key x = key x0 ->
  NoDup (map key (l1 ++ x0 :: l2)) -> NoDup (map key (l1 ++ x :: l2)).
Proof. intros Hk. rewrite !map_app. simpl. now rewrite Hk. Qed.

Lemma NoDup_map_remove {A : Type} (key : A -> string) (l1 l2 : list A)
    (x0 : A) :
  NoDup (map key (l1 ++ x0 :: l2)) -> NoDup (map key (l1 ++ l2)).
Proof. rewrite !map_app. simpl. apply NoDup_remove_1. Qed.

Lemma NoDup_map_append {A : Type} (key : A -> string) (l : list A) (x : A) :
  (forall y, In y l -> key y <> key x) ->
  NoDup (map key l) -> NoDup (map key (l ++ [x])).
Proof.
  intros Hx Hnd. rewrite map_app. simpl. apply NoDup_app; auto.
  - repeat constructor. intros [].
  - intros a Ha [<-|[]]. apply in_map_iff in Ha.
    destruct Ha as (y & Hy & Hin). now apply (Hx y).
Qed.

Lemma mobile_handle_distinct (c : Mobile.Component) (visible : bool)
    (payload : Payload) :
  NoDup (map Mobile.userId (Mobile.visibleUsers c)) ->
  NoDup (map Mobile.userId
           (Mobile.visibleUsers
              (fst (Mobile.handlePresenceEvent c visible payload)))).
Proof.
  intros Hnd. unfold Mobile.handlePresenceEvent.
  destruct (strictEq _ (Mobile.currentUserId c)); [assumption|].
  destruct (negb _); [assumption|].
  destruct (findIndex _ (Mobile.visibleUsers c)) as [i|] eqn:E.
  - destruct (findIndex_Some _ _ _ E) as (l1 & x0 & l2 & Hl & Hlen & Hp & _).
    apply strictEq_true in Hp. rewrite Hl in Hnd.
    destruct (strictEq (State__c payload) "gone");
      [destruct (IsMobile__c payload)|];
      cbn [fst Mobile.setVisibleUsers Mobile.visibleUsers];
      rewrite Hl, <- Hlen, ?replaceAt_split, ?removeAt_split;
      try (now apply (NoDup_map_replace Mobile.userId l1 l2 x0));
      now apply (NoDup_map_remove Mobile.userId l1 l2 x0).
  - assert (Hnew : forall y, In y (Mobile.visibleUsers c) ->
                     Mobile.userId y <> UserId__c payload).
    { intros y Hy. apply strictEq_false. revert y Hy.
      now apply findIndex_None. }
    destruct (strictEq (State__c payload) "gone");
      [destruct (IsMobile__c payload)|];
      cbn [fst Mobile.setVisibleUsers Mobile.visibleUsers];
      try assumption; now apply NoDup_map_append.
Qed.

Lemma mobile_sweep_distinct (now : Z) (c : Mobile.Component) :
  NoDup (map Mobile.userId (Mobile.visibleUsers c)) ->
  NoDup (map Mobile.userId
           (Mobile.visibleUsers (Mobile.filterExpiredUsers now c))).
Proof. apply NoDup_map_filter. Qed.

(** After a 'gone' event of a mobile user the list holds the record
    [goneUser payload] in place of the user's record, or at its end. *)
Lemma mobile_gone_shape (c : Mobile.Component) (visible : bool)
    (payload : Payload) :
  accepted (Mobile.currentUserId c) (Mobile.recordId c) payload ->
  State__c payload = "gone" ->
  IsMobile__c payload = true ->
  NoDup (map Mobile.userId (Mobile.visibleUsers c)) ->
  exists l1 l2,
    Mobile.visibleUsers (fst (Mobile.handlePresenceEvent c visible payload))
      = l1 ++ Mobile.goneUser payload :: l2 /\
    forall y, In y (l1 ++ l2) -> Mobile.userId y <> UserId__c payload.
Proof.
  intros Hacc Hst Hmob Hnd. unfold Mobile.handlePresenceEvent.
  accept_event Hacc. rewrite Hst, Hmob. cbn [strictEq String.eqb].
  change (String.eqb "gone" "gone") with true. cbv iota.
  destruct (findIndex _ (Mobile.visibleUsers c)) as [i|] eqn:E.
  - destruct (findIndex_Some _ _ _ E) as (l1 & x0 & l2 & Hl & Hlen & Hp & _).
    exists l1, l2. cbn [fst Mobile.setVisibleUsers Mobile.visibleUsers].
    rewrite Hl, <- Hlen, replaceAt_split. split; [reflexivity|].
    rewrite Hl in Hnd. apply strictEq_true in Hp. rewrite <- Hp.
    now apply NoDup_key_split.
  - exists (Mobile.visibleUsers c), [].
    cbn [fst Mobile.setVisibleUsers Mobile.visibleUsers].
    split; [reflexivity|]. rewrite app_nil_r. intros y Hy.
    apply strictEq_false. revert y Hy. now apply findIndex_None.
Qed.



(** C10.  A 'gone' event that the handler accepts for a user with no
    record in the list dispatches no toast.  Sent from a mobile device, it
    makes the list one record longer: the new last record carries the user
    id, the name, the photo, the timestamp and the draft flag of the event,
    the state 'gone' and the mobile mark; it is the record found for the
    user, and a sweep keeps it exactly while less than 60 seconds have
    passed since the timestamp of the event.  Sent from a normal device, it
    leaves the component as it was. *)
Theorem gone_for_unknown_user (c : Mobile.Component) (visible : bool)
    (payload : Payload) :
  accepted (Mobile.currentUserId c) (Mobile.recordId c) payload ->
  State__c payload = "gone" ->
  (forall u, In u (Mobile.visibleUsers c) ->
             Mobile.userId u <> UserId__c payload) ->
  let c' := fst (Mobile.handlePresenceEvent c visible payload) in
  let entry :=
    Mobile.mkUser (UserId__c payload) (UserName__c payload)
      (UserPhotoUrl__c payload) "gone" (Timestamp__c payload)
      (HasDraft__c payload) true in
  snd (Mobile.handlePresenceEvent c visible payload) = [] /\
  (IsMobile__c payload = true ->
   Mobile.visibleUsers c' = Mobile.visibleUsers c ++ [entry] /\
   find (fun u => strictEq (Mobile.userId u) (UserId__c payload))
        (Mobile.visibleUsers c') = Some entry /\
   forall now,
     In entry (Mobile.visibleUsers (Mobile.filterExpiredUsers now c')) <->
     now - Timestamp__c payload < 60000) /\
  (IsMobile__c payload = false -> c' = c).
Proof.
  intros Hacc Hst Hnone c' entry.
  assert (E : findIndex
                (fun u => strictEq (Mobile.userId u) (UserId__c payload))
                (Mobile.visibleUsers c) = None).
  { apply findIndex_None. intros u Hu. apply strictEq_false. auto. }
  assert (Hrun : Mobile.handlePresenceEvent c visible payload =
                 if IsMobile__c payload
                 then (Mobile.setVisibleUsers c
                         (Mobile.visibleUsers c ++ [entry]), [])
                 else (c, [])).
  { unfold Mobile.handlePresenceEvent. accept_event Hacc. rewrite Hst.
    change (strictEq "gone" "gone") with true. cbv iota. now rewrite E. }
  subst c'. rewrite Hrun. split; [now destruct (IsMobile__c payload)|].
  split; intros Hmob; rewrite Hmob; cbn [fst]; [|reflexivity].
  cbn [Mobile.setVisibleUsers Mobile.visibleUsers].
  split; [reflexivity|]. split.
  - apply find_app_none.
    + now apply findIndex_None.
    + now apply strictEq_true.
  - intros now. unfold Mobile.filterExpiredUsers.
    cbn [Mobile.setVisibleUsers Mobile.visibleUsers].
    rewrite filter_In. subst entry. cbv zeta.
    cbn [Mobile.isMobile Mobile.lastSeen].
    unfold Mobile.MOBILE_GRACE_PERIOD_MS. rewrite Z.ltb_lt. split.
    + now intros [_ H].
    + intros H. split; [|assumption]. apply in_or_app. right. now left.
Qed.

Lemma gone_for_unknown_user_witness :
  let c := mobileComponent true [mobileUser "alice" "active" 1000 false false] in
  let leaving := eventOf "bob" "gone" 5000 false true in
  let c' := fst (Mobile.handlePresenceEvent c true leaving) in
  (Mobile.visibleUsers c'
   = [mobileUser "alice" "active" 1000 false false;
      mobileUser "bob" "gone" 5000 false true] /\
   In (mobileUser "bob" "gone" 5000 false true)
      (Mobile.visibleUsers (Mobile.filterExpiredUsers 64999 c'))) /\
  fst (Mobile.handlePresenceEvent c true (eventOf "bob" "gone" 5000 false false))
  = c.
Proof.
  intros c leaving c'.
  assert (Hacc : forall mobile,
             accepted (Mobile.currentUserId c) (Mobile.recordId c)
               (eventOf "bob" "gone" 5000 false mobile))
    by (intros mobile; split; [discriminate|reflexivity]).
  assert (Hnone : forall u, In u (Mobile.visibleUsers c) ->
                            Mobile.userId u <> "bob")
    by (simpl; intros u [<-|[]]; discriminate).
  split.
  - destruct (gone_for_unknown_user c true leaving (Hacc true) eq_refl Hnone)
      as (_ & Hmobile & _).
    destruct (Hmobile eq_refl) as (Hlist & _ & Hsweep).
    split; [exact Hlist|]. apply (Hsweep 64999). reflexivity.
  - destruct (gone_for_unknown_user c true
                (eventOf "bob" "gone" 5000 false false) (Hacc false) eq_refl
                Hnone) as (_ & _ & Hnormal).
    apply Hnormal. reflexivity.
Defined.

(** ** The expiration sweep *)

Lemma filter_idempotent {A : Type} (f : A -> bool) (l : list A) :
  filter f (filter f l) = filter f l.
Proof.
  induction l as [|a l IH]; simpl; [reflexivity|].
  destruct (f a) eqn:E; simpl; [rewrite E; f_equal|]; assumption.
Qed.

Lemma mobile_sweep_keeps (now : Z) (c : Mobile.Component) (u : Mobile.User) :
  In u (Mobile.visibleUsers (Mobile.filterExpiredUsers now c)) <->
  In u (Mobile.visibleUsers c) /\
  now - Mobile.lastSeen u < Mobile.expirationWindow c u.
Proof.
  unfold Mobile.filterExpiredUsers, Mobile.expirationWindow.
  cbn [Mobile.setVisibleUsers Mobile.visibleUsers].
  rewrite filter_In. cbv zeta.
  destruct (Mobile.isMobile u); now rewrite Z.ltb_lt.
Qed.

Lemma settings_sweep_keeps (now : Z) (c : Settings.Component)
    (u : Settings.User) :
  In u (Settings.visibleUsers (Settings.filterExpiredUsers now c)) <->
  In u (Settings.visibleUsers c) /\
  now - Settings.lastSeen u < Settings.presenceExpirationMs c.
Proof.
  unfold Settings.filterExpiredUsers.
  cbn [Settings.setVisibleUsers Settings.visibleUsers].
  rewrite filter_In. cbv zeta. now rewrite Z.ltb_lt.
Qed.

Lemma echo_sweep_keeps (now : Z) (c : SessionEcho.Component)
    (u : SessionEcho.User) :
  In u (SessionEcho.visibleUsers (SessionEcho.filterExpiredUsers now c)) <->
  In u (SessionEcho.visibleUsers c) /\
  now - SessionEcho.lastSeen u < SessionEcho.PRESENCE_EXPIRATION_MS.
Proof.
  unfold SessionEcho.filterExpiredUsers.
  cbn [SessionEcho.setVisibleUsers SessionEcho.visibleUsers].
  rewrite filter_In. cbv zeta. now rewrite Z.ltb_lt.
Qed.

(** C4, as stated, fails where the age equals the window: with a window of
    ten minutes, a record last seen at 0 is removed by the sweep at 600000,
    though its age does not exceed the window. *)
Lemma sweep_at_exact_window_removes :
  let u := mobileUser "alice" "active" 0 false false in
  let c := mobileComponent true [u] in
  let now := 600000 in
  In u (Mobile.visibleUsers c) /\
  ~ (~ In u (Mobile.visibleUsers (Mobile.filterExpiredUsers now c)) <->
     Mobile.expirationWindow c u < now - Mobile.lastSeen u).
Proof.
  cbv zeta. split; [now left|].
  intros [H _]. assert (Hlt : 600000 < 600000); [|lia].
  apply H. intros Hin. apply mobile_sweep_keeps in Hin.
  destruct Hin as [_ Hin]. cbn in Hin. lia.
Qed.

(** C4, amended.  The sweep removes a record exactly when the age of its
    [lastSeen] has reached the window that applies to it (60 seconds for a
    mobile record, the configured window otherwise; the configured window
    for every record in the settings-driven revision), and adds none; so
    with a ten minute window a record one millisecond past ten minutes is
    removed. *)
Theorem sweep_removes_records_of_window_age :
  (forall now c u,
     In u (Mobile.visibleUsers c) ->
     (~ In u (Mobile.visibleUsers (Mobile.filterExpiredUsers now c)) <->
      Mobile.expirationWindow c u <= now - Mobile.lastSeen u)) /\
  (forall now c u,
     In u (Settings.visibleUsers c) ->
     (~ In u (Settings.visibleUsers (Settings.filterExpiredUsers now c)) <->
      Settings.presenceExpirationMs c <= now - Settings.lastSeen u)) /\
  (forall now c u,
     In u (Mobile.visibleUsers (Mobile.filterExpiredUsers now c)) ->
     In u (Mobile.visibleUsers c)) /\
  (forall now c u,
     In u (Settings.visibleUsers (Settings.filterExpiredUsers now c)) ->
     In u (Settings.visibleUsers c)) /\
  (forall c u,
     Mobile.presenceExpirationMs c = 600000 ->
     Mobile.isMobile u = false ->
     ~ In u (Mobile.visibleUsers
               (Mobile.filterExpiredUsers (Mobile.lastSeen u + 600000 + 1) c))).
Proof.
  split; [|split; [|split; [|split]]].
  - intros now c u Hu. split.
    + intros Hout. destruct (Z_lt_le_dec (now - Mobile.lastSeen u)
                               (Mobile.expirationWindow c u)); [|assumption].
      exfalso. apply Hout. apply mobile_sweep_keeps. now split.
    + intros Hage Hin. apply mobile_sweep_keeps in Hin. lia.
  - intros now c u Hu. split.
    + intros Hout. destruct (Z_lt_le_dec (now - Settings.lastSeen u)
                               (Settings.presenceExpirationMs c)); [|assumption].
      exfalso. apply Hout. apply settings_sweep_keeps. now split.
    + intros Hage Hin. apply settings_sweep_keeps in Hin. lia.
  - intros now c u Hin. now apply mobile_sweep_keeps in Hin.
  - intros now c u Hin. now apply settings_sweep_keeps in Hin.
  - intros c u Hwin Hmob Hin. apply mobile_sweep_keeps in Hin.
    destruct Hin as [_ Hin].
    unfold Mobile.expirationWindow in Hin. rewrite Hmob, Hwin in Hin. lia.
Qed.

Lemma sweep_removes_records_of_window_age_witness :
  let u := mobileUser "alice" "active" 0 false false in
  let m := mobileUser "bob" "active" 400000 false true in
  let c := mobileComponent true [u; m] in
  let v := settingsUser "alice" "idle" 0 false in
  let d := settingsComponent true [v] in
  (~ In u (Mobile.visibleUsers (Mobile.filterExpiredUsers 600000 c)) <->
   Mobile.expirationWindow c u <= 600000 - Mobile.lastSeen u) /\
  (~ In m (Mobile.visibleUsers (Mobile.filterExpiredUsers 459999 c)) <->
   Mobile.expirationWindow c m <= 459999 - Mobile.lastSeen m) /\
  (~ In v (Settings.visibleUsers (Settings.filterExpiredUsers 599999 d)) <->
   Settings.presenceExpirationMs d <= 599999 - Settings.lastSeen v) /\
  ~ In u (Mobile.visibleUsers
            (Mobile.filterExpiredUsers (Mobile.lastSeen u + 600000 + 1) c)).
Proof.
  intros u m c v d.
  destruct sweep_removes_records_of_window_age as (H1 & H2 & _ & _ & H5).
  split; [|split; [|split]].
  - apply (H1 600000 c u). now left.
  - apply (H1 459999 c m). right. now left.
  - apply (H2 599999 d v). now left.
  - apply (H5 c u); reflexivity.
Defined.

(** C9.  In the settings-driven revision and in the revision that echoes the
    local session, the sweep keeps exactly the records whose age is below
    the expiration window (the configured window in the first, ten minutes
    in the second), in their order: a record of the list stays iff its age
    is strictly less than the window, so a record whose age equals the
    window is removed, and a list whose records are all younger than the
    window is left as it is.  Sweeping a second time at the same instant
    changes nothing. *)
Theorem sweep_boundary_and_idempotence :
  (forall now c u,
     In u (Settings.visibleUsers (Settings.filterExpiredUsers now c)) <->
     In u (Settings.visibleUsers c) /\
     now - Settings.lastSeen u < Settings.presenceExpirationMs c) /\
  (forall now c u,
     now - Settings.lastSeen u = Settings.presenceExpirationMs c ->
     ~ In u (Settings.visibleUsers (Settings.filterExpiredUsers now c))) /\
  (forall now c,
     (forall u, In u (Settings.visibleUsers c) ->
                now - Settings.lastSeen u < Settings.presenceExpirationMs c) ->
     Settings.visibleUsers (Settings.filterExpiredUsers now c)
     = Settings.visibleUsers c) /\
  (forall now c,
     Settings.filterExpiredUsers now (Settings.filterExpiredUsers now c)
     = Settings.filterExpiredUsers now c) /\
  (forall now c u,
     In u (SessionEcho.visibleUsers (SessionEcho.filterExpiredUsers now c)) <->
     In u (SessionEcho.visibleUsers c) /\
     now - SessionEcho.lastSeen u < 600000) /\
  (forall now c u,
     now - SessionEcho.lastSeen u = 600000 ->
     ~ In u (SessionEcho.visibleUsers (SessionEcho.filterExpiredUsers now c))) /\
  (forall now c,
     (forall u, In u (SessionEcho.visibleUsers c) ->
                now - SessionEcho.lastSeen u < 600000) ->
     SessionEcho.visibleUsers (SessionEcho.filterExpiredUsers now c)
     = SessionEcho.visibleUsers c) /\
  (forall now c,
     SessionEcho.filterExpiredUsers now (SessionEcho.filterExpiredUsers now c)
     = SessionEcho.filterExpiredUsers now c).
Proof.
  split; [|split; [|split; [|split; [|split; [|split; [|split]]]]]].
  - intros now c u. apply settings_sweep_keeps.
  - intros now c u Hage Hin. apply settings_sweep_keeps in Hin. lia.
  - intros now c Hyoung. unfold Settings.filterExpiredUsers.
    cbn [Settings.setVisibleUsers Settings.visibleUsers].
    apply forallb_filter_id, forallb_forall. intros u Hu.
    apply Z.ltb_lt. now apply Hyoung.
  - intros now c. unfold Settings.filterExpiredUsers.
    cbn [Settings.setVisibleUsers Settings.visibleUsers
         Settings.presenceExpirationMs].
    unfold Settings.setVisibleUsers. cbn. now rewrite filter_idempotent.
  - intros now c u. apply echo_sweep_keeps.
  - intros now c u Hage Hin. apply echo_sweep_keeps in Hin.
    unfold SessionEcho.PRESENCE_EXPIRATION_MS in Hin. lia.
  - intros now c Hyoung. unfold SessionEcho.filterExpiredUsers.
    cbn [SessionEcho.setVisibleUsers SessionEcho.visibleUsers].
    apply forallb_filter_id, forallb_forall. intros u Hu.
    apply Z.ltb_lt. now apply Hyoung.
  - intros now c. unfold SessionEcho.filterExpiredUsers.
    unfold SessionEcho.setVisibleUsers. cbn. now rewrite filter_idempotent.
Qed.

Lemma sweep_boundary_and_idempotence_witness :
  let v := settingsUser "alice" "idle" 1000 false in
  let v' := settingsUser "bob" "active" 1001 false in
  let d := settingsComponent true [v; v'] in
  let w := echoUser "alice" "s-alice" "idle" 1000 false in
  let w' := echoUser "bob" "s-bob" "active" 1001 true in
  let e := echoComponent None [w; w'] in
  ~ In v (Settings.visibleUsers (Settings.filterExpiredUsers 601000 d)) /\
  In v' (Settings.visibleUsers (Settings.filterExpiredUsers 601000 d)) /\
  Settings.visibleUsers (Settings.filterExpiredUsers 600999 d) = [v; v'] /\
  ~ In w (SessionEcho.visibleUsers (SessionEcho.filterExpiredUsers 601000 e)) /\
  In w' (SessionEcho.visibleUsers (SessionEcho.filterExpiredUsers 601000 e)) /\
  SessionEcho.visibleUsers (SessionEcho.filterExpiredUsers 600999 e) = [w; w'].
Proof.
  intros v v' d w w' e.
  destruct sweep_boundary_and_idempotence
    as (H1 & H2 & H3 & _ & H5 & H6 & H7 & _).
  split; [apply (H2 601000 d v); reflexivity|].
  split; [apply (H1 601000 d v'); split; [right; now left|reflexivity]|].
  split.
  { apply (H3 600999 d). intros u [<-|[<-|[]]]; reflexivity. }
  split; [apply (H6 601000 e w); reflexivity|].
  split; [apply (H5 601000 e w'); split; [right; now left|reflexivity]|].
  apply (H7 600999 e). intros u [<-|[<-|[]]]; reflexivity.
Defined.

(** ** Ingestion order *)

Lemma mobile_handle_ids (c : Mobile.Component) (visible : bool)
    (payload : Payload) :
  let c' := fst (Mobile.handlePresenceEvent c visible payload) in
  Mobile.currentUserId c' = Mobile.currentUserId c /\
  Mobile.recordId c' = Mobile.recordId c.
Proof.
  unfold Mobile.handlePresenceEvent.
  repeat match goal with
         | |- context [if ?b then _ else _] => destruct b
         | |- context [match ?o with Some _ => _ | None => _ end] =>
             destruct o
         end; cbn; auto.
Qed.

Lemma settings_handle_ids (c : Settings.Component) (visible : bool)
    (payload : Payload) :
  let c' := fst (Settings.handlePresenceEvent c visible payload) in
  Settings.currentUserId c' = Settings.currentUserId c /\
  Settings.recordId c' = Settings.recordId c.
Proof.
  unfold Settings.handlePresenceEvent.
  repeat match goal with
         | |- context [if ?b then _ else _] => destruct b
         | |- context [match ?o with Some _ => _ | None => _ end] =>
             destruct o
         end; cbn; auto.
Qed.

Lemma runWith_app {C : Type} (step : C -> Delivery -> C * list Toast)
    (c : C) (ds1 ds2 : list Delivery) :
  runWith step c (ds1 ++ ds2) =
  (fst (runWith step (fst (runWith step c ds1)) ds2),
   snd (runWith step c ds1) ++ snd (runWith step (fst (runWith step c ds1)) ds2)).
Proof.
  revert c. induction ds1 as [|d r IH]; intros c; simpl.
  - now destruct (runWith step c ds2).
  - destruct (step c d) as [c1 t1]. rewrite IH.
    destruct (runWith step c1 r) as [c2 t2]. simpl.
    now rewrite app_assoc.
Qed.

Lemma mobile_run_ids (c : Mobile.Component) (ds : list Delivery) :
  let c' := fst (runWith mobileStep c ds) in
  Mobile.currentUserId c' = Mobile.currentUserId c /\
  Mobile.recordId c' = Mobile.recordId c.
Proof.
  revert c. induction ds as [|d r IH]; intros c; simpl; [auto|].
  destruct (mobileStep c d) as [c1 t1] eqn:E1.
  specialize (IH c1). destruct (runWith mobileStep c1 r) as [c2 t2].
  simpl in *. unfold mobileStep in E1.
  pose proof (mobile_handle_ids (Mobile.setIsActive c (focus d))
                (hostVisible d) (event d)) as H.
  rewrite E1 in H. simpl in H. destruct H, IH. split; congruence.
Qed.

Lemma settings_run_ids (c : Settings.Component) (ds : list Delivery) :
  let c' := fst (runWith settingsStep c ds) in
  Settings.currentUserId c' = Settings.currentUserId c /\
  Settings.recordId c' = Settings.recordId c.
Proof.
  revert c. induction ds as [|d r IH]; intros c; simpl; [auto|].
  destruct (settingsStep c d) as [c1 t1] eqn:E1.
  specialize (IH c1). destruct (runWith settingsStep c1 r) as [c2 t2].
  simpl in *. unfold settingsStep in E1.
  pose proof (settings_handle_ids (Settings.setIsActive c (focus d))
                (hostVisible d) (event d)) as H.
  rewrite E1 in H. simpl in H. destruct H, IH. split; congruence.
Qed.

(** An accepted event other than 'gone' leaves its own record as the
    user's record, whatever record the user had. *)
Lemma mobile_event_overwrites (c : Mobile.Component) (visible : bool)
    (payload : Payload) :
  accepted (Mobile.currentUserId c) (Mobile.recordId c) payload ->
  State__c payload <> "gone" ->
  find (fun u => strictEq (Mobile.userId u) (UserId__c payload))
       (Mobile.visibleUsers (fst (Mobile.handlePresenceEvent c visible payload)))
  = Some (Mobile.eventUser payload).
Proof.
  intros Hacc Hst. unfold Mobile.handlePresenceEvent. accept_event Hacc.
  rewrite (proj2 (strictEq_false _ _) Hst).
  assert (Hp : strictEq (Mobile.userId (Mobile.eventUser payload))
                 (UserId__c payload) = true) by (now apply strictEq_true).
  destruct (findIndex _ (Mobile.visibleUsers c)) as [i|] eqn:E.
  - destruct (findIndex_Some _ _ _ E) as (l1 & x0 & l2 & Hl & Hlen & _ & Hall).
    cbn [fst Mobile.setVisibleUsers Mobile.visibleUsers].
    rewrite Hl, <- Hlen, replaceAt_split. now apply find_split.
  - cbn [fst Mobile.setVisibleUsers Mobile.visibleUsers].
    apply find_app_none; [|assumption]. now apply findIndex_None.
Qed.

Lemma settings_event_overwrites (c : Settings.Component) (visible : bool)
    (payload : Payload) :
  accepted (Settings.currentUserId c) (Settings.recordId c) payload ->
  State__c payload <> "gone" ->
  find (fun u => strictEq (Settings.userId u) (UserId__c payload))
       (Settings.visibleUsers
          (fst (Settings.handlePresenceEvent c visible payload)))
  = Some (Settings.eventUser payload).
Proof.
  intros Hacc Hst. unfold Settings.handlePresenceEvent. accept_event Hacc.
  rewrite (proj2 (strictEq_false _ _) Hst).
  assert (Hp : strictEq (Settings.userId (Settings.eventUser payload))
                 (UserId__c payload) = true) by (now apply strictEq_true).
  destruct (findIndex _ (Settings.visibleUsers c)) as [i|] eqn:E.
  - destruct (findIndex_Some _ _ _ E) as (l1 & x0 & l2 & Hl & Hlen & _ & Hall).
    cbn [fst Settings.setVisibleUsers Settings.visibleUsers].
    rewrite Hl, <- Hlen, replaceAt_split. now apply find_split.
  - cbn [fst Settings.setVisibleUsers Settings.visibleUsers].
    apply find_app_none; [|assumption]. now apply findIndex_None.
Qed.

Lemma runWith_last {C : Type} (step : C -> Delivery -> C * list Toast)
    (c : C) (ds : list Delivery) (d : Delivery) :
  fst (runWith step c (ds ++ [d])) = fst (step (fst (runWith step c ds)) d).
Proof.
  rewrite runWith_app. cbn [fst runWith].
  now destruct (step (fst (runWith step c ds)) d).
Qed.

Lemma runWith_cons_fst {C : Type} (step : C -> Delivery -> C * list Toast)
    (c : C) (d : Delivery) (ds : list Delivery) :
  fst (runWith step c (d :: ds)) = fst (runWith step (fst (step c d)) ds).
Proof.
  cbn [runWith]. destruct (step c d) as [c1 t1]. cbn [fst].
  now destruct (runWith step c1 ds).
Qed.

Section FindFacts.
Context {A : Type}.
Variable q : A -> bool.

(** An element that [q] rejects does not matter to [find q]. *)
Lemma find_skip (l1 l2 : list A) (x0 : A) :
  q x0 = false -> find q (l1 ++ x0 :: l2) = find q (l1 ++ l2).
Proof.
  intros Hx. induction l1 as [|a l1 IH]; simpl; [now rewrite Hx|].
  now rewrite IH.
Qed.

Lemma find_replace_skip (l1 l2 : list A) (x0 x : A) :
  q x0 = false -> q x = false ->
  find q (l1 ++ x :: l2) = find q (l1 ++ x0 :: l2).
Proof. intros H0 Hx. now rewrite !find_skip. Qed.

Lemma find_append_skip (l : list A) (x : A) :
  q x = false -> find q (l ++ [x]) = find q l.
Proof. intros Hx. now rewrite find_skip, app_nil_r. Qed.
End FindFacts.

(** An event of another user, or one the handler ignores, leaves the record
    found for a user as it is. *)
Lemma mobile_foreign_event_keeps (c : Mobile.Component) (visible : bool)
    (payload : Payload) (user : string) :
  (UserId__c payload = user ->
   Mobile.recordId c <> Some (CaseId__c payload)) ->
  find (fun u => strictEq (Mobile.userId u) user)
       (Mobile.visibleUsers (fst (Mobile.handlePresenceEvent c visible payload)))
  = find (fun u => strictEq (Mobile.userId u) user) (Mobile.visibleUsers c).
Proof.
  intros Hforeign. unfold Mobile.handlePresenceEvent.
  destruct (strictEq _ (Mobile.currentUserId c)); [reflexivity|].
  destruct (sameRecord _ _) eqn:Ecase; cbn [negb]; [|reflexivity].
  apply sameRecord_true in Ecase.
  assert (Hother : forall x, Mobile.userId x = UserId__c payload ->
                             strictEq (Mobile.userId x) user = false).
  { intros x Hx. apply strictEq_false. rewrite Hx. intros Hu.
    now apply (Hforeign Hu). }
  destruct (findIndex _ (Mobile.visibleUsers c)) as [i|] eqn:E.
  - destruct (findIndex_Some _ _ _ E) as (l1 & x0 & l2 & Hl & Hlen & Hp & _).
    apply strictEq_true in Hp.
    destruct (strictEq (State__c payload) "gone");
      [destruct (IsMobile__c payload)|];
      cbn [fst Mobile.setVisibleUsers Mobile.visibleUsers];
      rewrite Hl, <- Hlen, ?replaceAt_split, ?removeAt_split.
    + apply find_replace_skip; now apply Hother.
    + symmetry. apply find_skip. now apply Hother.
    + apply find_replace_skip; now apply Hother.
  - destruct (strictEq (State__c payload) "gone");
      [destruct (IsMobile__c payload)|];
      cbn [fst Mobile.setVisibleUsers Mobile.visibleUsers];
      try reflexivity; apply find_append_skip; now apply Hother.
Qed.

Lemma settings_foreign_event_keeps (c : Settings.Component) (visible : bool)
    (payload : Payload) (user : string) :
  (UserId__c payload = user ->
   Settings.recordId c <> Some (CaseId__c payload)) ->
  find (fun u => strictEq (Settings.userId u) user)
       (Settings.visibleUsers
          (fst (Settings.handlePresenceEvent c visible payload)))
  = find (fun u => strictEq (Settings.userId u) user) (Settings.visibleUsers c).
Proof.
  intros Hforeign. unfold Settings.handlePresenceEvent.
  destruct (strictEq _ (Settings.currentUserId c)); [reflexivity|].
  destruct (sameRecord _ _) eqn:Ecase; cbn [negb]; [|reflexivity].
  apply sameRecord_true in Ecase.
  assert (Hother : forall x, Settings.userId x = UserId__c payload ->
                             strictEq (Settings.userId x) user = false).
  { intros x Hx. apply strictEq_false. rewrite Hx. intros Hu.
    now apply (Hforeign Hu). }
  destruct (findIndex _ (Settings.visibleUsers c)) as [i|] eqn:E.
  - destruct (findIndex_Some _ _ _ E) as (l1 & x0 & l2 & Hl & Hlen & Hp & _).
    apply strictEq_true in Hp.
    destruct (strictEq (State__c payload) "gone");
      cbn [fst Settings.setVisibleUsers Settings.visibleUsers];
      rewrite Hl, <- Hlen, ?replaceAt_split, ?removeAt_split.
    + symmetry. apply find_skip. now apply Hother.
    + apply find_replace_skip; now apply Hother.
  - destruct (strictEq (State__c payload) "gone");
      cbn [fst Settings.setVisibleUsers Settings.visibleUsers];
      try reflexivity; apply find_append_skip; now apply Hother.
Qed.

(** Deliveries that bring no event of a user leave the user's record as it
    is. *)
Lemma mobile_silent_run_keeps (c : Mobile.Component) (ds : list Delivery)
    (user : string) :
  silentAbout user (Mobile.recordId c) ds ->
  find (fun u => strictEq (Mobile.userId u) user)
       (Mobile.visibleUsers (fst (runWith mobileStep c ds)))
  = find (fun u => strictEq (Mobile.userId u) user) (Mobile.visibleUsers c).
Proof.
  revert c. induction ds as [|d r IH]; intros c Hs; [reflexivity|].
  inversion Hs as [|? ? Hd Hr]; subst. rewrite runWith_cons_fst.
  destruct (mobile_handle_ids (Mobile.setIsActive c (focus d))
              (hostVisible d) (event d)) as [_ Hrec].
  cbn [Mobile.setIsActive Mobile.recordId] in Hrec.
  rewrite IH by (unfold mobileStep; now rewrite Hrec).
  unfold mobileStep.
  now rewrite (mobile_foreign_event_keeps (Mobile.setIsActive c (focus d))
                 (hostVisible d) (event d) user Hd).
Qed.

Lemma settings_silent_run_keeps (c : Settings.Component) (ds : list Delivery)
    (user : string) :
  silentAbout user (Settings.recordId c) ds ->
  find (fun u => strictEq (Settings.userId u) user)
       (Settings.visibleUsers (fst (runWith settingsStep c ds)))
  = find (fun u => strictEq (Settings.userId u) user) (Settings.visibleUsers c).
Proof.
  revert c. induction ds as [|d r IH]; intros c Hs; [reflexivity|].
  inversion Hs as [|? ? Hd Hr]; subst. rewrite runWith_cons_fst.
  destruct (settings_handle_ids (Settings.setIsActive c (focus d))
              (hostVisible d) (event d)) as [_ Hrec].
  cbn [Settings.setIsActive Settings.recordId] in Hrec.
  rewrite IH by (unfold settingsStep; now rewrite Hrec).
  unfold settingsStep.
  now rewrite (settings_foreign_event_keeps (Settings.setIsActive c (focus d))
                 (hostVisible d) (event d) user Hd).
Qed.

(** C1, as stated, fails: an event with timestamp 100 that arrives after
    an event of the same user with timestamp 200 replaces the record, in
    both revisions; [lastSeen] drops from 200 to 100 and the final state is
    that of the older event. *)
Lemma stale_event_replaces_newer_record :
  let e1 := eventOf "alice" "active" 200 true false in
  let e2 := eventOf "alice" "idle" 100 false false in
  let m1 := fst (Mobile.handlePresenceEvent (mobileComponent true []) true e1) in
  let m2 := fst (Mobile.handlePresenceEvent m1 true e2) in
  let s1 := fst (Settings.handlePresenceEvent
                   (settingsComponent true []) true e1) in
  let s2 := fst (Settings.handlePresenceEvent s1 true e2) in
  Mobile.visibleUsers m1 = [mobileUser "alice" "active" 200 true false] /\
  Mobile.visibleUsers m2 = [mobileUser "alice" "idle" 100 false false] /\
  Settings.visibleUsers s1 = [settingsUser "alice" "active" 200 true] /\
  Settings.visibleUsers s2 = [settingsUser "alice" "idle" 100 false].
Proof. repeat split. Qed.

(** C1, amended.  The handlers compare no timestamps.  After any sequence
    of deliveries, the record of a user is the one built from the last
    event of that user that the handler accepted, when that event is not
    'gone': it carries the state, the draft flag and, as [lastSeen], the
    timestamp of that event, whatever the timestamps of the events
    delivered before it and whatever other users sent before, between or
    after.  Deliveries that bring no accepted event of a user leave the
    user's record as it is. *)
Theorem last_delivered_event_wins :
  (forall c ds1 d ds2,
     accepted (Mobile.currentUserId c) (Mobile.recordId c) (event d) ->
     State__c (event d) <> "gone" ->
     silentAbout (UserId__c (event d)) (Mobile.recordId c) ds2 ->
     find (fun u => strictEq (Mobile.userId u) (UserId__c (event d)))
          (Mobile.visibleUsers (fst (runWith mobileStep c (ds1 ++ d :: ds2))))
     = Some (Mobile.mkUser (UserId__c (event d)) (UserName__c (event d))
               (UserPhotoUrl__c (event d)) (State__c (event d))
               (Timestamp__c (event d)) (HasDraft__c (event d))
               (IsMobile__c (event d)))) /\
  (forall c ds1 d ds2,
     accepted (Settings.currentUserId c) (Settings.recordId c) (event d) ->
     State__c (event d) <> "gone" ->
     silentAbout (UserId__c (event d)) (Settings.recordId c) ds2 ->
     find (fun u => strictEq (Settings.userId u) (UserId__c (event d)))
          (Settings.visibleUsers
             (fst (runWith settingsStep c (ds1 ++ d :: ds2))))
     = Some (Settings.mkUser (UserId__c (event d)) (UserName__c (event d))
               (UserPhotoUrl__c (event d)) (State__c (event d))
               (Timestamp__c (event d)) (HasDraft__c (event d)))) /\
  (forall c ds user,
     silentAbout user (Mobile.recordId c) ds ->
     find (fun u => strictEq (Mobile.userId u) user)
          (Mobile.visibleUsers (fst (runWith mobileStep c ds)))
     = find (fun u => strictEq (Mobile.userId u) user) (Mobile.visibleUsers c)) /\
  (forall c ds user,
     silentAbout user (Settings.recordId c) ds ->
     find (fun u => strictEq (Settings.userId u) user)
          (Settings.visibleUsers (fst (runWith settingsStep c ds)))
     = find (fun u => strictEq (Settings.userId u) user)
         (Settings.visibleUsers c)).
Proof.
  split; [|split; [|split]].
  - intros c ds1 d ds2 Hacc Hst Hsilent.
    change (d :: ds2) with ([d] ++ ds2). rewrite app_assoc, runWith_app.
    cbn [fst]. destruct (mobile_run_ids c (ds1 ++ [d])) as [_ Hrec0].
    cbv zeta in Hrec0.
    rewrite mobile_silent_run_keeps by (now rewrite Hrec0).
    rewrite runWith_last.
    destruct (mobile_run_ids c ds1) as [Hu Hr]. destruct Hacc as [Ha Hb].
    set (c' := fst (runWith mobileStep c ds1)) in *. unfold mobileStep.
    apply mobile_event_overwrites; [|assumption].
    split; cbn [Mobile.setIsActive Mobile.currentUserId Mobile.recordId];
      congruence.
  - intros c ds1 d ds2 Hacc Hst Hsilent.
    change (d :: ds2) with ([d] ++ ds2). rewrite app_assoc, runWith_app.
    cbn [fst]. destruct (settings_run_ids c (ds1 ++ [d])) as [_ Hrec0].
    cbv zeta in Hrec0.
    rewrite settings_silent_run_keeps by (now rewrite Hrec0).
    rewrite runWith_last.
    destruct (settings_run_ids c ds1) as [Hu Hr]. destruct Hacc as [Ha Hb].
    set (c' := fst (runWith settingsStep c ds1)) in *. unfold settingsStep.
    apply settings_event_overwrites; [|assumption].
    split; cbn [Settings.setIsActive Settings.currentUserId Settings.recordId];
      congruence.
  - intros c ds user. apply mobile_silent_run_keeps.
  - intros c ds user. apply settings_silent_run_keeps.
Qed.

Lemma last_delivered_event_wins_witness :
  let newer := mkDelivery true true (eventOf "alice" "active" 200 true false) in
  let older := mkDelivery true true (eventOf "alice" "idle" 100 false false) in
  let other := mkDelivery true true (eventOf "bob" "active" 300 false false) in
  find (fun u => strictEq (Mobile.userId u) "alice")
       (Mobile.visibleUsers
          (fst (runWith mobileStep (mobileComponent true [])
                  ([newer; other] ++ older :: [other; other]))))
  = Some (mobileUser "alice" "idle" 100 false false) /\
  find (fun u => strictEq (Settings.userId u) "alice")
       (Settings.visibleUsers
          (fst (runWith settingsStep (settingsComponent true [])
                  ([newer; other] ++ older :: [other; other]))))
  = Some (settingsUser "alice" "idle" 100 false).
Proof.
  intros newer older other.
  destruct last_delivered_event_wins as (Hm & Hs & _). split.
  - apply (Hm (mobileComponent true []) [newer; other] older [other; other]).
    + split; [discriminate|reflexivity].
    + discriminate.
    + repeat constructor; discriminate.
  - apply (Hs (settingsComponent true []) [newer; other] older [other; other]).
    + split; [discriminate|reflexivity].
    + discriminate.
    + repeat constructor; discriminate.
Defined.

(** ** The gate of the toasts *)

Section NoBacklog.
Variable C : Type.
Variable step : C -> Delivery -> C * list Toast.
(** Components that agree on all but the focus flag. *)
Variable sim : C -> C -> Prop.
Variable gate : Delivery -> bool.

Hypothesis step_sim : forall c c' d, sim c c' -> step c d = step c' d.
Hypothesis step_state :
  forall c d d', event d = event d' -> sim (fst (step c d)) (fst (step c d')).
Hypothesis step_closed : forall c d, gate d = false -> snd (step c d) = [].

Lemma run_sim_toasts (ds : list Delivery) (c c' : C) :
  sim c c' -> snd (runWith step c ds) = snd (runWith step c' ds).
Proof.
  destruct ds as [|d r]; intros H; simpl; [reflexivity|].
  now rewrite (step_sim c c' d H).
Qed.

Lemma run_sim_state (ds ds' : list Delivery) :
  map event ds = map event ds' ->
  forall c c', sim c c' ->
  sim (fst (runWith step c ds)) (fst (runWith step c' ds')) \/
  (ds = [] /\ ds' = []).
Proof.
  revert ds'. induction ds as [|d r IH]; intros [|d' r'] Hev c c' H;
    try discriminate; [now right|left].
  simpl in Hev. injection Hev as Hd Hr. simpl.
  rewrite (step_sim c c' d H).
  pose proof (step_state c' d d' Hd) as Hs.
  destruct (step c' d) as [c1 t1], (step c' d') as [c1' t1'].
  simpl in Hs. destruct (IH r' Hr c1 c1' Hs) as [Hsim|[-> ->]].
  - destruct (runWith step c1 r), (runWith step c1' r'). exact Hsim.
  - exact Hs.
Qed.

Lemma run_closed (ds : list Delivery) (c : C) :
  (forall d, In d ds -> gate d = false) -> snd (runWith step c ds) = [].
Proof.
  revert c. induction ds as [|d r IH]; intros c H; simpl; [reflexivity|].
  pose proof (step_closed c d (H d (or_introl eq_refl))) as Hd.
  destruct (step c d) as [c1 t1]. simpl in Hd. subst t1.
  specialize (IH c1 (fun x Hx => H x (or_intror Hx))).
  now destruct (runWith step c1 r).
Qed.

(** The toasts of a run whose first part met a closed gate are the toasts
    of its second part alone, as they would be had the first part met an
    open gate (and its toasts been dispatched then). *)
Lemma closed_gate_leaves_no_backlog (c : C) (ds1 ds1' ds2 : list Delivery) :
  map event ds1 = map event ds1' ->
  (forall d, In d ds1 -> gate d = false) ->
  snd (runWith step c (ds1 ++ ds2)) =
  snd (runWith step (fst (runWith step c ds1')) ds2).
Proof.
  intros Hev Hclosed. rewrite runWith_app. cbn [snd].
  rewrite (run_closed ds1 c Hclosed). cbn [app].
  destruct ds1 as [|d r], ds1' as [|d' r']; try discriminate;
    [reflexivity|].
  apply run_sim_toasts.
  simpl in Hev. injection Hev as Hd Hr. simpl.
  pose proof (step_state c d d' Hd) as Hs.
  destruct (step c d) as [c1 t1], (step c d') as [c1' t1'].
  simpl in Hs. destruct (run_sim_state r r' Hr c1 c1' Hs) as [Hsim|[-> ->]].
  - destruct (runWith step c1 r), (runWith step c1' r'). exact Hsim.
  - exact Hs.
Qed.
End NoBacklog.

Ltac case_handler :=
  repeat match goal with
         | |- context [if ?b then _ else _] => destruct b
         | |- context [match ?o with Some _ => _ | None => _ end] =>
             destruct o
         end.

Lemma settings_gate_closed (c : Settings.Component) (visible : bool)
    (payload : Payload) :
  Settings.isActive c && visible = false ->
  snd (Settings.handlePresenceEvent c visible payload) = [].
Proof.
  intros H. unfold Settings.handlePresenceEvent. rewrite H. cbn [andb].
  case_handler; reflexivity.
Qed.

Lemma mobile_gate_closed (c : Mobile.Component) (payload : Payload) :
  snd (Mobile.handlePresenceEvent c false payload) = [].
Proof.
  unfold Mobile.handlePresenceEvent. cbn [andb]. case_handler; reflexivity.
Qed.

Lemma settings_step_sim (c c' : Settings.Component) (d : Delivery) :
  settingsSim c c' -> settingsStep c d = settingsStep c' d.
Proof.
  unfold settingsSim, settingsStep. intros H.
  change (Settings.setIsActive c (focus d))
    with (Settings.setIsActive (Settings.setIsActive c true) (focus d)).
  now rewrite H.
Qed.

Lemma mobile_step_sim (c c' : Mobile.Component) (d : Delivery) :
  mobileSim c c' -> mobileStep c d = mobileStep c' d.
Proof.
  unfold mobileSim, mobileStep. intros H.
  change (Mobile.setIsActive c (focus d))
    with (Mobile.setIsActive (Mobile.setIsActive c true) (focus d)).
  now rewrite H.
Qed.

(** The list a handler leaves does not depend on the gate. *)
Lemma settings_step_state (c : Settings.Component) (d d' : Delivery) :
  event d = event d' ->
  settingsSim (fst (settingsStep c d)) (fst (settingsStep c d')).
Proof.
  unfold settingsSim, settingsStep, Settings.handlePresenceEvent.
  intros <-.
  cbn [Settings.setIsActive Settings.currentUserId Settings.recordId
       Settings.visibleUsers Settings.settings Settings.isActive].
  case_handler; reflexivity.
Qed.

Lemma mobile_step_state (c : Mobile.Component) (d d' : Delivery) :
  event d = event d' ->
  mobileSim (fst (mobileStep c d)) (fst (mobileStep c d')).
Proof.
  unfold mobileSim, mobileStep, Mobile.handlePresenceEvent.
  intros <-.
  cbn [Mobile.setIsActive Mobile.currentUserId Mobile.recordId
       Mobile.visibleUsers Mobile.settings Mobile.isActive].
  case_handler; reflexivity.
Qed.

Lemma settings_step_closed (c : Settings.Component) (d : Delivery) :
  settingsGate d = false -> snd (settingsStep c d) = [].
Proof. intros H. now apply settings_gate_closed. Qed.

Lemma mobile_step_closed (c : Mobile.Component) (d : Delivery) :
  hostVisible d = false -> snd (mobileStep c d) = [].
Proof. unfold mobileStep. intros ->. apply mobile_gate_closed. Qed.

(** C7, as stated, fails in the form-factor aware revision, whose gate
    does not test the focus state: with the local session idle and the host
    document visible, the arrival of a new user dispatches a join toast. *)
Lemma toast_dispatched_while_local_session_idle :
  let c := mobileComponent false [] in
  Mobile.isActive c = false /\
  snd (Mobile.handlePresenceEvent c true (eventOf "bob" "active" 10 false false))
  = [JoinToast "bob"].
Proof. split; reflexivity. Qed.

(** C7, amended.  The settings-driven revision dispatches no toast unless
    the local session is active and the host document visible; the
    form-factor aware revision dispatches none unless the host document is
    visible, whatever the focus state.  In both, a toast not dispatched is
    dropped: after deliveries that met a closed gate, the toasts of the
    deliveries that follow are those they would be had the gate been open
    before. *)
Theorem toasts_gated_and_never_deferred :
  (forall c visible payload,
     Settings.isActive c && visible = false ->
     snd (Settings.handlePresenceEvent c visible payload) = []) /\
  (forall c payload,
     snd (Mobile.handlePresenceEvent c false payload) = []) /\
  (forall c ds1 ds1' ds2,
     map event ds1 = map event ds1' ->
     (forall d, In d ds1 -> focus d && hostVisible d = false) ->
     snd (runWith settingsStep c (ds1 ++ ds2)) =
     snd (runWith settingsStep (fst (runWith settingsStep c ds1')) ds2)) /\
  (forall c ds1 ds1' ds2,
     map event ds1 = map event ds1' ->
     (forall d, In d ds1 -> hostVisible d = false) ->
     snd (runWith mobileStep c (ds1 ++ ds2)) =
     snd (runWith mobileStep (fst (runWith mobileStep c ds1')) ds2)).
Proof.
  split; [exact settings_gate_closed|].
  split; [exact mobile_gate_closed|]. split.
  - intros c ds1 ds1' ds2.
    apply (closed_gate_leaves_no_backlog _ settingsStep settingsSim
             settingsGate settings_step_sim settings_step_state
             settings_step_closed).
  - intros c ds1 ds1' ds2.
    apply (closed_gate_leaves_no_backlog _ mobileStep mobileSim
             hostVisible mobile_step_sim mobile_step_state
             mobile_step_closed).
Qed.

Lemma toasts_gated_and_never_deferred_witness :
  let join b v := mkDelivery b v (eventOf "bob" "active" 10 false false) in
  let edit := mkDelivery true true (eventOf "bob" "active" 20 true false) in
  let c := settingsComponent true [] in
  let m := mobileComponent true [] in
  snd (Settings.handlePresenceEvent (Settings.setIsActive c false) true
         (event (join false true))) = [] /\
  snd (runWith settingsStep c ([join false true] ++ [edit])) =
  snd (runWith settingsStep (fst (runWith settingsStep c [join true true]))
         [edit]) /\
  snd (runWith mobileStep m ([join true false] ++ [edit])) =
  snd (runWith mobileStep (fst (runWith mobileStep m [join true true]))
         [edit]).
Proof.
  intros join edit c m.
  destruct toasts_gated_and_never_deferred as (H1 & _ & H3 & H4).
  split; [apply H1; reflexivity|]. split.
  - apply (H3 c [join false true] [join true true] [edit]); [reflexivity|].
    intros d [<-|[]]. reflexivity.
  - apply (H4 m [join true false] [join true true] [edit]); [reflexivity|].
    intros d [<-|[]]. reflexivity.
Defined.

(** ** The stable sort *)

Section SortFacts.
Context {A : Type}.
Variable cmp : A -> A -> Z.

Lemma insertBy_perm (x : A) (l : list A) :
  Permutation (insertBy cmp x l) (x :: l).
Proof.
  induction l as [|y r IH]; simpl; [reflexivity|].
  destruct (0 <? cmp x y); [|reflexivity].
  rewrite IH. apply perm_swap.
Qed.

Lemma sortBy_perm (l : list A) : Permutation (sortBy cmp l) l.
Proof.
  induction l as [|x r IH]; simpl; [reflexivity|].
  unfold sortBy in IH. rewrite insertBy_perm. now constructor.
Qed.

Lemma sortBy_In (l : list A) (x : A) : In x (sortBy cmp l) <-> In x l.
Proof.
  split; apply Permutation_in;
    [apply sortBy_perm|apply Permutation_sym, sortBy_perm].
Qed.

(** Stability: the elements of a class whose members never strictly
    follow one another under [cmp] keep their order. *)
Section Stable.
Variable k : A -> bool.
Hypothesis ties :
  forall x y, k x = true -> k y = true -> cmp x y <= 0.

Lemma insertBy_stable (x : A) (l : list A) :
  filter k (insertBy cmp x l) = filter k (x :: l).
Proof.
  induction l as [|y r IH]; [reflexivity|].
  cbn [insertBy]. destruct (0 <? cmp x y) eqn:E; [|reflexivity].
  apply Z.ltb_lt in E. cbn [filter] in *. rewrite IH.
  destruct (k x) eqn:Ex, (k y) eqn:Ey; try reflexivity.
  specialize (ties x y Ex Ey). lia.
Qed.

Lemma sortBy_stable (l : list A) : filter k (sortBy cmp l) = filter k l.
Proof.
  induction l as [|x r IH]; [reflexivity|].
  change (sortBy cmp (x :: r)) with (insertBy cmp x (sortBy cmp r)).
  rewrite insertBy_stable. cbn [filter]. now rewrite IH.
Qed.
End Stable.

(** Order: for a comparator that is total and transitive, every element
    of the result is in order with every later one. *)
Section Ordered.
Variable R : A -> A -> Prop.
Hypothesis cmp_R : forall x y, cmp x y <= 0 -> R x y.
Hypothesis cmp_total : forall x y, 0 < cmp x y -> R y x.
Hypothesis R_trans : forall x y z, R x y -> R y z -> R x z.

Lemma insertBy_sorted (x : A) (l : list A) :
  StronglySorted R l -> StronglySorted R (insertBy cmp x l).
Proof.
  induction 1 as [|y r Hs IH Hall]; simpl.
  - constructor; constructor.
  - destruct (0 <? cmp x y) eqn:E.
    + apply Z.ltb_lt in E. constructor; [assumption|].
      apply Forall_forall. intros z Hz.
      apply (Permutation_in _ (insertBy_perm x r)) in Hz.
      destruct Hz as [<-|Hz]; [now apply cmp_total|].
      revert z Hz. now apply Forall_forall.
    + apply Z.ltb_ge in E. constructor; [now constructor|].
      constructor; [now apply cmp_R|].
      apply Forall_forall. intros z Hz.
      apply R_trans with y; [now apply cmp_R|].
      revert z Hz. now apply Forall_forall.
Qed.

Lemma sortBy_sorted (l : list A) : StronglySorted R (sortBy cmp l).
Proof.
  induction l as [|x r IH]; [constructor|].
  change (sortBy cmp (x :: r)) with (insertBy cmp x (sortBy cmp r)).
  now apply insertBy_sorted.
Qed.
End Ordered.
End SortFacts.

Lemma In_firstn {A : Type} (n : nat) (l : list A) (x : A) :
  In x (firstn n l) -> In x l.
Proof.
  revert n. induction l as [|a l IH]; intros [|n]; simpl;
    try (intros []; fail).
  intros [H|H]; eauto.
Qed.

Lemma In_skipn {A : Type} (n : nat) (l : list A) (x : A) :
  In x (skipn n l) -> In x l.
Proof.
  revert n. induction l as [|a l IH]; intros [|n]; simpl; auto.
  intros H. right. eauto.
Qed.

Lemma StronglySorted_firstn {A : Type} (R : A -> A -> Prop) (n : nat)
    (l : list A) :
  StronglySorted R l -> StronglySorted R (firstn n l).
Proof.
  intros H. revert n. induction H as [|x r Hs IH Hall]; intros [|n]; simpl;
    try constructor; auto.
  apply Forall_forall. intros z Hz. apply In_firstn in Hz.
  revert z Hz. now apply Forall_forall.
Qed.

Lemma compareUsers_order (a b : SessionMap.VisibleUser) :
  SessionMap.compareUsers a b <= 0 -> displayOrder a b.
Proof.
  unfold SessionMap.compareUsers, displayOrder.
  destruct (SessionMap.vIsEditing a), (SessionMap.vIsEditing b); simpl;
    intros H; try lia;
    first [left; split; reflexivity | right; split; [reflexivity|lia]].
Qed.

Lemma compareUsers_total (a b : SessionMap.VisibleUser) :
  0 < SessionMap.compareUsers a b -> displayOrder b a.
Proof.
  unfold SessionMap.compareUsers, displayOrder.
  destruct (SessionMap.vIsEditing a), (SessionMap.vIsEditing b); simpl;
    intros H; try lia;
    first [left; split; reflexivity | right; split; [reflexivity|lia]].
Qed.

Lemma displayOrder_trans (a b c : SessionMap.VisibleUser) :
  displayOrder a b -> displayOrder b c -> displayOrder a c.
Proof.
  unfold displayOrder.
  destruct (SessionMap.vIsEditing a), (SessionMap.vIsEditing b),
    (SessionMap.vIsEditing c); intros [[? ?]|[? ?]] [[? ?]|[? ?]];
    try discriminate; auto; right; split; auto; lia.
Qed.

Lemma compareUsers_ties (editing : bool) (ts : Z)
    (a b : SessionMap.VisibleUser) :
  tiesWith editing ts a = true -> tiesWith editing ts b = true ->
  SessionMap.compareUsers a b <= 0.
Proof.
  unfold tiesWith, SessionMap.compareUsers. intros Ha Hb.
  apply andb_prop in Ha, Hb. destruct Ha as [Ha Ta], Hb as [Hb Tb].
  apply eqb_prop in Ha, Hb. apply Z.eqb_eq in Ta, Tb.
  rewrite Ha, Hb, Ta, Tb. destruct editing; simpl; lia.
Qed.

(** ** The order of display *)

(** C8, as stated, fails for the display getter of the form-factor aware
    revision, which maps and truncates the visible list without sorting it:
    B (idle, 995), C (editing, 950), D (idle, 999), received in this order,
    are displayed as B, C, D. *)
Lemma display_getter_keeps_arrival_order :
  let arrival user st ts draft :=
    mkDelivery true true (eventOf user st ts draft false) in
  let c := fst (runWith mobileStep (mobileComponent true [])
                  [arrival "B" "idle" 995 false;
                   arrival "C" "active" 950 true;
                   arrival "D" "idle" 999 false]) in
  let shown := Mobile.displayedUsers (fun s => s) (fun _ => "") noBadges
                 false c in
  map (fun d => Mobile.userId (Mobile.user d)) shown = ["B"; "C"; "D"] /\
  map Mobile.isEditing shown = [false; true; false] /\
  map (fun d => Mobile.lastSeen (Mobile.user d)) shown = [995; 950; 999].
Proof. repeat split. Qed.

Lemma firstn_map {A B : Type} (f : A -> B) (n : nat) (l : list A) :
  firstn n (map f l) = map f (firstn n l).
Proof.
  revert n. induction l as [|a l IH]; intros [|n]; simpl; auto.
  now rewrite IH.
Qed.

(** C8, amended.  In the session-map revision [updateVisibleUsers] stores the
    merged users sorted: every editing user before every user who is not,
    within each group by descending timestamp, users that tie in the order
    in which their first sessions entered [presenceMap]; the display getter
    shows this list or its first five.  So B (idle, 995), C (editing, 950),
    D (idle, 999) are shown as C, D, B.  The display getter of the
    form-factor aware revision shows the visible list, or its first five,
    in the order of the list; it sorts nothing. *)
Theorem editing_first_then_most_recent :
  (forall now cur pm,
     let users := SessionMap.mergeSessions now cur pm in
     let out := SessionMap.updateVisibleUsers now cur pm in
     Permutation out users /\
     StronglySorted displayOrder out /\
     (forall editing ts,
        filter (tiesWith editing ts) out = filter (tiesWith editing ts) users) /\
     (forall isMobile,
        StronglySorted displayOrder (SessionMap.displayedUsers isMobile out))) /\
  map SessionMap.vUserId
    (SessionMap.displayedUsers false
       (SessionMap.updateVisibleUsers 1000 "me"
          [session "B" "s1" false false 995;
           session "C" "s1" true true 950;
           session "D" "s1" false false 999]))
  = ["C"; "D"; "B"] /\
  (forall toLowerCase formatIdleTime b narrow c,
     map Mobile.user
       (Mobile.displayedUsers toLowerCase formatIdleTime b narrow c)
     = if narrow then Mobile.visibleUsers c
       else firstn 5 (Mobile.visibleUsers c)).
Proof.
  split; [|split; [reflexivity|]].
  - intros now cur pm users out.
    assert (Hs : StronglySorted displayOrder out).
    { apply sortBy_sorted.
      - exact compareUsers_order.
      - exact compareUsers_total.
      - exact displayOrder_trans. }
    split; [apply sortBy_perm|]. split; [exact Hs|]. split.
    + intros editing ts. apply sortBy_stable.
      apply compareUsers_ties.
    + intros [|]; simpl; [exact Hs|].
      now apply (StronglySorted_firstn displayOrder 5).
  - intros toLowerCase formatIdleTime b narrow c.
    unfold Mobile.displayedUsers.
    assert (Hm : map Mobile.user
                   (map (Mobile.displayUser toLowerCase formatIdleTime b)
                      (Mobile.visibleUsers c)) = Mobile.visibleUsers c).
    { rewrite map_map. simpl. apply map_id. }
    destruct narrow; [exact Hm|].
    now rewrite <- firstn_map, Hm.
Qed.

(** ** The merge of the sessions of a user *)

Lemma mergeAll_fields (now : Z) (ss : list SessionMap.Presence)
    (e : SessionMap.VisibleUser) :
  SessionMap.vUserId (mergeAll now e ss) = SessionMap.vUserId e /\
  SessionMap.vIsActive (mergeAll now e ss)
  = SessionMap.vIsActive e || existsb SessionMap.isActive ss /\
  SessionMap.vIsEditing (mergeAll now e ss)
  = SessionMap.vIsEditing e || existsb SessionMap.isEditing ss /\
  SessionMap.vTimestamp (mergeAll now e ss)
  = fold_left Z.max (map SessionMap.timestamp ss) (SessionMap.vTimestamp e).
Proof.
  revert e. induction ss as [|s r IH]; intros e; simpl.
  - now rewrite !orb_false_r.
  - unfold mergeAll in *. simpl.
    destruct (IH (SessionMap.mergeUser now e s)) as (H1 & H2 & H3 & H4).
    rewrite H1, H2, H3, H4. simpl. now rewrite !orb_assoc.
Qed.

Lemma fold_max_bounds (l : list Z) (z : Z) :
  let m := fold_left Z.max l z in
  z <= m /\ (forall x, In x l -> x <= m) /\ (m = z \/ In m l).
Proof.
  revert z. induction l as [|a l IH]; intros z; simpl.
  - repeat split; [lia|intros x []|now left].
  - destruct (IH (Z.max z a)) as (H1 & H2 & H3). repeat split.
    + lia.
    + intros x [<-|Hx]; [lia|auto].
    + destruct H3 as [H3|H3]; [|now right; right].
      destruct (Z.max_spec z a) as [[_ Hm]|[_ Hm]]; rewrite Hm in H3 |- *.
      * right. left. now symmetry.
      * now left.
Qed.

Section MergeFacts.
Variable now : Z.
Variable cur : string.

Let byUser (u : string) (x : SessionMap.VisibleUser) : bool :=
  strictEq (SessionMap.vUserId x) u.

Let turn (userMap : list SessionMap.VisibleUser)
    (entry : string * SessionMap.Presence) :=
  if strictEq (SessionMap.userId (snd entry)) cur then userMap
  else SessionMap.mergeInto now (snd entry) userMap.

Lemma find_mergeInto (u : string) (p : SessionMap.Presence)
    (um : list SessionMap.VisibleUser) :
  find (byUser u) (SessionMap.mergeInto now p um) =
  if strictEq (SessionMap.userId p) u
  then Some match find (byUser u) um with
            | Some e => SessionMap.mergeUser now e p
            | None => SessionMap.newUser now p
            end
  else find (byUser u) um.
Proof.
  unfold byUser. induction um as [|x r IH]; simpl.
  - now destruct (strictEq (SessionMap.userId p) u).
  - destruct (strictEq (SessionMap.vUserId x) (SessionMap.userId p)) eqn:E.
    + apply strictEq_true in E. simpl. rewrite E.
      now destruct (strictEq (SessionMap.userId p) u).
    + simpl. rewrite IH.
      destruct (strictEq (SessionMap.userId p) u) eqn:Eu;
        [|reflexivity].
      apply strictEq_true in Eu. rewrite <- Eu, E. reflexivity.
Qed.

Lemma find_turns (u : string) (pm : SessionMap.PresenceMap)
    (um : list SessionMap.VisibleUser) :
  u <> cur ->
  find (byUser u) (fold_left turn pm um) =
  match find (byUser u) um, sessionsOf u pm with
  | Some e, ss => Some (mergeAll now e ss)
  | None, [] => None
  | None, s :: r => Some (mergeAll now (SessionMap.newUser now s) r)
  end.
Proof.
  intros Hu. revert um. unfold sessionsOf.
  induction pm as [|[k p] pm IH]; intros um; simpl.
  - now destruct (find (byUser u) um).
  - rewrite IH. unfold turn. simpl.
    destruct (strictEq (SessionMap.userId p) cur) eqn:Ec.
    + apply strictEq_true in Ec.
      assert (En : strictEq (SessionMap.userId p) u = false)
        by (apply strictEq_false; congruence).
      now rewrite En.
    + rewrite find_mergeInto.
      destruct (strictEq (SessionMap.userId p) u); [|reflexivity].
      now destruct (find (byUser u) um).
Qed.

Lemma ids_mergeInto (p : SessionMap.Presence)
    (um : list SessionMap.VisibleUser) (i : string) :
  In i (map SessionMap.vUserId (SessionMap.mergeInto now p um)) ->
  In i (map SessionMap.vUserId um) \/ i = SessionMap.userId p.
Proof.
  induction um as [|x r IH]; simpl.
  - intros [<-|[]]. now right.
  - destruct (strictEq (SessionMap.vUserId x) (SessionMap.userId p));
      simpl; intros [H|H]; auto.
    destruct (IH H); auto.
Qed.

Lemma NoDup_mergeInto (p : SessionMap.Presence)
    (um : list SessionMap.VisibleUser) :
  NoDup (map SessionMap.vUserId um) ->
  NoDup (map SessionMap.vUserId (SessionMap.mergeInto now p um)).
Proof.
  induction um as [|x r IH]; simpl; intros Hnd.
  - repeat constructor. intros [].
  - destruct (strictEq (SessionMap.vUserId x) (SessionMap.userId p)) eqn:E;
      simpl; [assumption|].
    inversion Hnd as [|? ? Hx Hr]; subst. constructor; [|auto].
    intros Hin. apply ids_mergeInto in Hin. destruct Hin as [Hin|Hin]; auto.
    apply strictEq_false in E. auto.
Qed.

Lemma NoDup_turns (pm : SessionMap.PresenceMap)
    (um : list SessionMap.VisibleUser) :
  NoDup (map SessionMap.vUserId um) ->
  NoDup (map SessionMap.vUserId (fold_left turn pm um)).
Proof.
  revert um. induction pm as [|[k p] pm IH]; intros um Hnd; simpl; auto.
  apply IH. unfold turn. simpl.
  destruct (strictEq (SessionMap.userId p) cur); auto.
  now apply NoDup_mergeInto.
Qed.

Lemma turns_exclude_current (pm : SessionMap.PresenceMap)
    (um : list SessionMap.VisibleUser) :
  (forall x, In x um -> SessionMap.vUserId x <> cur) ->
  forall x, In x (fold_left turn pm um) -> SessionMap.vUserId x <> cur.
Proof.
  revert um. induction pm as [|[k p] pm IH]; intros um Hum; simpl; auto.
  apply IH. unfold turn. simpl.
  destruct (strictEq (SessionMap.userId p) cur) eqn:Ec; auto.
  apply strictEq_false in Ec. intros x Hx.
  assert (Hi : In (SessionMap.vUserId x)
                 (map SessionMap.vUserId (SessionMap.mergeInto now p um)))
    by now apply in_map.
  apply ids_mergeInto in Hi. destruct Hi as [Hi|Hi]; [|congruence].
  apply in_map_iff in Hi. destruct Hi as (y & Hy & Hin).
  rewrite <- Hy. auto.
Qed.

Lemma mergeSessions_find (u : string) (pm : SessionMap.PresenceMap) :
  u <> cur ->
  find (byUser u) (SessionMap.mergeSessions now cur pm) =
  match sessionsOf u pm with
  | [] => None
  | s :: r => Some (mergeAll now (SessionMap.newUser now s) r)
  end.
Proof. intros Hu. apply (find_turns u pm [] Hu). Qed.

Lemma mergeSessions_NoDup (pm : SessionMap.PresenceMap) :
  NoDup (map SessionMap.vUserId (SessionMap.mergeSessions now cur pm)).
Proof. apply (NoDup_turns pm []). constructor. Qed.

Lemma mergeSessions_exclude_current (pm : SessionMap.PresenceMap)
    (x : SessionMap.VisibleUser) :
  In x (SessionMap.mergeSessions now cur pm) -> SessionMap.vUserId x <> cur.
Proof. apply (turns_exclude_current pm []). intros y []. Qed.
End MergeFacts.

Lemma find_unique {A : Type} (key : A -> string) (l : list A) (e x : A) :
  NoDup (map key l) ->
  find (fun y => strictEq (key y) (key e)) l = Some e ->
  In x l -> key x = key e -> x = e.
Proof.
  induction l as [|a l IH]; simpl; intros Hnd Hf Hx Hk; [contradiction|].
  inversion Hnd as [|? ? Ha Hl]; subst.
  destruct (strictEq (key a) (key e)) eqn:E.
  - injection Hf as ->. destruct Hx as [Hx|Hx]; [auto|].
    exfalso. apply Ha. rewrite <- Hk. now apply in_map.
  - destruct Hx as [<-|Hx]; [|auto].
    apply strictEq_false in E. contradiction.
Qed.

(** The merged record of a user other than the local one who has sessions:
    it is the one record of the user in the list, it is active when a
    session is, editing when a session is, and carries the largest
    timestamp of the sessions. *)
Lemma merged_view (now : Z) (cur : string) (pm : SessionMap.PresenceMap)
    (user : string) :
  user <> cur -> sessionsOf user pm <> [] ->
  exists e,
    In e (SessionMap.updateVisibleUsers now cur pm) /\
    SessionMap.vUserId e = user /\
    (forall e', In e' (SessionMap.updateVisibleUsers now cur pm) ->
                SessionMap.vUserId e' = user -> e' = e) /\
    (SessionMap.vIsActive e = true <->
     exists s, In s (sessionsOf user pm) /\ SessionMap.isActive s = true) /\
    (SessionMap.vIsEditing e = true <->
     exists s, In s (sessionsOf user pm) /\ SessionMap.isEditing s = true) /\
    (exists s, In s (sessionsOf user pm) /\
               SessionMap.vTimestamp e = SessionMap.timestamp s) /\
    (forall s, In s (sessionsOf user pm) ->
               SessionMap.timestamp s <= SessionMap.vTimestamp e).
Proof.
  intros Hu Hss.
  pose proof (mergeSessions_find now cur user pm Hu) as Hf.
  destruct (sessionsOf user pm) as [|s r] eqn:Es; [contradiction|].
  set (e := mergeAll now (SessionMap.newUser now s) r) in *.
  destruct (mergeAll_fields now r (SessionMap.newUser now s))
    as (Hid & Hact & Hed & Hts). fold e in Hid, Hact, Hed, Hts.
  cbn [SessionMap.newUser SessionMap.vUserId SessionMap.vIsActive
       SessionMap.vIsEditing SessionMap.vTimestamp] in Hid, Hact, Hed, Hts.
  pose proof (find_some _ _ Hf) as [Hin Hkey].
  apply strictEq_true in Hkey.
  exists e. split; [now apply sortBy_In|]. split; [assumption|].
  split; [|split; [|split; [|split]]].
  - intros e' He' Hk. apply sortBy_In in He'.
    apply (find_unique SessionMap.vUserId
             (SessionMap.mergeSessions now cur pm)); auto.
    + apply mergeSessions_NoDup.
    + now rewrite Hkey.
    + congruence.
  - rewrite Hact.
    change (SessionMap.isActive s || existsb SessionMap.isActive r)
      with (existsb SessionMap.isActive (s :: r)).
    apply existsb_exists.
  - rewrite Hed.
    change (SessionMap.isEditing s || existsb SessionMap.isEditing r)
      with (existsb SessionMap.isEditing (s :: r)).
    apply existsb_exists.
  - destruct (fold_max_bounds (map SessionMap.timestamp r)
                (SessionMap.timestamp s)) as (_ & _ & [Hm|Hm]).
    + exists s. split; [now left|]. now rewrite Hts.
    + rewrite <- Hts in Hm. apply in_map_iff in Hm.
      destruct Hm as (x & Hx & Hxin). exists x. split; [now right|auto].
  - destruct (fold_max_bounds (map SessionMap.timestamp r)
                (SessionMap.timestamp s)) as (H1 & H2 & _).
    rewrite <- Hts in H1, H2.
    intros x [<-|Hx]; [assumption|]. apply H2. now apply in_map.
Qed.

Lemma markDraft_fixes (d : SessionMap.Draft) (p : SessionMap.Presence) :
  SessionMap.userId (SessionMap.markDraft d p) = SessionMap.userId p /\
  SessionMap.isEditing (SessionMap.markDraft d p)
  = SessionMap.isEditing p
    || strictEq (SessionMap.userId p) (SessionMap.draftUserId d).
Proof.
  unfold SessionMap.markDraft.
  destruct (strictEq (SessionMap.userId p) (SessionMap.draftUserId d));
    simpl; split; auto using orb_true_r, orb_false_r.
Qed.

Lemma markAll_fixes (drafts : list SessionMap.Draft) (p : SessionMap.Presence) :
  SessionMap.userId (markAll drafts p) = SessionMap.userId p /\
  SessionMap.isEditing (markAll drafts p)
  = SessionMap.isEditing p
    || existsb (fun d => strictEq (SessionMap.userId p)
                           (SessionMap.draftUserId d)) drafts.
Proof.
  revert p. induction drafts as [|d r IH]; intros p; simpl.
  - now rewrite orb_false_r.
  - unfold markAll in *. simpl.
    destruct (IH (SessionMap.markDraft d p)) as [H1 H2].
    destruct (markDraft_fixes d p) as [H3 H4].
    rewrite H1, H2, H3, H4. split; [reflexivity|now rewrite orb_assoc].
Qed.

Lemma checkForDrafts_map (now : Z) (cur : string)
    (drafts : list SessionMap.Draft) (pm : SessionMap.PresenceMap) :
  fst (SessionMap.checkForDrafts now cur drafts pm)
  = map (fun entry => (fst entry, markAll drafts (snd entry))) pm.
Proof.
  unfold SessionMap.checkForDrafts. cbn [fst]. revert pm.
  induction drafts as [|d r IH]; intros pm; simpl.
  - rewrite <- (map_id pm) at 1. apply map_ext. now intros [k q].
  - rewrite IH, map_map. apply map_ext. now intros [k q].
Qed.

(** ** The local user and the visible list *)

Lemma In_replaceAt {A : Type} (i : nat) (x y : A) (l : list A) :
  In y (replaceAt i x l) -> y = x \/ In y l.
Proof.
  unfold replaceAt. intros H. apply in_app_or in H.
  destruct H as [H|[H|H]]; eauto using In_firstn, In_skipn.
Qed.

Lemma In_removeAt {A : Type} (i : nat) (y : A) (l : list A) :
  In y (removeAt i l) -> In y l.
Proof.
  revert i. induction l as [|a l IH]; intros [|i]; simpl; auto.
  intros [H|H]; eauto.
Qed.

Lemma settings_handle_members (c : Settings.Component) (visible : bool)
    (payload : Payload) (u : Settings.User) :
  In u (Settings.visibleUsers
          (fst (Settings.handlePresenceEvent c visible payload))) ->
  In u (Settings.visibleUsers c) \/
  (Settings.userId u = UserId__c payload /\
   UserId__c payload <> Settings.currentUserId c).
Proof.
  unfold Settings.handlePresenceEvent.
  destruct (strictEq (UserId__c payload) (Settings.currentUserId c)) eqn:Es;
    [now left|].
  apply strictEq_false in Es.
  destruct (negb _); [now left|].
  destruct (strictEq (State__c payload) "gone");
    destruct (findIndex _ _);
    cbn [fst Settings.setVisibleUsers Settings.visibleUsers]; intros H.
  - left. eapply In_removeAt, H.
  - now left.
  - apply In_replaceAt in H. destruct H as [->|H]; [right|left]; auto.
  - apply in_app_or in H. destruct H as [H|[<-|[]]]; [left|right]; auto.
Qed.

Lemma mobile_handle_members (c : Mobile.Component) (visible : bool)
    (payload : Payload) (u : Mobile.User) :
  In u (Mobile.visibleUsers
          (fst (Mobile.handlePresenceEvent c visible payload))) ->
  In u (Mobile.visibleUsers c) \/
  (Mobile.userId u = UserId__c payload /\
   UserId__c payload <> Mobile.currentUserId c).
Proof.
  unfold Mobile.handlePresenceEvent.
  destruct (strictEq (UserId__c payload) (Mobile.currentUserId c)) eqn:Es;
    [now left|].
  apply strictEq_false in Es.
  destruct (negb _); [now left|].
  destruct (strictEq (State__c payload) "gone");
    [destruct (IsMobile__c payload)|];
    destruct (findIndex _ _);
    cbn [fst Mobile.setVisibleUsers Mobile.visibleUsers]; intros H.
  - apply In_replaceAt in H. destruct H as [->|H]; [right|left]; auto.
  - apply in_app_or in H. destruct H as [H|[<-|[]]]; [left|right]; auto.
  - left. eapply In_removeAt, H.
  - now left.
  - apply In_replaceAt in H. destruct H as [->|H]; [right|left]; auto.
  - apply in_app_or in H. destruct H as [H|[<-|[]]]; [left|right]; auto.
Qed.

Lemma settings_apply_self_free (c : Settings.Component) (op : Op) :
  settingsSelfFree c -> settingsSelfFree (settingsApply c op).
Proof.
  unfold settingsSelfFree. intros Hc u Hu. destruct op as [d|now]; simpl in *.
  - unfold settingsStep in *.
    destruct (settings_handle_ids (Settings.setIsActive c (focus d))
                (hostVisible d) (event d)) as [Hid _].
    rewrite Hid. apply settings_handle_members in Hu.
    destruct Hu as [Hu|[Hu Hn]]; [now apply Hc|congruence].
  - apply settings_sweep_keeps in Hu. now apply Hc.
Qed.

Lemma mobile_apply_self_free (c : Mobile.Component) (op : Op) :
  mobileSelfFree c -> mobileSelfFree (mobileApply c op).
Proof.
  unfold mobileSelfFree. intros Hc u Hu. destruct op as [d|now]; simpl in *.
  - unfold mobileStep in *.
    destruct (mobile_handle_ids (Mobile.setIsActive c (focus d))
                (hostVisible d) (event d)) as [Hid _].
    rewrite Hid. apply mobile_handle_members in Hu.
    destruct Hu as [Hu|[Hu Hn]]; [now apply Hc|congruence].
  - apply mobile_sweep_keeps in Hu. now apply Hc.
Qed.

(** C5, as stated, fails in the revision that echoes the local session:
    a publication that resolves puts the record of the local user into the
    visible list. *)
Lemma local_session_echoed_into_visible_list :
  let c := echoComponent None [] in
  let c' := fst (SessionEcho.publishStateChange 1000 true c "active") in
  SessionEcho.currentUserId c' = "me" /\
  map SessionEcho.userId (SessionEcho.visibleUsers c') = ["me"] /\
  map SessionEcho.userName (SessionEcho.visibleUsers c') = ["Me (you)"].
Proof. repeat split. Qed.

(** C5, amended.  In the settings-driven and the form-factor aware
    revisions, deliveries and sweeps never bring a record of the local user
    into the visible list: a list free of such records stays free of them
    under every sequence of these operations.  In the session-map revision
    the list built by [updateVisibleUsers] never holds a record of the local
    user.  The revision that echoes the local session does put the local
    session's own record into the list, on purpose: [updateOwnPresence]
    always leaves one. *)
Theorem local_user_kept_out_except_echo :
  (forall c ops,
     settingsSelfFree c -> settingsSelfFree (fold_left settingsApply ops c)) /\
  (forall c ops,
     mobileSelfFree c -> mobileSelfFree (fold_left mobileApply ops c)) /\
  (forall now cur pm u,
     In u (SessionMap.updateVisibleUsers now cur pm) ->
     SessionMap.vUserId u <> cur) /\
  (forall now c st,
     exists u,
       In u (SessionEcho.visibleUsers (SessionEcho.updateOwnPresence now c st)) /\
       SessionEcho.userId u = SessionEcho.currentUserId c /\
       SessionEcho.sessionId u = SessionEcho.compSessionId c).
Proof.
  split; [|split; [|split]].
  - intros c ops. revert c.
    induction ops as [|op r IH]; intros c Hc; simpl; [assumption|].
    now apply IH, settings_apply_self_free.
  - intros c ops. revert c.
    induction ops as [|op r IH]; intros c Hc; simpl; [assumption|].
    now apply IH, mobile_apply_self_free.
  - intros now cur pm u Hu. apply sortBy_In in Hu.
    now apply (mergeSessions_exclude_current now cur pm).
  - intros now c st. unfold SessionEcho.updateOwnPresence.
    destruct (findIndex _ (SessionEcho.visibleUsers c)) as [i|] eqn:E;
      cbn [SessionEcho.setVisibleUsers SessionEcho.visibleUsers].
    + destruct (findIndex_Some _ _ _ E) as (l1 & x0 & l2 & Hl & Hlen & _).
      rewrite Hl, <- Hlen, replaceAt_split.
      eexists. split; [apply in_or_app; right; left; reflexivity|].
      split; reflexivity.
    + eexists. split; [apply in_or_app; right; left; reflexivity|].
      split; reflexivity.
Qed.

Lemma local_user_kept_out_except_echo_witness :
  let c := settingsComponent true [settingsUser "alice" "active" 1000 false] in
  let m := mobileComponent true [mobileUser "alice" "active" 1000 false true] in
  let ops := [Ingest (mkDelivery true true (eventOf "me" "active" 2000 false false));
              Ingest (mkDelivery true true (eventOf "bob" "active" 2000 false false));
              Sweep 3000] in
  settingsSelfFree (fold_left settingsApply ops c) /\
  mobileSelfFree (fold_left mobileApply ops m) /\
  (forall u, In u (SessionMap.updateVisibleUsers 1000 "me"
                     [session "me" "tab0" true false 990;
                      session "X" "tab1" true true 900]) ->
             SessionMap.vUserId u <> "me").
Proof.
  intros c m ops.
  destruct local_user_kept_out_except_echo as (H1 & H2 & H3 & _).
  split; [|split].
  - apply H1. intros u [<-|[]]. discriminate.
  - apply H2. intros u [<-|[]]. discriminate.
  - intros u. apply H3.
Defined.

(** ** Publication of the local state *)

(** C6, as stated, fails in the form-factor aware revision, which compares
    nothing before it publishes: a second call with the same state and the
    same draft status publishes again. *)
Lemma unchanged_state_published_again :
  let c1 := fst (Mobile.publishStateChange (mobileComponent true []) "active") in
  Mobile.currentState c1 = Some "active" /\
  Mobile.lastPublishedDraftStatus c1 = Mobile.hasDrafts c1 /\
  snd (Mobile.publishStateChange c1 "active")
  = Some {| Mobile.pubCaseId := "500A"; Mobile.pubState := "active";
            Mobile.pubHasDraft := false; Mobile.pubIsMobile := false |}.
Proof. repeat split. Qed.

(** C6, amended.  For a component that is active and shows a record: the
    settings-driven revision publishes nothing and changes nothing when the
    state and the draft status both equal the ones recorded at the last
    publication it attempted, and otherwise publishes the state with the
    draft status and records both (before the transport is called, whatever
    its outcome); the revision that echoes the local session does the same
    on the state alone, its only recorded field; the form-factor aware
    revision publishes at every call. *)
Theorem publication_suppressed_when_unchanged :
  (forall c newState caseId,
     Settings.recordId c = Some caseId ->
     Settings.isComponentActive c = true ->
     (Settings.currentState c = Some newState /\
      Settings.lastPublishedDraftStatus c = Settings.hasDrafts c ->
      Settings.publishStateChange c newState = (c, None)) /\
     (~ (Settings.currentState c = Some newState /\
         Settings.lastPublishedDraftStatus c = Settings.hasDrafts c) ->
      let c' := fst (Settings.publishStateChange c newState) in
      snd (Settings.publishStateChange c newState)
      = Some {| Settings.pubCaseId := caseId;
                Settings.pubState := newState;
                Settings.pubHasDraft := Settings.hasDrafts c |} /\
      Settings.currentState c' = Some newState /\
      Settings.lastPublishedDraftStatus c' = Settings.hasDrafts c /\
      Settings.hasDrafts c' = Settings.hasDrafts c)) /\
  (forall now resolved c newState caseId,
     SessionEcho.recordId c = Some caseId ->
     SessionEcho.isComponentActive c = true ->
     (SessionEcho.currentState c = Some newState ->
      SessionEcho.publishStateChange now resolved c newState = (c, None)) /\
     (SessionEcho.currentState c <> Some newState ->
      exists msg,
        snd (SessionEcho.publishStateChange now resolved c newState) = Some msg /\
        SessionEcho.pubState msg = newState /\
        SessionEcho.pubIsActive msg = SessionEcho.compIsActive c /\
        SessionEcho.currentState
          (fst (SessionEcho.publishStateChange now resolved c newState))
        = Some newState)) /\
  (forall c newState caseId,
     Mobile.recordId c = Some caseId ->
     Mobile.isComponentActive c = true ->
     snd (Mobile.publishStateChange c newState)
     = Some {| Mobile.pubCaseId := caseId;
               Mobile.pubState := newState;
               Mobile.pubHasDraft := Mobile.hasDrafts c;
               Mobile.pubIsMobile := Mobile.isMobileDevice c |}).
Proof.
  split; [|split].
  - intros c newState caseId Hrec Hact.
    unfold Settings.publishStateChange. rewrite Hrec, Hact. cbn [negb].
    split.
    + intros [Hst Hdr]. rewrite Hst, Hdr.
      unfold strictEq. rewrite String.eqb_refl, eqb_reflx. reflexivity.
    + intros Hch.
      destruct (match Settings.currentState c with
                | Some s => strictEq newState s
                | None => false
                end && Bool.eqb (Settings.lastPublishedDraftStatus c)
                         (Settings.hasDrafts c)) eqn:E.
      * exfalso. apply Hch. apply andb_prop in E. destruct E as [E1 E2].
        apply eqb_prop in E2. split; [|assumption].
        destruct (Settings.currentState c) as [s|]; [|discriminate].
        apply strictEq_true in E1. now subst.
      * cbn. repeat split.
  - intros now resolved c newState caseId Hrec Hact.
    unfold SessionEcho.publishStateChange. rewrite Hrec, Hact. cbn [negb].
    split.
    + intros Hst. rewrite Hst. unfold strictEq.
      now rewrite String.eqb_refl.
    + intros Hch.
      destruct (match SessionEcho.currentState c with
                | Some s => strictEq newState s
                | None => false
                end) eqn:E.
      * exfalso. apply Hch.
        destruct (SessionEcho.currentState c) as [s|]; [|discriminate].
        apply strictEq_true in E. now subst.
      * eexists. split; [reflexivity|]. split; [reflexivity|].
        split; [reflexivity|].
        destruct resolved; cbn [fst]; [|reflexivity].
        unfold SessionEcho.updateOwnPresence.
        destruct (findIndex _ _); reflexivity.
  - intros c newState caseId Hrec Hact.
    unfold Mobile.publishStateChange. now rewrite Hrec, Hact.
Qed.

Lemma publication_suppressed_when_unchanged_witness :
  let c0 := settingsComponent true [] in
  let c1 := fst (Settings.publishStateChange c0 "active") in
  let e1 := echoComponent (Some "drafting") [] in
  snd (Settings.publishStateChange c0 "active")
  = Some {| Settings.pubCaseId := "500A"; Settings.pubState := "active";
            Settings.pubHasDraft := false |} /\
  Settings.publishStateChange c1 "active" = (c1, None) /\
  SessionEcho.publishStateChange 1000 true e1 "drafting" = (e1, None) /\
  snd (Mobile.publishStateChange (mobileComponent true []) "idle")
  = Some {| Mobile.pubCaseId := "500A"; Mobile.pubState := "idle";
            Mobile.pubHasDraft := false; Mobile.pubIsMobile := false |}.
Proof.
  intros c0 c1 e1.
  destruct publication_suppressed_when_unchanged as (H1 & H2 & H3).
  split; [|split; [|split]].
  - apply (H1 c0 "active" "500A"); [reflexivity|reflexivity|].
    intros [H _]. discriminate.
  - apply (H1 c1 "active" "500A"); [reflexivity|reflexivity|].
    split; reflexivity.
  - apply (H2 1000 true e1 "drafting" "500A"); reflexivity.
  - apply (H3 (mobileComponent true []) "idle" "500A"); reflexivity.
Defined.


(** * Further properties *)

(** ** The insertion-ordered map *)

Section MapFacts.
Context {V : Type}.
Implicit Types (m : list (string * V)) (k : string) (v : V).

Lemma mapGet_mapSet_same k v m : mapGet k (mapSet k v m) = Some v.
Proof.
  induction m as [|[k' v'] r IH]; simpl.
  - unfold strictEq. now rewrite String.eqb_refl.
  - destruct (strictEq k' k) eqn:E; simpl; now rewrite E.
Qed.

Lemma mapGet_mapSet_other k k0 v m :
  k0 <> k -> mapGet k0 (mapSet k v m) = mapGet k0 m.
Proof.
  intros Hk. induction m as [|[k' v'] r IH]; simpl.
  - now rewrite (proj2 (strictEq_false k k0)) by congruence.
  - destruct (strictEq k' k) eqn:E; simpl.
    + apply strictEq_true in E. subst k'.
      now rewrite (proj2 (strictEq_false k k0)) by congruence.
    + now rewrite IH.
Qed.

Lemma mapSet_keys k v m :
  map fst (mapSet k v m) =
  if existsb (fun e => strictEq (fst e) k) m then map fst m
  else map fst m ++ [k].
Proof.
  induction m as [|[k' v'] r IH]; simpl; [reflexivity|].
  destruct (strictEq k' k) eqn:E; simpl; [reflexivity|].
  rewrite IH. now destruct (existsb _ r).
Qed.

Lemma mapSet_NoDup k v m : NoDup (map fst m) -> NoDup (map fst (mapSet k v m)).
Proof.
  intros Hnd. rewrite mapSet_keys.
  destruct (existsb _ m) eqn:E; [assumption|].
  apply NoDup_app; [assumption|repeat constructor; intros []|].
  intros a Ha [<-|[]]. apply in_map_iff in Ha. destruct Ha as (e & He & Hin).
  assert (Hex : existsb (fun e => strictEq (fst e) k) m = true).
  { apply existsb_exists. exists e. split; [assumption|].
    now apply strictEq_true. }
  congruence.
Qed.

Lemma mapSet_In k v m (e : string * V) :
  In e (mapSet k v m) -> e = (k, v) \/ In e m.
Proof.
  induction m as [|[k' v'] r IH]; simpl.
  - intros [<-|[]]. now left.
  - destruct (strictEq k' k) eqn:E; simpl; intros [<-|H].
    + apply strictEq_true in E. subst. now left.
    + right. now right.
    + right. now left.
    + destruct (IH H) as [->|Hin]; [now left|right; now right].
Qed.

Lemma mapDelete_In k m (e : string * V) : In e (mapDelete k m) -> In e m.
Proof.
  induction m as [|[k' v'] r IH]; simpl; [auto|].
  destruct (strictEq k' k); simpl; [now right|].
  intros [<-|H]; [now left|right; auto].
Qed.

Lemma mapDelete_keys_In k m (a : string) :
  In a (map fst (mapDelete k m)) -> In a (map fst m).
Proof.
  intros H. apply in_map_iff in H. destruct H as (e & <- & He).
  apply in_map. now apply (mapDelete_In k).
Qed.

Lemma mapDelete_NoDup k m :
  NoDup (map fst m) -> NoDup (map fst (mapDelete k m)).
Proof.
  induction m as [|[k' v'] r IH]; simpl; intros Hnd; [constructor|].
  inversion Hnd as [|? ? Hk Hr]; subst.
  destruct (strictEq k' k); simpl; [assumption|].
  constructor; [|auto]. intros Hin. apply Hk.
  now apply (mapDelete_keys_In k).
Qed.

(** With distinct keys, [delete] takes away the entry of the key and no
    other. *)
Lemma mapDelete_spec k m (e : string * V) :
  NoDup (map fst m) ->
  (In e (mapDelete k m) <-> In e m /\ fst e <> k).
Proof.
  induction m as [|[k' v'] r IH]; simpl; intros Hnd; [tauto|].
  inversion Hnd as [|? ? Hk Hr]; subst.
  destruct (strictEq k' k) eqn:E; simpl.
  - apply strictEq_true in E. subst k'. split.
    + intros H. split; [now right|]. intros <-. apply Hk. now apply in_map.
    + intros [[<-|H] Hne]; [now contradiction Hne|assumption].
  - apply strictEq_false in E. rewrite (IH Hr). split.
    + intros [<-|[H Hne]]; [split; [now left|assumption]|split; auto].
    + intros [[<-|H] Hne]; [now left|right; auto].
Qed.

Lemma mapGet_In k m v :
  mapGet k m = Some v -> In (k, v) m.
Proof.
  induction m as [|[k' v'] r IH]; simpl; [discriminate|].
  destruct (strictEq k' k) eqn:E.
  - apply strictEq_true in E. intros [= <-]. subst. now left.
  - intros H. right. auto.
Qed.

Lemma mapGet_None k m :
  mapGet k m = None <-> ~ In k (map fst m).
Proof.
  induction m as [|[k' v'] r IH]; simpl; [tauto|].
  destruct (strictEq k' k) eqn:E.
  - apply strictEq_true in E. split; [discriminate|]. intros H.
    exfalso. apply H. now left.
  - apply strictEq_false in E. rewrite IH. tauto.
Qed.
End MapFacts.

(** ** The ledger of the session-map revision *)

Lemma sessionsOf_nonempty (u : string) (pm : SessionMap.PresenceMap) :
  sessionsOf u pm <> [] <->
  exists k p, In (k, p) pm /\ SessionMap.userId p = u.
Proof.
  unfold sessionsOf. split.
  - intros H. destruct (filter _ (map snd pm)) as [|s r] eqn:E;
      [contradiction|].
    assert (Hs : In s (filter (fun p => strictEq (SessionMap.userId p) u)
                         (map snd pm))) by (rewrite E; now left).
    apply filter_In in Hs. destruct Hs as [Hs Hu].
    apply in_map_iff in Hs. destruct Hs as ([k p] & <- & Hin).
    exists k, p. split; [assumption|]. now apply strictEq_true.
  - intros (k & p & Hin & Hu) E.
    assert (Hs : In p (filter (fun p => strictEq (SessionMap.userId p) u)
                         (map snd pm))).
    { apply filter_In. split; [|now apply strictEq_true].
      apply in_map_iff. now exists (k, p). }
    rewrite E in Hs. contradiction.
Qed.

(** A user is in the merged list exactly when it is not the local user and
    has a session in the map. *)
Lemma visible_iff_session (now : Z) (cur : string)
    (pm : SessionMap.PresenceMap) (u : string) :
  (exists e, In e (SessionMap.updateVisibleUsers now cur pm) /\
             SessionMap.vUserId e = u) <->
  (u <> cur /\ sessionsOf u pm <> []).
Proof.
  split.
  - intros (e & He & Hu). apply sortBy_In in He.
    assert (Hc : u <> cur).
    { rewrite <- Hu. now apply (mergeSessions_exclude_current now cur pm). }
    split; [assumption|]. intros Hs.
    pose proof (mergeSessions_find now cur u pm Hc) as Hf.
    rewrite Hs in Hf.
    apply (find_none _ _ Hf) in He. simpl in He.
    apply strictEq_false in He. contradiction.
  - intros [Hc Hs].
    destruct (merged_view now cur pm u Hc Hs) as (e & He & Hu & _).
    now exists e.
Qed.

(** X1.  An event of another session for the case shown, other than 'gone',
    is stored under the key of its session with the state, the activity flag
    and the timestamp of the event; the name is the one already stored for
    the session or, for a new session, "User " and the first eight
    characters of the user id (the name in the event is not used); the
    other sessions are untouched and the visible list is rebuilt from the new
    map. *)
Theorem ledger_event_is_stored (now : Z) (c : Ledger.Component)
    (payload : Payload) :
  Ledger.recordId c = Some (CaseId__c payload) ->
  SessionId__c payload <> Ledger.ownSessionId c ->
  State__c payload <> "gone" ->
  let key := Ledger.sessionKey (UserId__c payload) (SessionId__c payload) in
  let c' := fst (Ledger.handlePresenceEvent now c payload) in
  (exists r,
     mapGet key (Ledger.presenceMap c') = Some r /\
     SessionMap.userId r = UserId__c payload /\
     SessionMap.sessionId r = SessionId__c payload /\
     SessionMap.state r = State__c payload /\
     SessionMap.isActive r = IsActive__c payload /\
     SessionMap.timestamp r = Timestamp__c payload /\
     SessionMap.userName r =
       match mapGet key (Ledger.presenceMap c) with
       | Some e => if strictEq (SessionMap.userName e) ""
                   then fallbackName (UserId__c payload)
                   else SessionMap.userName e
       | None => fallbackName (UserId__c payload)
       end) /\
  (forall k, k <> key ->
     mapGet k (Ledger.presenceMap c') = mapGet k (Ledger.presenceMap c)) /\
  Ledger.visibleUsers c' =
    SessionMap.updateVisibleUsers now (Ledger.currentUserId c)
      (Ledger.presenceMap c').
Proof.
  intros Hrec Hown Hst key c'. subst c'. unfold Ledger.handlePresenceEvent.
  rewrite (proj2 (sameRecord_true _ _) Hrec).
  rewrite (proj2 (strictEq_false _ _) Hown).
  rewrite (proj2 (strictEq_false _ _) Hst).
  cbn [negb fst Ledger.setPresence Ledger.presenceMap Ledger.visibleUsers].
  fold key. split; [|split; [|reflexivity]].
  - eexists. split; [apply mapGet_mapSet_same|].
    cbn. repeat split.
    destruct (mapGet key (Ledger.presenceMap c)); reflexivity.
  - intros k Hk. now apply mapGet_mapSet_other.
Qed.

Lemma ledger_event_is_stored_witness :
  let c := ledgerComponent [session "X" "tab1" true false 900] in
  let payload := sessionEvent "X" "tab2" "editing" true 950 in
  let c' := fst (Ledger.handlePresenceEvent 1000 c payload) in
  (exists r,
     mapGet "X-tab2" (Ledger.presenceMap c') = Some r /\
     SessionMap.state r = "editing" /\
     SessionMap.timestamp r = 950 /\
     SessionMap.userName r = "User X") /\
  mapGet "X-tab1" (Ledger.presenceMap c')
  = mapGet "X-tab1" (Ledger.presenceMap c).
Proof.
  intros c payload c'.
  destruct (ledger_event_is_stored 1000 c payload)
    as ((r & H1 & _ & _ & H4 & _ & H6 & H7) & H8 & _);
    [reflexivity|discriminate|discriminate|].
  split.
  - exists r. repeat split; assumption.
  - apply H8. discriminate.
Defined.

Lemma markDraft_named (d : SessionMap.Draft) (p : SessionMap.Presence) :
  SessionMap.userName p <> "" ->
  SessionMap.markDraft d p =
  flagEditing (strictEq (SessionMap.userId p) (SessionMap.draftUserId d)) p.
Proof.
  intros Hn. unfold SessionMap.markDraft, flagEditing.
  destruct (strictEq (SessionMap.userId p) (SessionMap.draftUserId d));
    [|reflexivity].
  now rewrite (proj2 (strictEq_false _ _) Hn).
Qed.

Lemma flagEditing_or (a b : bool) (p : SessionMap.Presence) :
  flagEditing b (flagEditing a p) = flagEditing (a || b) p.
Proof. now destruct a, b. Qed.

Lemma markAll_named (drafts : list SessionMap.Draft)
    (p : SessionMap.Presence) :
  SessionMap.userName p <> "" ->
  markAll drafts p =
  flagEditing (existsb (fun d => strictEq (SessionMap.userId p)
                                   (SessionMap.draftUserId d)) drafts) p.
Proof.
  revert p. induction drafts as [|d r IH]; intros p Hn; [reflexivity|].
  unfold markAll in *. cbn [fold_left existsb].
  rewrite (markDraft_named d p Hn).
  set (b := strictEq (SessionMap.userId p) (SessionMap.draftUserId d)).
  rewrite IH by (now destruct b).
  rewrite flagEditing_or. now destruct b.
Qed.

Lemma ledger_apply_wf (c : Ledger.Component) (op : LedgerOp) :
  ledgerWf c -> ledgerWf (ledgerApply c op).
Proof.
  intros [Hnd Hall]. destruct op as [now payload|now|now drafts]; simpl.
  - unfold Ledger.handlePresenceEvent.
    destruct (negb _); [now split|].
    destruct (strictEq (SessionId__c payload) (Ledger.ownSessionId c)) eqn:Eo;
      [now split|].
    apply strictEq_false in Eo.
    destruct (strictEq (State__c payload) "gone").
    + destruct (mapGet _ (Ledger.presenceMap c)) as [existing|]; [|now split].
      cbn [fst Ledger.setPresence]. split; cbn.
      * now apply mapDelete_NoDup.
      * intros k p Hin. apply mapDelete_In in Hin. now apply Hall.
    + cbn [fst Ledger.setPresence]. split; cbn.
      * now apply mapSet_NoDup.
      * intros k p Hin. apply mapSet_In in Hin.
        destruct Hin as [Heq|Hin]; [|now apply Hall].
        injection Heq as Hk Hp. subst k p. cbn. repeat split; [assumption|].
        destruct (strictEq _ "") eqn:En; [discriminate|].
        now apply strictEq_false.
  - unfold Ledger.cleanupStalePresence. cbn [fst].
    destruct (existsb _ _); [|now split].
    split; cbn.
    + now apply NoDup_map_filter.
    + intros k p Hin. apply filter_In in Hin. now apply Hall.
  - unfold Ledger.checkForDrafts. rewrite checkForDrafts_map.
    split; cbn.
    + rewrite map_map. exact Hnd.
    + intros k p Hin. apply in_map_iff in Hin.
      destruct Hin as ([k0 p0] & Heq & Hin). injection Heq as Hk0 Hp0.
      subst k p. cbn [fst snd] in *.
      destruct (Hall _ _ Hin) as (Hk & Ho & Hn). cbn.
      rewrite (markAll_named drafts p0 Hn).
      now destruct (existsb _ drafts).
Qed.

(** X2.  The ledger stays well formed under every sequence of events,
    clean-ups and draft checks: its keys stay distinct, each entry stays
    under the key of its own session, no session of the component itself is
    ever stored, and no stored name is empty. *)
Theorem ledger_stays_well_formed (c : Ledger.Component)
    (ops : list LedgerOp) :
  ledgerWf c -> ledgerWf (fold_left ledgerApply ops c).
Proof.
  revert c. induction ops as [|op r IH]; intros c Hc; simpl; [assumption|].
  now apply IH, ledger_apply_wf.
Qed.

Lemma ledger_stays_well_formed_witness :
  ledgerWf
    (fold_left ledgerApply
       [LEvent 1000 (sessionEvent "X" "tab1" "viewing" true 990);
        LEvent 1001 (sessionEvent "me" "s-me" "viewing" true 991);
        LDrafts 1002 [SessionMap.mkDraft "X" "Xavier" "photo"];
        LCleanup 2000000]
       (ledgerComponent [])).
Proof.
  apply ledger_stays_well_formed. split; simpl; [constructor|].
  intros k p [].
Defined.

Lemma ledger_apply_user (c : Ledger.Component) (op : LedgerOp) :
  Ledger.currentUserId (ledgerApply c op) = Ledger.currentUserId c.
Proof.
  destruct op as [now payload|now|now drafts]; simpl; [| |reflexivity].
  - unfold Ledger.handlePresenceEvent.
    repeat match goal with
           | |- context [if ?b then _ else _] => destruct b
           | |- context [match mapGet ?k ?m with _ => _ end] =>
               destruct (mapGet k m)
           end; reflexivity.
  - unfold Ledger.cleanupStalePresence. cbn [fst].
    now destruct (existsb _ _).
Qed.

Lemma ledger_apply_synced (c : Ledger.Component) (op : LedgerOp) :
  ledgerSynced c -> ledgerSynced (ledgerApply c op).
Proof.
  intros Hc. destruct op as [now payload|now|now drafts]; simpl.
  - unfold Ledger.handlePresenceEvent.
    destruct (negb _); [assumption|].
    destruct (strictEq (SessionId__c payload) _); [assumption|].
    destruct (strictEq (State__c payload) "gone").
    + destruct (mapGet _ (Ledger.presenceMap c)); [|assumption].
      now exists now.
    + now exists now.
  - unfold Ledger.cleanupStalePresence. cbn [fst].
    destruct (existsb _ _); [|assumption]. now exists now.
  - now exists now.
Qed.

(** X3.  From a component whose visible list is the merge of its presence
    map, every sequence of events, clean-ups and draft checks leads to one
    where it is so again; hence a user is in the visible list exactly when
    it is not the local user and has a session in the presence map: a user
    whose sessions are all gone or expired leaves no record behind. *)
Theorem ledger_view_tracks_map (c : Ledger.Component) (ops : list LedgerOp) :
  ledgerSynced c ->
  let c' := fold_left ledgerApply ops c in
  ledgerSynced c' /\
  forall u,
    (exists e, In e (Ledger.visibleUsers c') /\ SessionMap.vUserId e = u) <->
    (u <> Ledger.currentUserId c /\ sessionsOf u (Ledger.presenceMap c') <> []).
Proof.
  intros Hc c'.
  assert (H : ledgerSynced c' /\
              Ledger.currentUserId c' = Ledger.currentUserId c).
  { subst c'. revert c Hc. induction ops as [|op r IH]; intros c Hc; simpl;
      [now split|].
    destruct (IH (ledgerApply c op) (ledger_apply_synced c op Hc)) as [H1 H2].
    split; [assumption|]. now rewrite H2, ledger_apply_user. }
  destruct H as [Hs Hu]. split; [assumption|].
  destruct Hs as [now Hs]. intros u. rewrite Hs, Hu.
  apply visible_iff_session.
Qed.

Lemma ledger_view_tracks_map_witness :
  let c' := fold_left ledgerApply
              [LEvent 1000 (sessionEvent "X" "tab1" "viewing" true 990);
               LEvent 1001 (sessionEvent "X" "tab1" "gone" false 995)]
              (ledgerComponent []) in
  ledgerSynced c' /\
  forall u,
    (exists e, In e (Ledger.visibleUsers c') /\ SessionMap.vUserId e = u) <->
    (u <> "me" /\ sessionsOf u (Ledger.presenceMap c') <> []).
Proof.
  intros c'. apply (ledger_view_tracks_map (ledgerComponent [])).
  now exists 0.
Defined.

(** X4.  A 'gone' event for a stored session of another user removes that
    session only: the user stays in the visible list exactly when another
    of its sessions is in the map (closing one of two tabs does not remove
    the user). *)
Theorem gone_session_leaves_other_tabs (now : Z) (c : Ledger.Component)
    (payload : Payload) (r : SessionMap.Presence) :
  ledgerWf c ->
  Ledger.recordId c = Some (CaseId__c payload) ->
  SessionId__c payload <> Ledger.ownSessionId c ->
  UserId__c payload <> Ledger.currentUserId c ->
  State__c payload = "gone" ->
  let key := Ledger.sessionKey (UserId__c payload) (SessionId__c payload) in
  mapGet key (Ledger.presenceMap c) = Some r ->
  let c' := fst (Ledger.handlePresenceEvent now c payload) in
  (forall e, In e (Ledger.presenceMap c') <->
             In e (Ledger.presenceMap c) /\ fst e <> key) /\
  ((exists e, In e (Ledger.visibleUsers c') /\
              SessionMap.vUserId e = UserId__c payload) <->
   (exists k p, In (k, p) (Ledger.presenceMap c) /\ k <> key /\
                SessionMap.userId p = UserId__c payload)).
Proof.
  intros [Hnd Hall] Hrec Hown Hcur Hst key Hget c'.
  assert (Hc' : c' = Ledger.setPresence c
                       (mapDelete key (Ledger.presenceMap c))
                       (SessionMap.updateVisibleUsers now
                          (Ledger.currentUserId c)
                          (mapDelete key (Ledger.presenceMap c)))).
  { subst c'. unfold Ledger.handlePresenceEvent.
    rewrite (proj2 (sameRecord_true _ _) Hrec).
    rewrite (proj2 (strictEq_false _ _) Hown). rewrite Hst.
    change (strictEq "gone" "gone") with true. cbn [negb]. fold key.
    now rewrite Hget. }
  rewrite Hc'. cbn [Ledger.setPresence Ledger.presenceMap Ledger.visibleUsers].
  split.
  - intros e. now apply mapDelete_spec.
  - rewrite visible_iff_session, sessionsOf_nonempty. split.
    + intros (_ & k & p & Hin & Hu). apply mapDelete_spec in Hin; [|assumption].
      exists k, p. tauto.
    + intros (k & p & Hin & Hk & Hu). split; [assumption|].
      exists k, p. split; [|assumption]. apply mapDelete_spec; auto.
Qed.

Lemma gone_session_leaves_other_tabs_witness :
  let c := ledgerComponent [session "X" "tab1" true false 900;
                            session "X" "tab2" false false 950] in
  let payload := sessionEvent "X" "tab1" "gone" false 960 in
  let c' := fst (Ledger.handlePresenceEvent 1000 c payload) in
  (exists e, In e (Ledger.visibleUsers c') /\ SessionMap.vUserId e = "X") <->
  (exists k p, In (k, p) (Ledger.presenceMap c) /\ k <> "X-tab1" /\
               SessionMap.userId p = "X").
Proof.
  intros c payload c'.
  apply (gone_session_leaves_other_tabs 1000 c payload
           (snd (session "X" "tab1" true false 900))); try reflexivity;
    try discriminate.
  split; simpl.
  - repeat constructor; simpl; intuition discriminate.
  - intros k p [H|[H|[]]]; injection H as <- <-; simpl;
      repeat split; discriminate.
Defined.

(** X5.  In a well-formed ledger a draft check changes nothing of a session
    but its two draft flags, set for the sessions of the users with a draft:
    the name and the photo of a draft are never copied, since no stored name
    is empty. *)
Theorem draft_check_only_sets_flags (now : Z) (c : Ledger.Component)
    (drafts : list SessionMap.Draft) :
  ledgerWf c ->
  Ledger.presenceMap (Ledger.checkForDrafts now c drafts) =
  map (fun entry =>
         (fst entry,
          flagEditing
            (existsb (fun d => strictEq (SessionMap.userId (snd entry))
                                 (SessionMap.draftUserId d)) drafts)
            (snd entry)))
      (Ledger.presenceMap c).
Proof.
  intros [_ Hall]. unfold Ledger.checkForDrafts.
  cbn [Ledger.setPresence Ledger.presenceMap].
  rewrite checkForDrafts_map. apply map_ext_in. intros [k p] Hin.
  cbn [fst snd]. f_equal. apply markAll_named. now apply (Hall k p).
Qed.

Lemma draft_check_only_sets_flags_witness :
  let c := fst (Ledger.handlePresenceEvent 1000 (ledgerComponent [])
                  (sessionEvent "X" "tab1" "viewing" true 990)) in
  map (fun e => (SessionMap.userName (snd e), SessionMap.isEditing (snd e)))
      (Ledger.presenceMap
         (Ledger.checkForDrafts 1001 c [SessionMap.mkDraft "X" "Xavier" "p"]))
  = [("User X", true)].
Proof.
  intros c.
  rewrite (draft_check_only_sets_flags 1001 c
             [SessionMap.mkDraft "X" "Xavier" "p"]); [reflexivity|].
  split; simpl; [repeat constructor; intros []|].
  intros k p [H|[]]. injection H as <- <-. simpl.
  repeat split; discriminate.
Defined.

Lemma removedUsers_spec (cutoff : Z) (pm : SessionMap.PresenceMap)
    (seen : list (string * string)) :
  NoDup (map fst seen) ->
  NoDup (map fst (Ledger.removedUsers cutoff pm seen)) /\
  forall u,
    In u (map fst (Ledger.removedUsers cutoff pm seen)) <->
    In u (map fst seen) \/
    exists k p, In (k, p) pm /\ SessionMap.userId p = u /\
                SessionMap.timestamp p < cutoff.
Proof.
  revert seen. induction pm as [|[k p] pm IH]; intros seen Hnd; simpl.
  - split; [assumption|]. intros u. split; [now left|].
    intros [H|(k & p & [] & _)]. assumption.
  - destruct (SessionMap.timestamp p <? cutoff) eqn:E.
    + apply Z.ltb_lt in E.
      destruct (mapGet (SessionMap.userId p) seen) as [n|] eqn:Eg.
      * destruct (IH seen Hnd) as [H1 H2]. split; [assumption|].
        intros u. rewrite H2. split.
        -- intros [H|(k' & p' & Hin & Hu & Ht)]; [now left|].
           right. exists k', p'. auto.
        -- intros [H|(k' & p' & [Heq|Hin] & Hu & Ht)]; [now left| |].
           ++ injection Heq as <- <-. left. rewrite <- Hu.
              apply mapGet_In in Eg.
              change (SessionMap.userId p)
                with (fst (SessionMap.userId p, n)).
              now apply in_map.
           ++ right. exists k', p'. auto.
      * apply mapGet_None in Eg.
        assert (Hnd' : NoDup (map fst (seen ++ [(SessionMap.userId p,
                                                  SessionMap.userName p)]))).
        { rewrite map_app. simpl. apply NoDup_app; auto.
          - repeat constructor. intros [].
          - intros a Ha [<-|[]]. contradiction. }
        destruct (IH _ Hnd') as [H1 H2]. split; [assumption|].
        intros u. rewrite H2, map_app, in_app_iff. simpl. split.
        -- intros [[H|[<-|[]]]|(k' & p' & Hin & Hu & Ht)].
           ++ now left.
           ++ right. exists k, p. auto.
           ++ right. exists k', p'. auto.
        -- intros [H|(k' & p' & [Heq|Hin] & Hu & Ht)].
           ++ left. now left.
           ++ injection Heq as <- <-. left. right. now left.
           ++ right. exists k', p'. auto.
    + apply Z.ltb_ge in E. destruct (IH seen Hnd) as [H1 H2].
      split; [assumption|]. intros u. rewrite H2. split.
      * intros [H|(k' & p' & Hin & Hu & Ht)]; [now left|].
        right. exists k', p'. auto.
      * intros [H|(k' & p' & [Heq|Hin] & Hu & Ht)]; [now left| |].
        -- injection Heq as <- <-. lia.
        -- right. exists k', p'. auto.
Qed.

Lemma goneToasts_length (c : Ledger.Component)
    (removed : list (string * string)) :
  List.length
    (flat_map (fun ru => Ledger.showGoneToast c (fst ru) (snd ru)) removed)
  = if showLeaveToasts (Ledger.settings c)
    then List.length
           (filter (fun ru => negb (strictEq (fst ru) (Ledger.currentUserId c)))
                   removed)
    else O.
Proof.
  induction removed as [|[u n] r IH]; simpl.
  - now destruct (showLeaveToasts _).
  - rewrite length_app, IH. unfold Ledger.showGoneToast.
    destruct (strictEq u (Ledger.currentUserId c));
      destruct (showLeaveToasts (Ledger.settings c)); reflexivity.
Qed.

(** X6.  The clean-up keeps a session exactly when its age is at most the
    expiration window (a session exactly as old as the window stays, unlike
    under the sweep of the other revisions), in the order of the map.  The
    users it reports as removed are the users of the stale sessions, each
    once; it shows one toast for each of them other than the local user if
    leave toasts are enabled, and none otherwise. *)
Theorem cleanup_keeps_sessions_within_window (now : Z)
    (c : Ledger.Component) :
  let window := Ledger.presenceExpirationMinutes c * 60 * 1000 in
  let c' := fst (Ledger.cleanupStalePresence now c) in
  let removed := Ledger.removedUsers (now - window) (Ledger.presenceMap c) [] in
  Ledger.presenceMap c' =
    filter (fun e => now - SessionMap.timestamp (snd e) <=? window)
           (Ledger.presenceMap c) /\
  NoDup (map fst removed) /\
  (forall u, In u (map fst removed) <->
     exists k p, In (k, p) (Ledger.presenceMap c) /\
                 SessionMap.userId p = u /\
                 window < now - SessionMap.timestamp p) /\
  List.length (snd (Ledger.cleanupStalePresence now c)) =
    if showLeaveToasts (Ledger.settings c)
    then List.length
           (filter (fun ru => negb (strictEq (fst ru) (Ledger.currentUserId c)))
                   removed)
    else O.
Proof.
  intros window c' removed.
  assert (Hf : forall l : SessionMap.PresenceMap,
             filter (fun e => negb (SessionMap.timestamp (snd e)
                                    <? now - window)) l
             = filter (fun e => now - SessionMap.timestamp (snd e) <=? window)
                      l).
  { intros l. apply filter_ext. intros e.
    destruct (Z.ltb_spec (SessionMap.timestamp (snd e)) (now - window));
      destruct (Z.leb_spec (now - SessionMap.timestamp (snd e)) window);
      simpl; auto; lia. }
  split; [|split; [|split]].
  - subst c'. unfold Ledger.cleanupStalePresence. cbn [fst]. fold window.
    destruct (existsb _ (Ledger.presenceMap c)) eqn:E.
    + cbn [Ledger.setPresence Ledger.presenceMap]. apply Hf.
    + rewrite <- Hf. symmetry. apply forallb_filter_id.
      apply forallb_forall. intros e He.
      destruct (SessionMap.timestamp (snd e) <? now - window) eqn:Et;
        [|reflexivity].
      assert (Hex : existsb (fun entry => SessionMap.timestamp (snd entry)
                                          <? now - window)
                      (Ledger.presenceMap c) = true)
        by (apply existsb_exists; now exists e).
      congruence.
  - apply removedUsers_spec. constructor.
  - intros u.
    destruct (removedUsers_spec (now - window) (Ledger.presenceMap c) [])
      as [_ H]; [constructor|].
    fold removed in H. rewrite H. split.
    + intros [[]|(k & p & Hin & Hu & Ht)]. exists k, p.
      repeat split; auto. lia.
    + intros (k & p & Hin & Hu & Ht). right. exists k, p.
      repeat split; auto. lia.
  - unfold Ledger.cleanupStalePresence. cbn [snd]. fold window removed.
    apply goneToasts_length.
Qed.

(** ** The editing flag of a stored session *)

Lemma NoDup_mapGet_In {V : Type} (k : string) (v : V)
    (m : list (string * V)) :
  NoDup (map fst m) -> In (k, v) m -> mapGet k m = Some v.
Proof.
  induction m as [|[k' v'] r IH]; simpl; intros Hnd Hin; [contradiction|].
  inversion Hnd as [|? ? Hk Hr]; subst.
  destruct Hin as [Heq|Hin].
  - injection Heq as -> ->. unfold strictEq. now rewrite String.eqb_refl.
  - destruct (strictEq k' k) eqn:E; [|auto].
    apply strictEq_true in E. subst k'. exfalso. apply Hk.
    change k with (fst (k, v)). now apply in_map.
Qed.

Lemma markDraft_keeps (d : SessionMap.Draft) (p : SessionMap.Presence) :
  SessionMap.isActive (SessionMap.markDraft d p) = SessionMap.isActive p /\
  SessionMap.timestamp (SessionMap.markDraft d p) = SessionMap.timestamp p.
Proof.
  unfold SessionMap.markDraft.
  now destruct (strictEq (SessionMap.userId p) (SessionMap.draftUserId d)).
Qed.

Lemma markAll_keeps (drafts : list SessionMap.Draft) (p : SessionMap.Presence) :
  SessionMap.isActive (markAll drafts p) = SessionMap.isActive p /\
  SessionMap.timestamp (markAll drafts p) = SessionMap.timestamp p.
Proof.
  revert p. induction drafts as [|d r IH]; intros p; [now split|].
  unfold markAll in *. cbn [fold_left].
  destruct (IH (SessionMap.markDraft d p)) as [H1 H2].
  destruct (markDraft_keeps d p) as [H3 H4]. split; congruence.
Qed.

Lemma ledger_apply_ids (c : Ledger.Component) (op : LedgerOp) :
  Ledger.recordId (ledgerApply c op) = Ledger.recordId c /\
  Ledger.ownSessionId (ledgerApply c op) = Ledger.ownSessionId c.
Proof.
  destruct op as [now payload|now|now drafts]; simpl; [| |now split].
  - unfold Ledger.handlePresenceEvent.
    repeat match goal with
           | |- context [if ?b then _ else _] => destruct b
           | |- context [match mapGet ?k ?m with _ => _ end] =>
               destruct (mapGet k m)
           end; now split.
  - unfold Ledger.cleanupStalePresence. cbn [fst].
    now destruct (existsb _ _).
Qed.

Lemma ledger_run_ids (c : Ledger.Component) (ops : list LedgerOp) :
  Ledger.recordId (fold_left ledgerApply ops c) = Ledger.recordId c /\
  Ledger.ownSessionId (fold_left ledgerApply ops c) = Ledger.ownSessionId c /\
  Ledger.currentUserId (fold_left ledgerApply ops c) = Ledger.currentUserId c.
Proof.
  revert c. induction ops as [|op r IH]; intros c; simpl; [auto|].
  destruct (IH (ledgerApply c op)) as (H1 & H2 & H3).
  destruct (ledger_apply_ids c op) as [H4 H5].
  pose proof (ledger_apply_user c op) as H6.
  repeat split; congruence.
Qed.

(** The keys of the ledger stay distinct. *)
Lemma ledger_apply_distinct (c : Ledger.Component) (op : LedgerOp) :
  NoDup (map fst (Ledger.presenceMap c)) ->
  NoDup (map fst (Ledger.presenceMap (ledgerApply c op))).
Proof.
  intros Hnd. destruct op as [now payload|now|now drafts]; cbn [ledgerApply].
  - unfold Ledger.handlePresenceEvent.
    destruct (negb _); [assumption|].
    destruct (strictEq (SessionId__c payload) (Ledger.ownSessionId c));
      [assumption|].
    destruct (strictEq (State__c payload) "gone").
    + destruct (mapGet _ (Ledger.presenceMap c)) as [existing|];
        [|assumption].
      cbn [fst Ledger.setPresence Ledger.presenceMap].
      now apply mapDelete_NoDup.
    + cbn [fst Ledger.setPresence Ledger.presenceMap].
      now apply mapSet_NoDup.
  - unfold Ledger.cleanupStalePresence. cbn [fst].
    destruct (existsb _ _); [|assumption].
    cbn [Ledger.setPresence Ledger.presenceMap].
    now apply NoDup_map_filter.
  - unfold Ledger.checkForDrafts. rewrite checkForDrafts_map.
    cbn [Ledger.setPresence Ledger.presenceMap].
    rewrite map_map. exact Hnd.
Qed.

Lemma ledger_run_distinct (c : Ledger.Component) (ops : list LedgerOp) :
  NoDup (map fst (Ledger.presenceMap c)) ->
  NoDup (map fst (Ledger.presenceMap (fold_left ledgerApply ops c))).
Proof.
  revert c. induction ops as [|op r IH]; intros c Hnd; simpl; [assumption|].
  now apply IH, ledger_apply_distinct.
Qed.

(** An operation other than an event of the session leaves what is stored
    under its key as it is, but for the editing flag, which a draft check
    that returns a draft of the user sets. *)
Lemma ledger_step_flag (c : Ledger.Component) (op : LedgerOp)
    (key user : string) (active : bool) (ts : Z) (editing : bool) :
  eventFor (Ledger.recordId c) key op = false ->
  storedAs c key user active ts editing ->
  storedAs (ledgerApply c op) key user active ts
    (editing || draftFound user op).
Proof.
  intros Hop Hc. destruct op as [now payload|now|now drafts];
    cbn [ledgerApply eventFor draftFound] in *.
  - rewrite orb_false_r. unfold Ledger.handlePresenceEvent.
    destruct (sameRecord _ _) eqn:Ecase; cbn [negb andb] in *;
      [|assumption].
    apply strictEq_false in Hop. fold (eventKey payload).
    destruct (strictEq (SessionId__c payload) (Ledger.ownSessionId c));
      [assumption|].
    destruct (strictEq (State__c payload) "gone").
    + destruct (mapGet _ (Ledger.presenceMap c)) as [existing|];
        [|assumption].
      cbn [fst Ledger.setPresence]. intros p Hin.
      cbn [Ledger.presenceMap] in Hin. apply mapDelete_In in Hin.
      now apply Hc.
    + cbn [fst Ledger.setPresence]. intros p Hin.
      cbn [Ledger.presenceMap] in Hin. apply mapSet_In in Hin.
      destruct Hin as [Heq|Hin]; [|now apply Hc].
      injection Heq as Hk _. now contradiction Hop.
  - rewrite orb_false_r. unfold Ledger.cleanupStalePresence. cbn [fst].
    destruct (existsb _ _); [|assumption].
    intros p Hin. cbn [Ledger.setPresence Ledger.presenceMap] in Hin.
    apply filter_In in Hin. now apply Hc.
  - unfold Ledger.checkForDrafts. rewrite checkForDrafts_map. intros p Hin.
    cbn [Ledger.setPresence Ledger.presenceMap] in Hin.
    apply in_map_iff in Hin.
    destruct Hin as ([k0 p0] & Heq & Hin). cbn [fst snd] in Heq.
    injection Heq as -> <-.
    destruct (Hc p0 Hin) as (Hu & Ha & Ht & He).
    destruct (markAll_fixes drafts p0) as [H1 H2].
    destruct (markAll_keeps drafts p0) as [H3 H4].
    rewrite H1, H2, H3, H4, Hu, He. auto.
Qed.

Lemma ledger_run_flag (c : Ledger.Component) (ops : list LedgerOp)
    (key user : string) (active : bool) (ts : Z) (editing : bool) :
  forallb (fun op => negb (eventFor (Ledger.recordId c) key op)) ops = true ->
  storedAs c key user active ts editing ->
  storedAs (fold_left ledgerApply ops c) key user active ts
    (editing || existsb (draftFound user) ops).
Proof.
  revert c editing. induction ops as [|op r IH]; intros c editing Hops Hc.
  - cbn. now rewrite orb_false_r.
  - cbn [forallb] in Hops. apply andb_true_iff in Hops.
    destruct Hops as [Hop Hr]. apply negb_true_iff in Hop.
    cbn [fold_left existsb]. rewrite orb_assoc. apply IH.
    + now rewrite (proj1 (ledger_apply_ids c op)).
    + now apply ledger_step_flag.
Qed.

(** C2, as stated, fails on the editing flag.  A session of X reports
    'viewing'; a draft check returns a draft of X; the next draft check
    returns none: X is still shown as editing, though no session of X is in
    the state 'editing' or 'drafting' and the last draft check returned no
    draft of X.  And when, after the draft check that returned the draft,
    the session reports 'viewing' again, X is shown as not editing although
    the last draft check returned a draft of X. *)
Lemma draft_flag_outlives_draft :
  let viewing := sessionEvent "X" "tab1" "viewing" true 900 in
  let again := sessionEvent "X" "tab1" "viewing" true 950 in
  let draft := SessionMap.mkDraft "X" "Xavier" "" in
  let c1 := fold_left ledgerApply
              [LEvent 1000 viewing; LDrafts 1010 [draft]; LDrafts 1020 []]
              (ledgerComponent []) in
  let c2 := fold_left ledgerApply
              [LEvent 1000 viewing; LDrafts 1010 [draft]; LEvent 1015 again]
              (ledgerComponent []) in
  (map (fun e => (SessionMap.vUserId e, SessionMap.vIsEditing e))
       (Ledger.visibleUsers c1) = [("X", true)] /\
   ~ ((exists s, In s (sessionsOf "X" (Ledger.presenceMap c1)) /\
                 (SessionMap.state s = "editing" \/
                  SessionMap.state s = "drafting")) \/
      (exists d, In d (@nil SessionMap.Draft) /\
                 SessionMap.draftUserId d = "X"))) /\
  (map (fun e => (SessionMap.vUserId e, SessionMap.vIsEditing e))
       (Ledger.visibleUsers c2) = [("X", false)] /\
   exists d, In d [draft] /\ SessionMap.draftUserId d = "X").
Proof.
  cbv zeta. split; split.
  - reflexivity.
  - intros [(s & Hs & Hst)|(d & [] & _)].
    vm_compute in Hs. destruct Hs as [<-|[]].
    destruct Hst as [Hst|Hst]; discriminate Hst.
  - reflexivity.
  - eexists. split; [now left|reflexivity].
Qed.

(** C2, amended.  In the session-map revision, in every state the component
    reaches, the visible list holds exactly one record for every user other
    than the local one with a session in the ledger; the record is active
    iff some session of the user is stored as active, editing iff some
    session of the user is stored with the editing flag, and its timestamp
    is the largest timestamp of the user's sessions.  A stored session
    carries the user, the activity flag and the timestamp of the last event
    of the session, and its editing flag is set iff that event reported
    'editing' or 'drafting' or a draft check since that event returned a
    draft of the user: a draft check sets the flag and none clears it, and
    the next event of the session overwrites it.  A user with an active,
    editing session and an idle session that is not editing is shown active
    and editing. *)
Theorem sessions_merge_into_actor_view :
  (forall c ops user,
     ledgerSynced c ->
     user <> Ledger.currentUserId c ->
     let c' := fold_left ledgerApply ops c in
     sessionsOf user (Ledger.presenceMap c') <> [] ->
     exists e,
       In e (Ledger.visibleUsers c') /\
       SessionMap.vUserId e = user /\
       (forall e', In e' (Ledger.visibleUsers c') ->
                   SessionMap.vUserId e' = user -> e' = e) /\
       (SessionMap.vIsActive e = true <->
        exists s, In s (sessionsOf user (Ledger.presenceMap c')) /\
                  SessionMap.isActive s = true) /\
       (SessionMap.vIsEditing e = true <->
        exists s, In s (sessionsOf user (Ledger.presenceMap c')) /\
                  SessionMap.isEditing s = true) /\
       (exists s, In s (sessionsOf user (Ledger.presenceMap c')) /\
                  SessionMap.vTimestamp e = SessionMap.timestamp s) /\
       (forall s, In s (sessionsOf user (Ledger.presenceMap c')) ->
                  SessionMap.timestamp s <= SessionMap.vTimestamp e)) /\
  (forall c ops1 now payload ops2 p,
     NoDup (map fst (Ledger.presenceMap c)) ->
     Ledger.recordId c = Some (CaseId__c payload) ->
     SessionId__c payload <> Ledger.ownSessionId c ->
     State__c payload <> "gone" ->
     forallb (fun op => negb (eventFor (Ledger.recordId c)
                                (eventKey payload) op)) ops2 = true ->
     mapGet (eventKey payload)
       (Ledger.presenceMap
          (fold_left ledgerApply (ops1 ++ LEvent now payload :: ops2) c))
     = Some p ->
     SessionMap.userId p = UserId__c payload /\
     SessionMap.isActive p = IsActive__c payload /\
     SessionMap.timestamp p = Timestamp__c payload /\
     SessionMap.isEditing p =
       (strictEq (State__c payload) "editing"
        || strictEq (State__c payload) "drafting")
       || existsb (draftFound (UserId__c payload)) ops2) /\
  (forall c ops key p0 p,
     NoDup (map fst (Ledger.presenceMap c)) ->
     mapGet key (Ledger.presenceMap c) = Some p0 ->
     forallb (fun op => negb (eventFor (Ledger.recordId c) key op)) ops
     = true ->
     mapGet key (Ledger.presenceMap (fold_left ledgerApply ops c)) = Some p ->
     SessionMap.userId p = SessionMap.userId p0 /\
     SessionMap.isActive p = SessionMap.isActive p0 /\
     SessionMap.timestamp p = SessionMap.timestamp p0 /\
     SessionMap.isEditing p =
       SessionMap.isEditing p0
       || existsb (draftFound (SessionMap.userId p0)) ops) /\
  map (fun e => (SessionMap.vUserId e, SessionMap.vIsActive e,
                 SessionMap.vIsEditing e, SessionMap.vTimestamp e))
      (SessionMap.updateVisibleUsers 1000 "me"
         [session "X" "tab1" true true 900;
          session "X" "tab2" false false 950])
  = [("X", true, true, 950)].
Proof.
  assert (Hstored : forall c ops key p0 p,
            NoDup (map fst (Ledger.presenceMap c)) ->
            mapGet key (Ledger.presenceMap c) = Some p0 ->
            forallb (fun op => negb (eventFor (Ledger.recordId c) key op)) ops
            = true ->
            mapGet key (Ledger.presenceMap (fold_left ledgerApply ops c))
            = Some p ->
            SessionMap.userId p = SessionMap.userId p0 /\
            SessionMap.isActive p = SessionMap.isActive p0 /\
            SessionMap.timestamp p = SessionMap.timestamp p0 /\
            SessionMap.isEditing p =
              SessionMap.isEditing p0
              || existsb (draftFound (SessionMap.userId p0)) ops).
  { intros c ops key p0 p Hnd Hget Hops Hp.
    apply (ledger_run_flag c ops key (SessionMap.userId p0)
             (SessionMap.isActive p0) (SessionMap.timestamp p0)
             (SessionMap.isEditing p0) Hops); [|now apply mapGet_In].
    intros q Hq. apply (NoDup_mapGet_In _ _ _ Hnd) in Hq.
    rewrite Hget in Hq. injection Hq as <-. auto. }
  split; [|split; [|split; [exact Hstored|reflexivity]]].
  - intros c ops user Hc Hu c' Hss.
    assert (H : ledgerSynced c').
    { subst c'. clear Hss Hu. revert c Hc.
      induction ops as [|op r IH]; intros c Hc; simpl; [assumption|].
      now apply IH, ledger_apply_synced. }
    destruct H as [now Hs].
    destruct (ledger_run_ids c ops) as (_ & _ & Hcur). fold c' in Hcur.
    rewrite Hs, Hcur. apply merged_view; assumption.
  - intros c ops1 now payload ops2 p Hnd Hrec Hown Hst Hops Hp.
    rewrite fold_left_app in Hp. cbn [fold_left] in Hp.
    set (c1 := fold_left ledgerApply ops1 c) in *.
    destruct (ledger_run_ids c ops1) as (Hrec1 & Hown1 & _).
    fold c1 in Hrec1, Hown1.
    set (c2 := ledgerApply c1 (LEvent now payload)) in *.
    assert (Hnd2 : NoDup (map fst (Ledger.presenceMap c2)))
      by (apply ledger_apply_distinct; now apply ledger_run_distinct).
    destruct (ledger_apply_ids c1 (LEvent now payload)) as [Hrec2 _].
    fold c2 in Hrec2.
    assert (Hget : exists p0,
               mapGet (eventKey payload) (Ledger.presenceMap c2) = Some p0 /\
               SessionMap.userId p0 = UserId__c payload /\
               SessionMap.isActive p0 = IsActive__c payload /\
               SessionMap.timestamp p0 = Timestamp__c payload /\
               SessionMap.isEditing p0 =
                 strictEq (State__c payload) "editing"
                 || strictEq (State__c payload) "drafting").
    { subst c2. cbn [ledgerApply]. unfold Ledger.handlePresenceEvent.
      rewrite Hrec1, Hown1.
      rewrite (proj2 (sameRecord_true _ _) Hrec).
      rewrite (proj2 (strictEq_false _ _) Hown).
      rewrite (proj2 (strictEq_false _ _) Hst).
      cbn [negb fst Ledger.setPresence Ledger.presenceMap].
      eexists. split; [apply mapGet_mapSet_same|]. cbn. auto. }
    destruct Hget as (p0 & Hget & Hu & Ha & Ht & He).
    rewrite <- Hu, <- Ha, <- Ht, <- He.
    apply (Hstored c2 ops2 (eventKey payload) p0 p Hnd2 Hget); [|exact Hp].
    now rewrite Hrec2, Hrec1.
Qed.

Lemma sessions_merge_into_actor_view_witness :
  let viewing := sessionEvent "X" "tab1" "viewing" true 900 in
  let draft := SessionMap.mkDraft "X" "Xavier" "" in
  let c' := fold_left ledgerApply
              ([] ++ LEvent 1000 viewing :: [LDrafts 1010 [draft];
                                             LDrafts 1020 []])
              (ledgerComponent []) in
  option_map (fun p => (SessionMap.isEditing p, SessionMap.timestamp p))
    (mapGet "X-tab1" (Ledger.presenceMap c'))
  = Some (true, 900).
Proof.
  intros viewing draft c'.
  destruct (mapGet "X-tab1" (Ledger.presenceMap c')) as [p|] eqn:E;
    [|discriminate E].
  destruct sessions_merge_into_actor_view as (_ & H & _).
  destruct (H (ledgerComponent []) [] 1000 viewing
              [LDrafts 1010 [draft]; LDrafts 1020 []] p)
    as (_ & _ & Ht & He).
  - constructor.
  - reflexivity.
  - discriminate.
  - discriminate.
  - reflexivity.
  - exact E.
  - cbn [option_map]. now rewrite Ht, He.
Defined.

(** ** The local session of the settings-driven revision *)

Lemma last_cons_default {A : Type} (b a : A) (l : list A) :
  last (b :: l) a = last l b.
Proof.
  revert a b. induction l as [|x l IH]; intros a b; [reflexivity|].
  change (last (b :: x :: l) a) with (last (x :: l) a).
  now rewrite (IH a x), (IH b x).
Qed.

Lemma last_app_default {A : Type} (a : A) (l1 l2 : list A) :
  last (l1 ++ l2) a = last l2 (last l1 a).
Proof.
  revert a. induction l1 as [|x l1 IH]; intros a; [reflexivity|].
  rewrite <- app_comm_cons, !last_cons_default. apply IH.
Qed.

Lemma neighboursDiffer_app {A : Type} (a : A) (l1 l2 : list A) :
  neighboursDiffer (a :: l1) ->
  neighboursDiffer (last l1 a :: l2) ->
  neighboursDiffer (a :: l1 ++ l2).
Proof.
  revert a. induction l1 as [|b l1 IH]; intros a H1 H2; [exact H2|].
  destruct H1 as [Hab H1]. split; [assumption|].
  apply IH; [assumption|]. now rewrite <- (last_cons_default b a).
Qed.

Lemma neighboursDiffer_tail {A : Type} (a : A) (l : list A) :
  neighboursDiffer (a :: l) -> neighboursDiffer l.
Proof. destruct l; [trivial|]. now intros [_ H]. Qed.

Lemma neighboursDiffer_map {A B : Type} (f : A -> B) (l : list A) :
  neighboursDiffer (map f l) -> neighboursDiffer l.
Proof.
  induction l as [|x [|y r] IH]; simpl; auto.
  intros [Hxy H]. split; [congruence|]. now apply IH.
Qed.

Lemma settingsChain_trans (c c1 c2 : Settings.Component)
    (ms1 ms2 : list Settings.Published) :
  settingsChain c ms1 c1 -> settingsChain c1 ms2 c2 ->
  settingsChain c (ms1 ++ ms2) c2.
Proof.
  intros [H1 E1] [H2 E2]. unfold settingsChain. rewrite map_app. split.
  - apply neighboursDiffer_app; [assumption|]. now rewrite <- E1.
  - rewrite E2, E1. symmetry. apply last_app_default.
Qed.

Lemma settingsChain_refl (c c' : Settings.Component) :
  settingsRecorded c' = settingsRecorded c -> settingsChain c [] c'.
Proof. intros H. split; simpl; auto. Qed.

Lemma settingsChain_recorded (c c0 c' : Settings.Component)
    (ms : list Settings.Published) :
  settingsRecorded c0 = settingsRecorded c ->
  settingsChain c0 ms c' -> settingsChain c ms c'.
Proof. unfold settingsChain. now intros ->. Qed.

Lemma publish_chain (c : Settings.Component) (newState : string) :
  settingsChain c (published (snd (Settings.publishStateChange c newState)))
    (fst (Settings.publishStateChange c newState)).
Proof.
  unfold Settings.publishStateChange.
  destruct (Settings.recordId c) as [caseId|] eqn:Er;
    [|now apply settingsChain_refl].
  destruct (negb _); [now apply settingsChain_refl|].
  destruct (_ && _) eqn:E; [now apply settingsChain_refl|].
  split; [|reflexivity]. cbn. split; [|trivial].
  unfold settingsRecorded, publishedKey. cbn. rewrite Er. intros Heq.
  injection Heq as Hs Hd. rewrite Hs, Hd in E. unfold strictEq in E.
  now rewrite String.eqb_refl, eqb_reflx in E.
Qed.

Lemma checkDrafts_chain (c : Settings.Component)
    (drafts : option (list string)) :
  settingsChain c (snd (SettingsLocal.checkDrafts c drafts))
    (fst (SettingsLocal.checkDrafts c drafts)).
Proof.
  unfold SettingsLocal.checkDrafts.
  destruct (Settings.recordId c) eqn:Er; [|now apply settingsChain_refl].
  destruct (negb _); [now apply settingsChain_refl|].
  destruct drafts as [ds|]; [|now apply settingsChain_refl].
  destruct (Bool.eqb _ _); [now apply settingsChain_refl|].
  cbn [fst snd].
  eapply settingsChain_recorded; [|apply publish_chain]. reflexivity.
Qed.

Lemma settingsLocal_chain (c : Settings.Component) (op : LocalOp) :
  settingsChain c (snd (settingsLocal c op)) (fst (settingsLocal c op)).
Proof.
  destruct op as [|drafts|drafts|drafts]; simpl.
  - unfold SettingsLocal.heartbeatTick.
    destruct (_ && _); [apply publish_chain|now apply settingsChain_refl].
  - unfold SettingsLocal.draftTick.
    destruct (_ || _); [now apply settingsChain_refl|apply checkDrafts_chain].
  - unfold SettingsLocal.handleTabFocus. cbn [fst snd].
    eapply settingsChain_trans; [|apply checkDrafts_chain].
    eapply settingsChain_recorded; [|apply publish_chain]. reflexivity.
  - unfold SettingsLocal.handleTabBlur. cbn [fst snd].
    eapply settingsChain_trans; [apply checkDrafts_chain|].
    eapply settingsChain_recorded; [|apply publish_chain]. reflexivity.
Qed.

Lemma localRun_chain (c : Settings.Component) (ops : list LocalOp) :
  settingsChain c (snd (localRun settingsLocal c ops))
    (fst (localRun settingsLocal c ops)).
Proof.
  revert c. induction ops as [|op r IH]; intros c; simpl;
    [now apply settingsChain_refl|].
  pose proof (settingsLocal_chain c op) as H1.
  destruct (settingsLocal c op) as [c1 p1]. specialize (IH c1).
  destruct (localRun settingsLocal c1 r) as [c2 p2].
  now apply settingsChain_trans with c1.
Qed.

(** X7.  In the settings-driven revision no two successive publications of
    the local session are equal, whatever the sequence of heartbeats, draft
    timers, focus gains and focus losses: each publication differs from the
    one before in its state or in its draft status. *)
Theorem successive_publications_differ (c : Settings.Component)
    (ops : list LocalOp) :
  neighboursDiffer (snd (localRun settingsLocal c ops)).
Proof.
  destruct (localRun_chain c ops) as [H _].
  apply neighboursDiffer_tail in H. now apply neighboursDiffer_map in H.
Qed.

Lemma heartbeat_suppressed (c : Settings.Component) :
  settingsUpToDate c -> SettingsLocal.heartbeatTick c = (c, []).
Proof.
  intros [Hs Hd]. unfold SettingsLocal.heartbeatTick.
  destruct (Settings.isActive c) eqn:Ea; [|reflexivity].
  destruct (Settings.recordId c) as [caseId|] eqn:Er; [|reflexivity].
  cbn [andb]. unfold Settings.publishStateChange. rewrite Er, Hs, Hd.
  destruct (negb _); [reflexivity|].
  unfold strictEq. now rewrite String.eqb_refl, eqb_reflx.
Qed.

(** X8.  Once the last publication attempted says what the component is
    (its focus state and its draft status), the heartbeat timer of the
    settings-driven revision publishes nothing and changes nothing, however
    often it fires: the keep-alive is suppressed as a duplicate. *)
Theorem keep_alive_heartbeat_is_suppressed (c : Settings.Component)
    (n : nat) :
  settingsUpToDate c ->
  localRun settingsLocal c (repeat Heartbeat n) = (c, []).
Proof.
  intros Hc. induction n as [|n IH]; simpl; [reflexivity|].
  now rewrite (heartbeat_suppressed c Hc), IH.
Qed.

Lemma keep_alive_heartbeat_is_suppressed_witness :
  let c := fst (Settings.publishStateChange (settingsComponent true [])
                  "active") in
  localRun settingsLocal c (repeat Heartbeat 3) = (c, []).
Proof.
  intros c. apply keep_alive_heartbeat_is_suppressed. split; reflexivity.
Defined.

Lemma publish_brings_up_to_date (c : Settings.Component) :
  settingsReady c ->
  let newState := if Settings.isActive c then "active" else "idle" in
  let c' := fst (Settings.publishStateChange c newState) in
  settingsReady c' /\ settingsUpToDate c' /\
  Settings.isActive c' = Settings.isActive c /\
  Settings.hasDrafts c' = Settings.hasDrafts c.
Proof.
  intros [[caseId Hr] Ha] newState c'. subst c'.
  unfold Settings.publishStateChange. rewrite Hr, Ha. cbn [negb].
  destruct (_ && _) eqn:E; cbn [fst].
  - apply andb_prop in E. destruct E as [E1 E2]. apply eqb_prop in E2.
    destruct (Settings.currentState c) as [s|] eqn:Es; [|discriminate].
    apply strictEq_true in E1. subst s.
    repeat split; eauto.
  - unfold settingsReady, settingsUpToDate. cbn. repeat split; eauto.
Qed.

Lemma checkDrafts_keeps_up_to_date (c : Settings.Component)
    (drafts : option (list string)) :
  settingsReady c -> settingsUpToDate c ->
  let c' := fst (SettingsLocal.checkDrafts c drafts) in
  settingsReady c' /\ settingsUpToDate c' /\
  Settings.isActive c' = Settings.isActive c.
Proof.
  intros Hr Hu c'. subst c'. unfold SettingsLocal.checkDrafts.
  destruct Hr as [[caseId Hrec] Hact]. rewrite Hrec, Hact. cbn [negb].
  destruct drafts as [ds|];
    [|destruct Hu; cbn [fst]; repeat split; eauto].
  set (c1 := SettingsLocal.setHasDrafts c _).
  destruct (Bool.eqb (Settings.hasDrafts c) (Settings.hasDrafts c1)) eqn:E.
  - apply eqb_prop in E. cbn [fst]. destruct Hu as [Hs Hd].
    unfold settingsReady, settingsUpToDate. cbn. cbn in E.
    repeat split; eauto; congruence.
  - cbn [fst].
    assert (Hr1 : settingsReady c1) by (split; eauto).
    destruct (publish_brings_up_to_date c1 Hr1) as (H1 & H2 & H3 & _).
    split; [exact H1|split; [exact H2|exact H3]].
Qed.

Lemma settingsLocal_keeps_up_to_date (c : Settings.Component) (op : LocalOp) :
  settingsReady c -> settingsUpToDate c ->
  settingsReady (fst (settingsLocal c op)) /\
  settingsUpToDate (fst (settingsLocal c op)).
Proof.
  intros Hr Hu. destruct op as [|drafts|drafts|drafts]; simpl.
  - now rewrite (heartbeat_suppressed c Hu).
  - unfold SettingsLocal.draftTick. destruct (_ || _); [now split|].
    destruct (checkDrafts_keeps_up_to_date c drafts Hr Hu) as (H1 & H2 & _).
    now split.
  - unfold SettingsLocal.handleTabFocus. cbn [fst].
    assert (Hr1 : settingsReady (Settings.setIsActive c true))
      by (destruct Hr; split; assumption).
    destruct (publish_brings_up_to_date _ Hr1) as (H1 & H2 & _).
    cbn [Settings.setIsActive Settings.isActive] in H1, H2.
    destruct (checkDrafts_keeps_up_to_date _ drafts H1 H2) as (H3 & H4 & _).
    now split.
  - unfold SettingsLocal.handleTabBlur. cbn [fst].
    destruct (checkDrafts_keeps_up_to_date c drafts Hr Hu) as (H1 & H2 & _).
    assert (Hr1 : settingsReady
                    (Settings.setIsActive
                       (fst (SettingsLocal.checkDrafts c drafts)) false))
      by (destruct H1; split; assumption).
    destruct (publish_brings_up_to_date _ Hr1) as (H3 & H4 & _).
    cbn [Settings.setIsActive Settings.isActive] in H3, H4.
    now split.
Qed.

(** X9.  While the component shows a record and is not torn down, every
    sequence of heartbeats, draft timers, focus gains and focus losses keeps
    the last publication attempted in line with the component: the state
    recorded as published is 'active' or 'idle' as the session is, and the
    draft status recorded is the current one. *)
Theorem local_session_stays_published (c : Settings.Component)
    (ops : list LocalOp) :
  settingsReady c -> settingsUpToDate c ->
  settingsUpToDate (fst (localRun settingsLocal c ops)).
Proof.
  revert c. induction ops as [|op r IH]; intros c Hr Hu; simpl;
    [assumption|].
  destruct (settingsLocal_keeps_up_to_date c op Hr Hu) as [H1 H2].
  destruct (settingsLocal c op) as [c1 p1]. specialize (IH c1 H1 H2).
  now destruct (localRun settingsLocal c1 r).
Qed.

Lemma local_session_stays_published_witness :
  let c := fst (Settings.publishStateChange (settingsComponent true [])
                  "active") in
  settingsUpToDate
    (fst (localRun settingsLocal c
            [DraftTimer (Some ["me"]); TabBlur (Some []); Heartbeat;
             TabFocus None])).
Proof.
  intros c. apply local_session_stays_published.
  - split; [now exists "500A"|reflexivity].
  - split; reflexivity.
Defined.

(** X10.  For a component that shows a record, is not torn down and whose
    last publication is in line with it, a draft check sets the draft status
    to whether the query returned a draft of the local user, and publishes
    exactly when that changed the status: then once, the current focus state
    with the new status.  A failed query changes and publishes nothing. *)
Theorem draft_check_publishes_on_change (c : Settings.Component)
    (caseId : string) (ds : list string) :
  Settings.recordId c = Some caseId ->
  Settings.isComponentActive c = true ->
  settingsUpToDate c ->
  let mine := existsb (fun d => strictEq d (Settings.currentUserId c)) ds in
  let r := SettingsLocal.checkDrafts c (Some ds) in
  Settings.hasDrafts (fst r) = mine /\
  snd r = (if Bool.eqb (Settings.hasDrafts c) mine then []
           else [{| Settings.pubCaseId := caseId;
                    Settings.pubState :=
                      if Settings.isActive c then "active" else "idle";
                    Settings.pubHasDraft := mine |}]) /\
  SettingsLocal.checkDrafts c None = (c, []).
Proof.
  intros Hrec Hact [Hs Hd] mine r. subst r.
  unfold SettingsLocal.checkDrafts. rewrite Hrec, Hact. cbn [negb].
  fold mine. cbn [SettingsLocal.setHasDrafts Settings.hasDrafts].
  destruct (Bool.eqb (Settings.hasDrafts c) mine) eqn:E.
  - repeat split.
  - unfold Settings.publishStateChange. cbn. rewrite Hrec, Hact, Hs, Hd.
    cbn [negb]. rewrite E, andb_false_r. cbn. repeat split.
Qed.

Lemma draft_check_publishes_on_change_witness :
  let c := fst (Settings.publishStateChange (settingsComponent true [])
                  "active") in
  snd (SettingsLocal.checkDrafts c (Some ["bob"; "me"]))
  = [{| Settings.pubCaseId := "500A"; Settings.pubState := "active";
        Settings.pubHasDraft := true |}] /\
  snd (SettingsLocal.checkDrafts c (Some ["bob"])) = [].
Proof.
  intros c. split.
  - apply (draft_check_publishes_on_change c "500A" ["bob"; "me"]);
      try reflexivity. split; reflexivity.
  - apply (draft_check_publishes_on_change c "500A" ["bob"]);
      try reflexivity. split; reflexivity.
Defined.

(** ** The local session of the form-factor aware revision *)

Lemma mobile_publish_fields (c : Mobile.Component) (st : string) :
  let c' := fst (Mobile.publishStateChange c st) in
  Mobile.isActive c' = Mobile.isActive c /\
  Mobile.hasDrafts c' = Mobile.hasDrafts c /\
  Mobile.recordId c' = Mobile.recordId c /\
  Mobile.isComponentActive c' = Mobile.isComponentActive c /\
  Mobile.currentUserId c' = Mobile.currentUserId c /\
  Mobile.isMobileDevice c' = Mobile.isMobileDevice c.
Proof.
  unfold Mobile.publishStateChange.
  destruct (Mobile.recordId c) eqn:E; [|cbn; repeat split; auto].
  destruct (negb _); cbn; repeat split; auto.
Qed.

Lemma mobile_checkDrafts_isActive (c : Mobile.Component)
    (drafts : option (list string)) :
  Mobile.isActive (fst (MobileLocal.checkDrafts c drafts)) = Mobile.isActive c.
Proof.
  unfold MobileLocal.checkDrafts.
  destruct (Mobile.recordId c); [|reflexivity].
  destruct (negb _); [reflexivity|].
  destruct drafts as [ds|]; [|reflexivity].
  destruct (Bool.eqb _ _); [reflexivity|]. cbn [fst].
  now rewrite (proj1 (mobile_publish_fields _ _)).
Qed.

(** X11.  [checkVisibility] is edge-triggered: afterwards the session is
    active exactly when the tab is visible, the window has the focus and the
    component is in view (or visibility is ignored and the component is on
    the active tab); when that is what the session already was, nothing
    changes and nothing is published; and a second call under the same
    signals changes and publishes nothing. *)
Theorem visibility_check_is_edge_triggered (c : Mobile.Component)
    (s : MobileLocal.Signals) (drafts drafts' : option (list string)) :
  let r := MobileLocal.checkVisibility c s drafts in
  Mobile.isActive (fst r) = MobileLocal.shouldBeActive s /\
  (Mobile.isActive c = MobileLocal.shouldBeActive s -> r = (c, [])) /\
  MobileLocal.checkVisibility (fst r) s drafts' = (fst r, []).
Proof.
  intros r.
  assert (H1 : Mobile.isActive (fst r) = MobileLocal.shouldBeActive s).
  { subst r. unfold MobileLocal.checkVisibility.
    destruct (Bool.eqb _ _) eqn:E; [now apply eqb_prop in E|].
    apply eqb_false_iff in E.
    destruct (MobileLocal.shouldBeActive s) eqn:Es.
    - unfold MobileLocal.handleBecomeActive.
      destruct (Mobile.isActive c); [congruence|]. cbn [fst].
      rewrite mobile_checkDrafts_isActive.
      now rewrite (proj1 (mobile_publish_fields _ _)).
    - unfold MobileLocal.handleBecomeIdle.
      destruct (Mobile.isActive c); [|congruence]. cbn [fst negb].
      rewrite mobile_checkDrafts_isActive.
      now rewrite (proj1 (mobile_publish_fields _ _)). }
  split; [assumption|]. split.
  - intros H. subst r. unfold MobileLocal.checkVisibility.
    now rewrite H, eqb_reflx.
  - unfold MobileLocal.checkVisibility. now rewrite H1, eqb_reflx.
Qed.

Lemma visibility_check_is_edge_triggered_witness :
  let c := mobileComponent true [] in
  let s := MobileLocal.mkSignals true true true false false in
  MobileLocal.checkVisibility c s (Some ["me"]) = (c, []).
Proof.
  intros c s.
  destruct (visibility_check_is_edge_triggered c s (Some ["me"]) None)
    as (_ & H & _).
  apply H. reflexivity.
Defined.

(** X12.  When the focus state of a component that shows a record and is
    not torn down changes, [checkVisibility] publishes the new state at once
    with the draft status known so far, and, if the draft check that follows
    finds the status changed, the same state once more with the new
    status. *)
Theorem focus_change_publishes_state_then_drafts (c : Mobile.Component)
    (s : MobileLocal.Signals) (caseId : string) (ds : list string) :
  Mobile.recordId c = Some caseId ->
  Mobile.isComponentActive c = true ->
  Mobile.isActive c <> MobileLocal.shouldBeActive s ->
  let st := if MobileLocal.shouldBeActive s then "active" else "idle" in
  let mine := existsb (fun d => strictEq d (Mobile.currentUserId c)) ds in
  snd (MobileLocal.checkVisibility c s (Some ds)) =
    mobileMessage c caseId st (Mobile.hasDrafts c)
    :: (if Bool.eqb (Mobile.hasDrafts c) mine then []
        else [mobileMessage c caseId st mine]) /\
  snd (MobileLocal.checkVisibility c s None) =
    [mobileMessage c caseId st (Mobile.hasDrafts c)].
Proof.
  intros Hrec Hact Hne st mine.
  unfold MobileLocal.checkVisibility.
  rewrite (proj2 (eqb_false_iff _ _) Hne).
  destruct (MobileLocal.shouldBeActive s) eqn:Es; subst st.
  - unfold MobileLocal.handleBecomeActive.
    destruct (Mobile.isActive c); [congruence|].
    unfold MobileLocal.checkDrafts, Mobile.publishStateChange.
    cbn. rewrite Hrec, Hact. cbn. fold mine.
    destruct (Bool.eqb (Mobile.hasDrafts c) mine); cbn;
      rewrite ?Hrec, ?Hact; split; reflexivity.
  - unfold MobileLocal.handleBecomeIdle.
    destruct (Mobile.isActive c); [|congruence].
    unfold MobileLocal.checkDrafts, Mobile.publishStateChange.
    cbn. rewrite Hrec, Hact. cbn. fold mine.
    destruct (Bool.eqb (Mobile.hasDrafts c) mine); cbn;
      rewrite ?Hrec, ?Hact; split; reflexivity.
Qed.

Lemma focus_change_publishes_state_then_drafts_witness :
  let c := mobileComponent true [] in
  let s := MobileLocal.mkSignals true false true false false in
  snd (MobileLocal.checkVisibility c s (Some ["me"])) =
    [mobileMessage c "500A" "idle" false; mobileMessage c "500A" "idle" true].
Proof.
  intros c s.
  apply (focus_change_publishes_state_then_drafts c s "500A" ["me"]);
    try reflexivity. discriminate.
Defined.

Lemma mobile_heartbeat_active (c : Mobile.Component) (caseId : string) :
  Mobile.recordId c = Some caseId ->
  Mobile.isComponentActive c = true ->
  Mobile.isActive c = true ->
  let r := MobileLocal.heartbeatTick c in
  snd r = [mobileMessage c caseId "active" (Mobile.hasDrafts c)] /\
  Mobile.recordId (fst r) = Some caseId /\
  Mobile.isComponentActive (fst r) = true /\
  Mobile.isActive (fst r) = true /\
  Mobile.hasDrafts (fst r) = Mobile.hasDrafts c /\
  Mobile.isMobileDevice (fst r) = Mobile.isMobileDevice c.
Proof.
  intros Hrec Hact Hfoc. unfold MobileLocal.heartbeatTick.
  rewrite Hfoc, Hrec. cbn [andb fst snd].
  unfold Mobile.publishStateChange. rewrite Hrec, Hact. cbn.
  repeat split; assumption.
Qed.

(** X13.  The heartbeat timer of the form-factor aware revision publishes
    'active' with the current draft status at every tick while the session
    is active (for a component that shows a record and is not torn down) and
    nothing while it is idle: n ticks of an active session give n equal
    publications. *)
Theorem heartbeat_publishes_every_tick (c : Mobile.Component)
    (caseId : string) (n : nat) :
  Mobile.recordId c = Some caseId ->
  Mobile.isComponentActive c = true ->
  snd (localRun (fun c0 (_ : unit) => MobileLocal.heartbeatTick c0) c
         (repeat tt n))
  = if Mobile.isActive c
    then repeat (mobileMessage c caseId "active" (Mobile.hasDrafts c)) n
    else [].
Proof.
  intros Hrec Hact. destruct (Mobile.isActive c) eqn:Hfoc.
  - revert c Hrec Hact Hfoc. induction n as [|n IH]; intros c Hrec Hact Hfoc;
      simpl; [reflexivity|].
    destruct (mobile_heartbeat_active c caseId Hrec Hact Hfoc)
      as (H1 & H2 & H3 & H4 & H5 & H6).
    destruct (MobileLocal.heartbeatTick c) as [c1 p1]. cbn [fst snd] in *.
    specialize (IH c1 H2 H3 H4).
    destruct (localRun _ c1 (repeat tt n)) as [c2 p2]. cbn [snd] in *.
    rewrite H1, IH. unfold mobileMessage. now rewrite H5, H6.
  - induction n as [|n IH]; simpl; [reflexivity|].
    unfold MobileLocal.heartbeatTick at 1. rewrite Hfoc. cbn [andb].
    destruct (localRun _ c (repeat tt n)) as [c2 p2]. exact IH.
Qed.

Lemma heartbeat_publishes_every_tick_witness :
  let c := mobileComponent true [] in
  snd (localRun (fun c0 (_ : unit) => MobileLocal.heartbeatTick c0) c
         (repeat tt 3))
  = repeat (mobileMessage c "500A" "active" false) 3.
Proof.
  intros c. apply (heartbeat_publishes_every_tick c "500A" 3); reflexivity.
Defined.

(** ** Truncation of the display *)

Lemma firstn_five_count {A : Type} (l : list A) :
  (List.length (firstn 5 l)
   + (if (5 <? List.length l)%nat then List.length l - 5 else 0)
   = List.length l)%nat.
Proof.
  rewrite length_firstn.
  destruct (Nat.ltb_spec 5 (List.length l)); lia.
Qed.

(** X14.  On a wide screen the display getter shows the first five users, in
    the order of the visible list, and [additionalCount] counts exactly the
    users left out: displayed and additional users add up to the visible
    list, and the count is shown exactly when a user is left out.  On a
    narrow screen every user is displayed. *)
Theorem display_truncation_accounts_for_all :
  (forall l,
     (List.length (SessionMap.displayedUsers false l)
      + SessionMap.additionalCount l = List.length l)%nat /\
     SessionMap.displayedUsers false l ++ skipn 5 l = l /\
     SessionMap.displayedUsers true l = l) /\
  (forall toLowerCase formatIdleTime b c,
     let shown narrow :=
       Mobile.displayedUsers toLowerCase formatIdleTime b narrow c in
     (List.length (shown false) + MobileDisplay.additionalCount c
      = List.length (Mobile.visibleUsers c))%nat /\
     List.length (shown true) = List.length (Mobile.visibleUsers c) /\
     (MobileDisplay.showAdditionalCount false c = true <->
      (List.length (shown false) < List.length (Mobile.visibleUsers c))%nat) /\
     MobileDisplay.showAdditionalCount true c = false).
Proof.
  split.
  - intros l. unfold SessionMap.displayedUsers, SessionMap.additionalCount.
    split; [apply firstn_five_count|]. split; [apply firstn_skipn|reflexivity].
  - intros toLowerCase formatIdleTime b c shown. subst shown.
    unfold Mobile.displayedUsers, MobileDisplay.additionalCount,
      MobileDisplay.showAdditionalCount. cbn [negb andb].
    rewrite length_firstn, !length_map.
    destruct (Nat.ltb_spec 5 (List.length (Mobile.visibleUsers c)));
      repeat split; try lia; try discriminate; auto.
Qed.

(** ** What a mobile user looks like *)

(** X15.  The form-factor aware revision never shows a mobile user as idle:
    whatever its state, its label is 'Editing' or 'Active' and its opacity
    is full.  In particular a mobile user that said 'gone' is, as long as
    the sweep keeps its record, displayed on a narrow screen as active (or
    editing, if the event said so), with the mobile icon. *)
Theorem mobile_user_never_shown_idle :
  (forall toLowerCase formatIdleTime b u,
     Mobile.isMobile u = true ->
     let d := Mobile.displayUser toLowerCase formatIdleTime b u in
     Mobile.stateLabel d = (if Mobile.hasDraft u then "Editing" else "Active") /\
     Mobile.containerStyle d = "opacity: 1;" /\
     Mobile.showMobileIcon d = true) /\
  (forall toLowerCase formatIdleTime b c visible payload,
     accepted (Mobile.currentUserId c) (Mobile.recordId c) payload ->
     State__c payload = "gone" ->
     IsMobile__c payload = true ->
     NoDup (map Mobile.userId (Mobile.visibleUsers c)) ->
     let c' := fst (Mobile.handlePresenceEvent c visible payload) in
     exists d,
       In d (Mobile.displayedUsers toLowerCase formatIdleTime b true c') /\
       Mobile.userId (Mobile.user d) = UserId__c payload /\
       Mobile.state (Mobile.user d) = "gone" /\
       Mobile.stateLabel d
       = (if HasDraft__c payload then "Editing" else "Active") /\
       Mobile.containerStyle d = "opacity: 1;").
Proof.
  assert (H : forall toLowerCase formatIdleTime b u,
     Mobile.isMobile u = true ->
     let d := Mobile.displayUser toLowerCase formatIdleTime b u in
     Mobile.stateLabel d = (if Mobile.hasDraft u then "Editing" else "Active") /\
     Mobile.containerStyle d = "opacity: 1;" /\
     Mobile.showMobileIcon d = true).
  { intros toLowerCase formatIdleTime b u Hm. cbn.
    unfold Mobile.getStateLabel. rewrite Hm, orb_true_r. repeat split. }
  split; [exact H|].
  intros toLowerCase formatIdleTime b c visible payload Hacc Hst Hmob Hnd c'.
  destruct (mobile_gone_shape c visible payload Hacc Hst Hmob Hnd)
    as (l1 & l2 & Hshape & _). fold c' in Hshape.
  exists (Mobile.displayUser toLowerCase formatIdleTime b
            (Mobile.goneUser payload)).
  split.
  - unfold Mobile.displayedUsers. apply in_map. rewrite Hshape.
    apply in_or_app. right. now left.
  - destruct (H toLowerCase formatIdleTime b (Mobile.goneUser payload)
                eq_refl) as (H1 & H2 & _).
    repeat split; assumption.
Qed.

Lemma mobile_user_never_shown_idle_witness :
  let c := mobileComponent true [mobileUser "bob" "active" 2000 false true] in
  let payload := eventOf "bob" "gone" 5000 false true in
  let c' := fst (Mobile.handlePresenceEvent c true payload) in
  exists d,
    In d (Mobile.displayedUsers (fun s => s) (fun _ => "") noBadges true c') /\
    Mobile.userId (Mobile.user d) = "bob" /\
    Mobile.state (Mobile.user d) = "gone" /\
    Mobile.stateLabel d = "Active" /\
    Mobile.containerStyle d = "opacity: 1;".
Proof.
  intros c payload c'.
  destruct mobile_user_never_shown_idle as [_ H].
  apply (H (fun s => s) (fun _ => "") noBadges c true payload).
  - split; [discriminate|reflexivity].
  - reflexivity.
  - reflexivity.
  - repeat constructor; simpl; intuition.
Defined.

(** ** Toasts *)

Lemma runWith_toasts_bound {C : Type} (step : C -> Delivery -> C * list Toast)
    (c : C) (ds : list Delivery) :
  (forall c d, List.length (snd (step c d)) <= 1)%nat ->
  (List.length (snd (runWith step c ds)) <= List.length ds)%nat.
Proof.
  intros Hstep. revert c. induction ds as [|d r IH]; intros c; simpl; [lia|].
  specialize (Hstep c d). destruct (step c d) as [c1 t1].
  specialize (IH c1). destruct (runWith step c1 r) as [c2 t2].
  simpl in *. rewrite length_app. lia.
Qed.

(** X16.  No event makes a handler dispatch more than one toast, in any of
    the revisions; so a sequence of deliveries dispatches at most as many
    toasts as it has deliveries. *)
Theorem at_most_one_toast_per_event :
  (forall c visible payload,
     (List.length (snd (Settings.handlePresenceEvent c visible payload)) <= 1)%nat) /\
  (forall c visible payload,
     (List.length (snd (Mobile.handlePresenceEvent c visible payload)) <= 1)%nat) /\
  (forall c visible payload,
     (List.length (snd (SessionEcho.handlePresenceEvent c visible payload)) <= 1)%nat) /\
  (forall now c payload,
     (List.length (snd (Ledger.handlePresenceEvent now c payload)) <= 1)%nat) /\
  (forall c ds,
     (List.length (snd (runWith settingsStep c ds)) <= List.length ds)%nat) /\
  (forall c ds,
     (List.length (snd (runWith mobileStep c ds)) <= List.length ds)%nat).
Proof.
  assert (Hs : forall c visible payload,
     (List.length (snd (Settings.handlePresenceEvent c visible payload)) <= 1)%nat).
  { intros c visible payload. unfold Settings.handlePresenceEvent.
    case_handler; simpl; lia. }
  assert (Hm : forall c visible payload,
     (List.length (snd (Mobile.handlePresenceEvent c visible payload)) <= 1)%nat).
  { intros c visible payload. unfold Mobile.handlePresenceEvent.
    case_handler; simpl; lia. }
  split; [exact Hs|]. split; [exact Hm|]. split; [|split; [|split]].
  - intros c visible payload. unfold SessionEcho.handlePresenceEvent.
    case_handler; simpl; lia.
  - intros now c payload.
    unfold Ledger.handlePresenceEvent, Ledger.showGoneToast,
      Ledger.showPresenceToast.
    repeat match goal with
           | |- context [match mapGet ?k ?m with _ => _ end] =>
               destruct (mapGet k m)
           | |- context [if ?b then _ else _] => destruct b
           end; simpl; lia.
  - intros c ds. apply runWith_toasts_bound. intros c0 d. apply Hs.
  - intros c ds. apply runWith_toasts_bound. intros c0 d. apply Hm.
Qed.

Lemma find_findIndex {A : Type} (p : A -> bool) (l : list A) :
  match findIndex p l with
  | Some i => exists x, nth_error l i = Some x /\ find p l = Some x
  | None => find p l = None
  end.
Proof.
  induction l as [|a l IH]; simpl; [reflexivity|].
  destruct (p a); [now exists a|].
  destruct (findIndex p l) as [i|]; simpl; assumption.
Qed.

(** X17.  In the settings-driven and the form-factor aware revisions the
    toasts follow the edges of what the list knows of the user of an
    accepted event other than 'gone': a join toast is dispatched only for a
    user without a record, never for one that has a record; an editing toast
    only when the record had no draft and the event has one; a
    stopped-editing toast only when the record had a draft and the event has
    none.  Conversely, in both revisions, with the gate open (the local
    session active in a visible document in the first, a visible document
    in the second) and the toast enabled, the first event of a user
    dispatches the join toast, an event with a draft for a record without
    one the editing toast, and an event without a draft for a record with
    one the stopped-editing toast. *)
Theorem toasts_follow_edges :
  (forall c visible payload t,
     accepted (Settings.currentUserId c) (Settings.recordId c) payload ->
     State__c payload <> "gone" ->
     In t (snd (Settings.handlePresenceEvent c visible payload)) ->
     match find (fun u => strictEq (Settings.userId u) (UserId__c payload))
                (Settings.visibleUsers c) with
     | None => t = JoinToast (UserName__c payload)
     | Some e =>
         (t = EditingToast (UserName__c payload) /\
          Settings.hasDraft e = false /\ HasDraft__c payload = true) \/
         (t = StoppedEditingToast (UserName__c payload) /\
          Settings.hasDraft e = true /\ HasDraft__c payload = false)
     end) /\
  (forall c visible payload t,
     accepted (Mobile.currentUserId c) (Mobile.recordId c) payload ->
     State__c payload <> "gone" ->
     In t (snd (Mobile.handlePresenceEvent c visible payload)) ->
     match find (fun u => strictEq (Mobile.userId u) (UserId__c payload))
                (Mobile.visibleUsers c) with
     | None => t = JoinToast (UserName__c payload)
     | Some e =>
         (t = EditingToast (UserName__c payload) /\
          Mobile.hasDraft e = false /\ HasDraft__c payload = true) \/
         (t = StoppedEditingToast (UserName__c payload) /\
          Mobile.hasDraft e = true /\ HasDraft__c payload = false)
     end) /\
  (forall c payload,
     accepted (Settings.currentUserId c) (Settings.recordId c) payload ->
     State__c payload <> "gone" ->
     Settings.isActive c = true ->
     match find (fun u => strictEq (Settings.userId u) (UserId__c payload))
                (Settings.visibleUsers c) with
     | None =>
         showJoinToasts (Settings.settings c) = true ->
         snd (Settings.handlePresenceEvent c true payload)
         = [JoinToast (UserName__c payload)]
     | Some e =>
         (Settings.hasDraft e = false -> HasDraft__c payload = true ->
          showEditStartToasts (Settings.settings c) = true ->
          snd (Settings.handlePresenceEvent c true payload)
          = [EditingToast (UserName__c payload)]) /\
         (Settings.hasDraft e = true -> HasDraft__c payload = false ->
          showEditStopToasts (Settings.settings c) = true ->
          snd (Settings.handlePresenceEvent c true payload)
          = [StoppedEditingToast (UserName__c payload)])
     end) /\
  (forall c payload,
     accepted (Mobile.currentUserId c) (Mobile.recordId c) payload ->
     State__c payload <> "gone" ->
     match find (fun u => strictEq (Mobile.userId u) (UserId__c payload))
                (Mobile.visibleUsers c) with
     | None =>
         showJoinToasts (Mobile.settings c) = true ->
         snd (Mobile.handlePresenceEvent c true payload)
         = [JoinToast (UserName__c payload)]
     | Some e =>
         (Mobile.hasDraft e = false -> HasDraft__c payload = true ->
          showEditStartToasts (Mobile.settings c) = true ->
          snd (Mobile.handlePresenceEvent c true payload)
          = [EditingToast (UserName__c payload)]) /\
         (Mobile.hasDraft e = true -> HasDraft__c payload = false ->
          showEditStopToasts (Mobile.settings c) = true ->
          snd (Mobile.handlePresenceEvent c true payload)
          = [StoppedEditingToast (UserName__c payload)])
     end).
Proof.
  split; [|split; [|split]].
  - intros c visible payload t Hacc Hst.
    unfold Settings.handlePresenceEvent. accept_event Hacc.
    rewrite (proj2 (strictEq_false _ _) Hst).
    pose proof (find_findIndex
                  (fun u => strictEq (Settings.userId u) (UserId__c payload))
                  (Settings.visibleUsers c)) as Hf.
    destruct (findIndex _ (Settings.visibleUsers c)) as [i|].
    + destruct Hf as (x & Hx & Hf). rewrite Hf, Hx. cbn [snd].
      destruct (Settings.isActive c && visible); [|intros []].
      destruct (Settings.hasDraft x), (HasDraft__c payload),
        (showEditStartToasts (Settings.settings c)),
        (showEditStopToasts (Settings.settings c));
        cbn; intros Ht; try contradiction;
        destruct Ht as [<-|[]]; auto.
    + rewrite Hf. cbn [snd].
      destruct (_ && _); [|intros []]. now intros [<-|[]].
  - intros c visible payload t Hacc Hst.
    unfold Mobile.handlePresenceEvent. accept_event Hacc.
    rewrite (proj2 (strictEq_false _ _) Hst).
    pose proof (find_findIndex
                  (fun u => strictEq (Mobile.userId u) (UserId__c payload))
                  (Mobile.visibleUsers c)) as Hf.
    destruct (findIndex _ (Mobile.visibleUsers c)) as [i|].
    + destruct Hf as (x & Hx & Hf). rewrite Hf, Hx. cbn [snd].
      destruct visible; [|intros []].
      destruct (Mobile.hasDraft x), (HasDraft__c payload),
        (showEditStartToasts (Mobile.settings c)),
        (showEditStopToasts (Mobile.settings c));
        cbn; intros Ht; try contradiction;
        destruct Ht as [<-|[]]; auto.
    + rewrite Hf. cbn [snd].
      destruct (_ && _); [|intros []]. now intros [<-|[]].
  - intros c payload Hacc Hst Hfoc.
    unfold Settings.handlePresenceEvent. accept_event Hacc.
    rewrite (proj2 (strictEq_false _ _) Hst).
    pose proof (find_findIndex
                  (fun u => strictEq (Settings.userId u) (UserId__c payload))
                  (Settings.visibleUsers c)) as Hf.
    destruct (findIndex _ (Settings.visibleUsers c)) as [i|].
    + destruct Hf as (x & Hx & Hf). rewrite Hf, Hx, Hfoc. cbn [snd andb].
      split; intros Hhad Hnow Hon; now rewrite Hhad, Hnow, Hon.
    + rewrite Hf. cbn [snd]. intros Hjoin. now rewrite Hfoc, Hjoin.
  - intros c payload Hacc Hst.
    unfold Mobile.handlePresenceEvent. accept_event Hacc.
    rewrite (proj2 (strictEq_false _ _) Hst).
    pose proof (find_findIndex
                  (fun u => strictEq (Mobile.userId u) (UserId__c payload))
                  (Mobile.visibleUsers c)) as Hf.
    destruct (findIndex _ (Mobile.visibleUsers c)) as [i|].
    + destruct Hf as (x & Hx & Hf). rewrite Hf, Hx. cbn [snd andb].
      split; intros Hhad Hnow Hon; now rewrite Hhad, Hnow, Hon.
    + rewrite Hf. cbn [snd]. intros Hjoin. now rewrite Hjoin.
Qed.

Lemma toasts_follow_edges_witness :
  let c := settingsComponent true [settingsUser "bob" "active" 10 false] in
  let m := mobileComponent false [mobileUser "bob" "active" 10 true false] in
  snd (Settings.handlePresenceEvent c true
         (eventOf "carol" "active" 20 false false))
  = [JoinToast "carol"] /\
  (forall t,
     In t (snd (Settings.handlePresenceEvent c true
                  (eventOf "bob" "active" 20 true false))) ->
     t = EditingToast "bob") /\
  snd (Mobile.handlePresenceEvent m true
         (eventOf "carol" "active" 20 false false))
  = [JoinToast "carol"] /\
  snd (Mobile.handlePresenceEvent m true
         (eventOf "bob" "active" 20 false false))
  = [StoppedEditingToast "bob"].
Proof.
  intros c m. destruct toasts_follow_edges as (H1 & _ & H3 & H4).
  assert (Hacc : forall user draft,
             user <> "me" ->
             accepted "me" (Some "500A") (eventOf user "active" 20 draft false))
    by (intros user draft Hu; split; [exact Hu|reflexivity]).
  split; [|split; [|split]].
  - apply (H3 c (eventOf "carol" "active" 20 false false));
      [apply Hacc| | |]; try reflexivity; discriminate.
  - intros t Ht.
    assert (Hst : State__c (eventOf "bob" "active" 20 true false) <> "gone")
      by discriminate.
    pose proof (H1 c true _ t (Hacc "bob" true ltac:(discriminate)) Hst Ht)
      as H. cbn in H.
    destruct H as [(H & _)|(_ & H & _)]; [exact H|discriminate].
  - apply (H4 m (eventOf "carol" "active" 20 false false));
      [apply Hacc| |]; try reflexivity; discriminate.
  - apply (H4 m (eventOf "bob" "active" 20 false false));
      [apply Hacc| | | |]; try reflexivity; discriminate.
Defined.

(** ** Draft data of the revision that echoes the local session *)

Lemma filter_head_find {A : Type} (p : A -> bool) (l : list A) :
  match filter p l with
  | x :: _ => find p l = Some x
  | [] => find p l = None
  end.
Proof.
  induction l as [|a l IH]; simpl; [reflexivity|].
  destruct (p a); [reflexivity|exact IH].
Qed.

(** X18.  [mergeDraftData] keeps the users, their order and all they carry
    but the draft fields; it recomputes the draft fields from the drafts
    alone, whatever they were: a user is flagged exactly when the first of
    its drafts in the query result is younger than five minutes (a user
    without a draft is never flagged, and a stale first draft hides the
    later ones); so merging a second time with the same drafts at the same
    instant changes nothing. *)
Theorem merge_draft_data_recomputes_flags (now : Z)
    (us : list SessionEcho.User) (drafts : list EchoDrafts.Draft) :
  let out := map EchoDrafts.user (EchoDrafts.mergeDraftData now us drafts) in
  map echoIdentity out = map echoIdentity us /\
  (forall u, In u out ->
     (SessionEcho.hasDraft u = true <->
      exists d, firstDraftOf (SessionEcho.userId u) drafts = Some d /\
                now - EchoDrafts.createdDate d < 300000) /\
     (SessionEcho.draftAge u =
      option_map (fun d => now - EchoDrafts.createdDate d)
        (firstDraftOf (SessionEcho.userId u) drafts))) /\
  map EchoDrafts.user (EchoDrafts.mergeDraftData now out drafts) = out.
Proof.
  intros out. subst out. unfold EchoDrafts.mergeDraftData.
  rewrite !map_map. cbn [EchoDrafts.user]. split; [|split].
  - rewrite ?map_map. apply map_ext. reflexivity.
  - intros u Hu. apply in_map_iff in Hu. destruct Hu as (u0 & <- & _).
    cbn [SessionEcho.hasDraft SessionEcho.draftAge SessionEcho.userId].
    unfold firstDraftOf.
    pose proof (filter_head_find
                  (fun d => strictEq (EchoDrafts.draftUserId d)
                              (SessionEcho.userId u0)) drafts) as Hf.
    destruct (filter _ drafts) as [|d r]; rewrite Hf; cbn [option_map].
    + split; [|reflexivity]. split; [discriminate|].
      intros (d & Hd & _). discriminate.
    + split; [|reflexivity]. unfold EchoDrafts.FIVE_MINUTES.
      rewrite Z.ltb_lt. split.
      * intros H. exists d. split; [reflexivity|lia].
      * intros (d' & Hd & H). injection Hd as <-. lia.
  - rewrite ?map_map. apply map_ext. intros u. reflexivity.
Qed.

(** ** The trigger on the platform event *)

Lemma find_app_first {A : Type} (p : A -> bool) (l1 l2 : list A) :
  find p (l1 ++ l2) =
  match find p l1 with
  | Some x => Some x
  | None => find p l2
  end.
Proof.
  induction l1 as [|a l1 IH]; simpl; [reflexivity|].
  now destruct (p a).
Qed.

Lemma logs_lookup (sysNow : Z) (events : list CounterTrigger.Event)
    (m : list (string * CounterTrigger.Log)) (k : string) :
  mapGet k
    (fold_left (fun logs e =>
                  mapSet (CounterTrigger.logKey e)
                    (CounterTrigger.logOf sysNow e) logs) events m)
  = match find (fun e => strictEq (CounterTrigger.logKey e) k) (rev events) with
    | Some e => Some (CounterTrigger.logOf sysNow e)
    | None => mapGet k m
    end.
Proof.
  revert m. induction events as [|e r IH]; intros m; [reflexivity|].
  cbn [fold_left rev]. rewrite IH, find_app_first.
  destruct (find _ (rev r)); [reflexivity|]. cbn [find].
  destruct (strictEq (CounterTrigger.logKey e) k) eqn:E.
  - apply strictEq_true in E. subst k. apply mapGet_mapSet_same.
  - apply strictEq_false in E. apply mapGet_mapSet_other. congruence.
Qed.

Lemma logs_shape (sysNow : Z) (events : list CounterTrigger.Event)
    (m : list (string * CounterTrigger.Log)) :
  NoDup (map fst m) ->
  let logs := fold_left (fun logs e =>
                           mapSet (CounterTrigger.logKey e)
                             (CounterTrigger.logOf sysNow e) logs) events m in
  NoDup (map fst logs) /\
  (List.length logs <= List.length m + List.length events)%nat.
Proof.
  revert m. induction events as [|e r IH]; intros m Hnd; simpl.
  - split; [assumption|lia].
  - destruct (IH (mapSet (CounterTrigger.logKey e)
                    (CounterTrigger.logOf sysNow e) m)) as [H1 H2];
      [now apply mapSet_NoDup|].
    split; [assumption|].
    assert (Hl : (List.length (mapSet (CounterTrigger.logKey e)
                                 (CounterTrigger.logOf sysNow e) m)
                  <= S (List.length m))%nat).
    { rewrite <- (length_map fst), mapSet_keys.
      destruct (existsb _ m); rewrite ?length_app, !length_map; simpl; lia. }
    lia.
Qed.

Lemma countCalls_bounds (apexEq : string -> string -> bool)
    (events : list CounterTrigger.Event) (h d : nat) :
  let r := CounterTrigger.countCalls apexEq events h d in
  (h <= fst r /\ d <= snd r /\
   fst r + snd r <= h + d + List.length events)%nat.
Proof.
  revert h d. induction events as [|e r IH]; intros h d; simpl; [lia|].
  destruct (apexEq _ "heartbeat"); [specialize (IH (S h) d); simpl in IH; lia|].
  destruct (apexEq _ "draftCheck");
    [specialize (IH h (S d))|specialize (IH h d)]; simpl in IH; lia.
Qed.

(** X19.  For every batch of events the trigger upserts one log for each
    key (case id, underscore, user id) that occurs in the batch, built from
    the last event of the batch with that key, and none for any other key;
    so it upserts at most as many logs as there are events.  It counts no
    event twice, and it calls the counter helper exactly when it counted a
    heartbeat or a draft check. *)
Theorem trigger_logs_last_event_per_key (apexEq : string -> string -> bool)
    (sysNow : Z) (events : list CounterTrigger.Event) :
  let logs := CounterTrigger.logsToUpsert sysNow events in
  let counts := CounterTrigger.countCalls apexEq events O O in
  NoDup (map fst logs) /\
  (forall k,
     mapGet k logs =
     option_map (CounterTrigger.logOf sysNow)
       (find (fun e => strictEq (CounterTrigger.logKey e) k) (rev events))) /\
  (List.length (fst (CounterTrigger.run apexEq sysNow events))
   <= List.length events)%nat /\
  (fst counts + snd counts <= List.length events)%nat /\
  (snd (CounterTrigger.run apexEq sysNow events) = None <->
   counts = (O, O)) /\
  (snd (CounterTrigger.run apexEq sysNow events) <> None ->
   snd (CounterTrigger.run apexEq sysNow events) = Some counts).
Proof.
  intros logs counts.
  destruct (logs_shape sysNow events []) as [H1 H2]; [constructor|].
  destruct (countCalls_bounds apexEq events O O) as (_ & _ & H3).
  fold counts in H3. split; [exact H1|]. split.
  - intros k. unfold logs, CounterTrigger.logsToUpsert.
    rewrite logs_lookup. now destruct (find _ (rev events)).
  - unfold CounterTrigger.run. cbn [fst snd]. fold counts.
    rewrite length_map. split; [exact H2|]. split; [exact H3|].
    destruct counts as [h d]. cbn [fst snd].
    destruct h, d; cbn;
      (split;
       [split; intros H; first [reflexivity|discriminate]
       |intros H; first [reflexivity|exfalso; apply H; reflexivity]]).
Qed.

Lemma trigger_logs_last_event_per_key_witness :
  let e st ct := CounterTrigger.mkEvent "500A" "bob" st false (Some 10)
                   "Bob" "0001" ct in
  snd (CounterTrigger.run String.eqb 0 [e "active" "heartbeat";
                                        e "idle" "draftCheck"])
  = Some (CounterTrigger.countCalls String.eqb
            [e "active" "heartbeat"; e "idle" "draftCheck"] O O) /\
  mapGet "500A_bob"
    (CounterTrigger.logsToUpsert 0 [e "active" "heartbeat";
                                    e "idle" "draftCheck"])
  = Some (CounterTrigger.logOf 0 (e "idle" "draftCheck")).
Proof.
  intros e.
  destruct (trigger_logs_last_event_per_key String.eqb 0
              [e "active" "heartbeat"; e "idle" "draftCheck"])
    as (_ & H2 & _ & _ & _ & H6).
  split.
  - apply H6. discriminate.
  - rewrite H2. reflexivity.
Defined.

Lemma merge_draft_data_recomputes_flags_witness :
  let us := [echoUser "alice" "s1" "active" 1000 true] in
  let drafts := [EchoDrafts.mkDraft "alice" 0;
                 EchoDrafts.mkDraft "alice" 390000] in
  let u := hd (echoUser "" "" "" 0 false)
             (map EchoDrafts.user
                (EchoDrafts.mergeDraftData 400000 us drafts)) in
  SessionEcho.draftAge u = Some 400000 /\
  (SessionEcho.hasDraft u = true <->
   exists d, firstDraftOf "alice" drafts = Some d /\
             400000 - EchoDrafts.createdDate d < 300000).
Proof.
  intros us drafts u.
  destruct (merge_draft_data_recomputes_flags 400000 us drafts)
    as (_ & H & _).
  destruct (H u (or_introl eq_refl)) as [Hflag Hage].
  split; [exact Hage|exact Hflag].
Defined.

(** ** One record per user *)

Lemma settings_handle_distinct (c : Settings.Component) (visible : bool)
    (payload : Payload) :
  NoDup (map Settings.userId (Settings.visibleUsers c)) ->
  NoDup (map Settings.userId
           (Settings.visibleUsers
              (fst (Settings.handlePresenceEvent c visible payload)))).
Proof.
  intros Hnd. unfold Settings.handlePresenceEvent.
  destruct (strictEq _ (Settings.currentUserId c)); [assumption|].
  destruct (negb _); [assumption|].
  destruct (findIndex _ (Settings.visibleUsers c)) as [i|] eqn:E.
  - destruct (findIndex_Some _ _ _ E) as (l1 & x0 & l2 & Hl & Hlen & Hp & _).
    apply strictEq_true in Hp. rewrite Hl in Hnd.
    destruct (strictEq (State__c payload) "gone");
      cbn [fst Settings.setVisibleUsers Settings.visibleUsers];
      rewrite Hl, <- Hlen, ?replaceAt_split, ?removeAt_split;
      try (now apply (NoDup_map_replace Settings.userId l1 l2 x0));
      now apply (NoDup_map_remove Settings.userId l1 l2 x0).
  - assert (Hnew : forall y, In y (Settings.visibleUsers c) ->
                     Settings.userId y <> UserId__c payload).
    { intros y Hy. apply strictEq_false. revert y Hy.
      now apply findIndex_None. }
    destruct (strictEq (State__c payload) "gone");
      cbn [fst Settings.setVisibleUsers Settings.visibleUsers];
      try assumption; now apply NoDup_map_append.
Qed.

(** X20.  In the settings-driven and the form-factor aware revisions a
    visible list with at most one record for each user keeps at most one
    record for each user under every sequence of deliveries and sweeps. *)
Theorem one_record_per_user_is_kept :
  (forall c ops,
     NoDup (map Settings.userId (Settings.visibleUsers c)) ->
     NoDup (map Settings.userId
              (Settings.visibleUsers (fold_left settingsApply ops c)))) /\
  (forall c ops,
     NoDup (map Mobile.userId (Mobile.visibleUsers c)) ->
     NoDup (map Mobile.userId
              (Mobile.visibleUsers (fold_left mobileApply ops c)))).
Proof.
  split; intros c ops; revert c.
  - induction ops as [|op r IH]; intros c Hc; simpl; [assumption|].
    apply IH. destruct op as [d|now]; simpl.
    + now apply settings_handle_distinct.
    + now apply NoDup_map_filter.
  - induction ops as [|op r IH]; intros c Hc; simpl; [assumption|].
    apply IH. destruct op as [d|now]; simpl.
    + now apply mobile_handle_distinct.
    + now apply NoDup_map_filter.
Qed.

Lemma one_record_per_user_is_kept_witness :
  let ops := [Ingest (mkDelivery true true (eventOf "bob" "active" 10 false true));
              Ingest (mkDelivery true true (eventOf "bob" "gone" 20 false true));
              Sweep 30;
              Ingest (mkDelivery true true (eventOf "bob" "idle" 40 false false))] in
  NoDup (map Settings.userId
           (Settings.visibleUsers
              (fold_left settingsApply ops (settingsComponent true [])))) /\
  NoDup (map Mobile.userId
           (Mobile.visibleUsers
              (fold_left mobileApply ops (mobileComponent true [])))).
Proof.
  intros ops. destruct one_record_per_user_is_kept as [Hs Hm]. split.
  - apply Hs. constructor.
  - apply Hm. constructor.
Defined.

(** ** Focus changes of a drafting session *)

(** X21.  In the revision that echoes the local session the recorded state
    of a session with drafts is 'drafting' whether it has the focus or not;
    so when such a session, published as 'drafting', loses the focus,
    nothing is published and the observers are not told that it is no longer
    active.  A session without drafts, published as 'active', does publish
    'idle' with the activity flag cleared. *)
Theorem blur_while_drafting_is_silent (now : Z) (resolved : bool)
    (c : SessionEcho.Component) (caseId : string) :
  SessionEcho.recordId c = Some caseId ->
  SessionEcho.isComponentActive c = true ->
  (SessionEcho.hasDrafts c = true ->
   SessionEcho.currentState c = Some "drafting" ->
   EchoLocal.handleTabBlur now resolved c
   = (EchoLocal.setCompIsActive c false, None)) /\
  (SessionEcho.hasDrafts c = false ->
   SessionEcho.currentState c = Some "active" ->
   snd (EchoLocal.handleTabBlur now resolved c)
   = Some {| SessionEcho.pubCaseId := caseId;
             SessionEcho.pubSessionId := SessionEcho.compSessionId c;
             SessionEcho.pubState := "idle";
             SessionEcho.pubIsActive := false;
             SessionEcho.pubCallType := "heartbeat" |}).
Proof.
  intros Hrec Hact. unfold EchoLocal.handleTabBlur,
    SessionEcho.publishStateChange.
  cbn [EchoLocal.setCompIsActive SessionEcho.recordId SessionEcho.hasDrafts
       SessionEcho.isComponentActive SessionEcho.currentState].
  rewrite Hrec, Hact. cbn [negb]. split; intros Hd Hs; rewrite Hd, Hs.
  - reflexivity.
  - reflexivity.
Qed.

Lemma blur_while_drafting_is_silent_witness :
  let c := EchoLocal.setCompIsActive (echoComponent (Some "active") []) true in
  snd (EchoLocal.handleTabBlur 1000 true c)
  = Some {| SessionEcho.pubCaseId := "500A";
            SessionEcho.pubSessionId := "s-me";
            SessionEcho.pubState := "idle";
            SessionEcho.pubIsActive := false;
            SessionEcho.pubCallType := "heartbeat" |}.
Proof.
  intros c.
  destruct (blur_while_drafting_is_silent 1000 true c "500A" eq_refl eq_refl)
    as [_ H].
  exact (H eq_refl eq_refl).
Defined.
